(** * ai-proxy: credential gate, header sanitizer, routing table, forwarding

    A shallow embedding of [claude-code-auth.ts] and of the Hono application
    module that imports it (handlers for [/claude-code/exchange] and
    [/claude-code/proxy/*], the routing-table middleware and
    [fetchWithTimeout]), followed by the properties proved about them.  Line
    numbers in the comments refer to these two source files.

    Conventions of the model.
    - A JavaScript string is a [string]; its characters are code units below
      256.  File reads and writes with encoding utf-8 are the identity on
      text.
    - A JavaScript number is an integer [Z] or [NaN]: epoch milliseconds and
      second counts.  Fractions and exponents are outside the model and are
      reported as [Unmodelled], never silently rounded.  The integers of the
      model are exact where JavaScript has doubles; the two agree on safe
      integers ([Js.safe_integer]), and what is proved about a computed
      number is proved there.
    - [Headers], [URL], [fetch], hono's [proxy] and the clock are platform
      objects.  The model gives them the behaviour the handlers rely on and
      takes the network's answers as inputs ([Platform]).  A forwarded call
      is the list of arguments given to [proxy], and its answer is what the
      promise of [proxy] settles to.  [headers.set] normalises the value
      that line 97 builds ([Headers.normalize]); where it would throw, on a
      value that is not [Headers.clean], the model goes on, and what is
      proved about the forwarded call is proved for clean tokens. *)

From Stdlib Require Import String Ascii List ZArith NArith Lia Bool.
From Stdlib Require Import Decimal DecimalString.
From Stdlib Require DecimalFacts DecimalPos DecimalZ.
Import ListNotations.
Local Open Scope string_scope.
Local Open Scope Z_scope.

(** ** Strings *)

Module Str.

(** [String.prototype.toLowerCase] on one code unit of the ASCII range. *)
Definition lower_ascii (c : ascii) : ascii :=
  let n := nat_of_ascii c in
  if (Nat.leb 65 n && Nat.leb n 90)%bool then ascii_of_nat (n + 32) else c.

Fixpoint toLowerCase (s : string) : string :=
  match s with
  | EmptyString => EmptyString
  | String c r => String (lower_ascii c) (toLowerCase r)
  end.

(** [s.startsWith(p)] *)
Definition startsWith (s p : string) : bool := String.prefix p s.

(** Remainder of [s] after the prefix [p], when [s] starts with [p]. *)
Fixpoint strip_prefix (p s : string) : option string :=
  match p, s with
  | EmptyString, _ => Some s
  | String a p', String b s' => if Ascii.eqb a b then strip_prefix p' s' else None
  | String _ _, EmptyString => None
  end.

(** [s.replace(pat, rep)] with a string pattern: the first occurrence of
    [pat], scanning from the left, is replaced; without an occurrence [s] is
    returned as it is.  The replacement strings used by the handlers contain
    no [$], so the replacement is literal. *)
Fixpoint replace (pat rep s : string) : string :=
  match strip_prefix pat s with
  | Some rest => rep ++ rest
  | None =>
      match s with
      | EmptyString => EmptyString
      | String c r => String c (replace pat rep r)
      end
  end.

(** [s.split(sep)] for a one-character separator: the pieces between the
    occurrences of [sep]; always at least one piece. *)
Fixpoint split (sep : ascii) (s : string) : list string :=
  match s with
  | EmptyString => [EmptyString]
  | String c r =>
      if Ascii.eqb c sep then EmptyString :: split sep r
      else match split sep r with
           | [] => [String c EmptyString]
           | piece :: pieces => String c piece :: pieces
           end
  end.

(** [s] is [before], then [pat], then [after], and [pat] occurs nowhere
    further to the left. *)
Definition first_occurrence (pat s before after : string) : Prop :=
  s = before ++ pat ++ after
  /\ forall b a, s = b ++ pat ++ a -> (String.length before <= String.length b)%nat.

(** [pat] occurs nowhere in [s]. *)
Definition absent (pat s : string) : Prop :=
  forall b a, s <> b ++ pat ++ a.

(** [sep] occurs in [s]. *)
Fixpoint occurs (sep : ascii) (s : string) : bool :=
  match s with
  | EmptyString => false
  | String c r => Ascii.eqb c sep || occurs sep r
  end.

End Str.

(** ** Headers

    The header list of a [Headers] object, as the Fetch standard describes
    it: pairs of name and value, names compared without regard to case.
    [set] is the list operation of [headers.set] on a name and a value that
    are valid and normalised already, as those are that a [Headers] object
    hands to the callback of [forEach].  For a value the program builds
    itself, [normalize] is what the platform does to it first, and [clean]
    excludes the values on which the platform throws instead. *)

Module Headers.
Import Str.

Definition t := list (string * string).

Definition same_name (a b : string) : bool :=
  String.eqb (toLowerCase a) (toLowerCase b).

(** [new Headers()] *)
Definition empty : t := [].

(** [headers.delete(name)] *)
Definition delete (name : string) (h : t) : t :=
  filter (fun e => negb (same_name (fst e) name)) h.

(** [headers.set(name, value)]: the first header of that name takes the
    value and the others are removed; without one, the header is appended. *)
Fixpoint set (name value : string) (h : t) : t :=
  match h with
  | [] => [(name, value)]
  | (n, v) :: r =>
      if same_name n name then (n, value) :: delete name r
      else (n, v) :: set name value r
  end.

(** [headers.get(name)]: the values of all headers of that name, joined by
    a comma and a space; [None] for [null]. *)
Definition get (name : string) (h : t) : option string :=
  match map snd (filter (fun e => same_name (fst e) name) h) with
  | [] => None
  | vs => Some (String.concat ", " vs)
  end.

(** The names of a header list, lower-cased. *)
Definition names (h : t) : list string := map (fun e => toLowerCase (fst e)) h.

(** The headers of [h] named [n]. *)
Definition named (n : string) (h : t) : t :=
  filter (fun e => same_name (fst e) n) h.

(** No header of [h] is named [n]. *)
Definition fresh (n : string) (h : t) : Prop :=
  ~ In (toLowerCase n) (names h).

(** HTTP white space: tab, line feed, carriage return, space. *)
Definition http_whitespace (c : ascii) : bool :=
  let n := nat_of_ascii c in
  Nat.eqb n 9 || Nat.eqb n 10 || Nat.eqb n 13 || Nat.eqb n 32.

Fixpoint strip_start (s : string) : string :=
  match s with
  | EmptyString => EmptyString
  | String c r => if http_whitespace c then strip_start r else s
  end.

Fixpoint strip_end (s : string) : string :=
  match s with
  | EmptyString => EmptyString
  | String c r =>
      match strip_end r with
      | EmptyString => if http_whitespace c then EmptyString else String c EmptyString
      | r' => String c r'
      end
  end.

(** What [headers.set] and [headers.append] do to a value before they
    store it: HTTP white space is removed from both ends. *)
Definition normalize (value : string) : string := strip_end (strip_start value).

(** The platform stores [value] as it is given. *)
Definition as_given (value : string) : bool := String.eqb (normalize value) value.

(** No NUL, line feed or carriage return in [value].  On a value that has
    one left after normalisation, [headers.set] throws a [TypeError]. *)
Fixpoint clean (value : string) : bool :=
  match value with
  | EmptyString => true
  | String c r =>
      let n := nat_of_ascii c in
      negb (Nat.eqb n 0 || Nat.eqb n 10 || Nat.eqb n 13) && clean r
  end.

(** The value of the last entry of [h] named [name]. *)
Fixpoint last_value (name : string) (h : t) : option string :=
  match h with
  | [] => None
  | (k, v) :: r =>
      match last_value name r with
      | Some v' => Some v'
      | None => if same_name k name then Some v else None
      end
  end.

End Headers.

(** ** Header sanitizer (the [forEach] loops of both forwarding handlers) *)

Module Sanitizer.
Import Str.

(** The names the specification asks to drop: the lower-cased name [k]
    starts with [cf-], [x-forwarded-] or [cdn-], or is [x-real-ip] or
    [host]. *)
Definition dropped (k : string) : bool :=
  startsWith k "cf-" || startsWith k "x-forwarded-" || startsWith k "cdn-"
  || String.eqb k "x-real-ip" || String.eqb k "host".

(** The loop body, application module lines 84-95 and 231-242:
    [(value, key) => { const k = key.toLowerCase(); if (...)
    headers.set(key, value) }]. *)
Definition copy_header (headers : Headers.t) (entry : string * string) : Headers.t :=
  let (key, value) := entry in
  let k := toLowerCase key in
  if negb (startsWith k "cf-") && negb (startsWith k "x-forwarded-")
     && negb (startsWith k "cdn-") && negb (String.eqb k "x-real-ip")
     && negb (String.eqb k "host")
  then Headers.set key value headers
  else headers.

(** [c.req.raw.headers.forEach(...)] over the entries of the inbound header
    set, in iteration order, updating [headers]. *)
Definition sanitize (inbound : Headers.t) (headers : Headers.t) : Headers.t :=
  fold_left copy_header inbound headers.

(** What the specification asks of the sanitizer, in its words: every header
    whose lower-cased name is not dropped, copied. *)
Definition sanitized_spec (inbound : Headers.t) : Headers.t :=
  filter (fun e => negb (dropped (toLowerCase (fst e)))) inbound.

End Sanitizer.

(** ** Routing table *)

Module Routing.
Import Str.

(** The parts of [new URL(c.req.url)] the handlers read. *)
Record URL := mkURL {
  hostname : string;
  pathname : string;
  search : string
}.

Record ProxyEntry := mkProxy {
  pathSegment : string;
  target : string;
  orHostname : option string
}.

Definition proxies : list ProxyEntry :=
  [ mkProxy "generativelanguage" "https://generativelanguage.googleapis.com"
            (Some "gooai.chatkit.app");
    mkProxy "groq" "https://api.groq.com" None;
    mkProxy "anthropic" "https://api.anthropic.com" None;
    mkProxy "pplx" "https://api.perplexity.ai" None;
    mkProxy "openai" "https://api.openai.com" None;
    mkProxy "mistral" "https://api.mistral.ai" None;
    mkProxy "openrouter/api" "https://openrouter.ai/api" None;
    mkProxy "openrouter" "https://openrouter.ai/api" None;
    mkProxy "xai" "https://api.x.ai" None;
    mkProxy "cerebras" "https://api.cerebras.ai" None;
    mkProxy "googleapis-cloudcode-pa" "https://cloudcode-pa.googleapis.com" None ].

(** The string [`/${p.pathSegment}/`]. *)
Definition segment_pattern (p : ProxyEntry) : string :=
  "/" ++ pathSegment p ++ "/".

(** The predicate given to [proxies.find]:
    [url.pathname.startsWith(`/${p.pathSegment}/`) ||
     (p.orHostname && url.hostname === p.orHostname)]. *)
Definition matches (url : URL) (p : ProxyEntry) : bool :=
  startsWith (pathname url) (segment_pattern p)
  || match orHostname p with
     | Some h => negb (String.eqb h "") && String.eqb (hostname url) h
     | None => false
     end.

(** [table.find(...)]: the first entry that matches. *)
Definition find_proxy (table : list ProxyEntry) (url : URL) : option ProxyEntry :=
  find (matches url) table.

(** [`${proxy.target}${url.pathname.replace(`/${proxy.pathSegment}/`, "/")}${url.search}`] *)
Definition targetUrl (proxy : ProxyEntry) (url : URL) : string :=
  target proxy ++ replace (segment_pattern proxy) "/" (pathname url) ++ search url.

(** The target the middleware forwards to, when an entry matches. *)
Definition resolve (table : list ProxyEntry) (url : URL) : option string :=
  match find_proxy table url with
  | Some proxy => Some (targetUrl proxy url)
  | None => None
  end.

End Routing.

(** ** Results of running JavaScript *)

Inductive Error :=
| SyntaxError
| TypeError
| AbortError
| NetworkError (reason : string).

(** What evaluating a piece of the program gives: a value, a thrown
    exception, or [Unmodelled] when the evaluation leaves the part of
    JavaScript this development covers. *)
Inductive Outcome (A : Type) :=
| Ret (a : A)
| Throw (e : Error)
| Unmodelled.

Arguments Ret {A} a.
Arguments Throw {A} e.
Arguments Unmodelled {A}.

Definition obind {A B} (o : Outcome A) (k : A -> Outcome B) : Outcome B :=
  match o with
  | Ret a => k a
  | Throw e => Throw e
  | Unmodelled => Unmodelled
  end.

Definition omap {A B} (f : A -> B) (o : Outcome A) : Outcome B :=
  obind o (fun a => Ret (f a)).

(** ** JavaScript values and the JSON codec *)

Module Js.
Import Str.

Inductive number :=
| Int (n : Z)
| NaN.

(** The values that [JSON.parse] produces, and [undefined].  An object is
    the list of its own properties in insertion order. *)
#[local] Unset Elimination Schemes.
Inductive value :=
| VUndefined
| VNull
| VBool (b : bool)
| VNum (x : number)
| VStr (s : string)
| VArr (items : list value)
| VObj (members : list (string * value)).
#[local] Set Elimination Schemes.

(** *** Coercions *)

(** ToBoolean *)
Definition truthy (v : value) : bool :=
  match v with
  | VUndefined | VNull => false
  | VBool b => b
  | VNum (Int n) => negb (n =? 0)
  | VNum NaN => false
  | VStr s => negb (String.eqb s "")
  | VArr _ | VObj _ => true
  end.

(** ToNumber.  Strings and arrays need the numeric-literal grammar, which can
    give a fraction: [None] there.  The answer for an object is that of an
    object without an own member [toString]; see [converts_to_NaN]. *)
Definition to_number (v : value) : option number :=
  match v with
  | VUndefined => Some NaN
  | VNull => Some (Int 0)
  | VBool b => Some (Int (if b then 1 else 0))
  | VNum x => Some x
  | VStr _ | VArr _ => None
  | VObj _ => Some NaN
  end.

Definition mul (a b : number) : number :=
  match a, b with
  | Int x, Int y => Int (x * y)
  | _, _ => NaN
  end.

Definition add (a b : number) : number :=
  match a, b with
  | Int x, Int y => Int (x + y)
  | _, _ => NaN
  end.

(** [a < b] on numbers: false when either is [NaN]. *)
Definition lt (a b : number) : bool :=
  match a, b with
  | Int x, Int y => x <? y
  | _, _ => false
  end.

(** [Number.isSafeInteger]: an integer of absolute value below 2^53.  A
    JavaScript number is a double; on safe integers whose sum or product is
    safe, [+] and [*] are exact and are [add] and [mul]; a safe integer is
    read by [JSON.parse] and written by [JSON.stringify] digit by digit.
    Outside this range the double rounds, and [add], [mul], [parse_number]
    and [string_of_Z] are not what JavaScript computes. *)
Definition safe_integer (n : Z) : bool :=
  (-9007199254740991 <=? n) && (n <=? 9007199254740991).

(** Number::toString for an integer (below 10^21 in absolute value, where
    JavaScript still prints all digits). *)
Definition string_of_Z (n : Z) : string :=
  NilZero.string_of_int (Z.to_int n).

(** ToString, as a template literal applies it.  The answer for an object is
    that of an object without an own member [toString]; an integer is
    printed as JavaScript does below 10^21. *)
Fixpoint to_string (v : value) : string :=
  match v with
  | VUndefined => "undefined"
  | VNull => "null"
  | VBool b => if b then "true" else "false"
  | VNum (Int n) => string_of_Z n
  | VNum NaN => "NaN"
  | VStr s => s
  | VArr items =>
      String.concat ","
        (map (fun x => match x with
                       | VUndefined | VNull => ""
                       | _ => to_string x
                       end) items)
  | VObj _ => "[object Object]"
  end.

(** *** Property access *)

Fixpoint lookup (k : string) (members : list (string * value)) : option value :=
  match members with
  | [] => None
  | (k', v) :: r => if String.eqb k' k then Some v else lookup k r
  end.

(** [v.k] for a property name [k] that no prototype defines: a [TypeError]
    on [null] and [undefined], the own property of an object, [undefined]
    everywhere else. *)
Definition get_prop (v : value) (k : string) : Outcome value :=
  match v with
  | VUndefined | VNull => Throw TypeError
  | VObj members =>
      match lookup k members with
      | Some x => Ret x
      | None => Ret VUndefined
      end
  | _ => Ret VUndefined
  end.

(** ToNumber gives [NaN] and does not throw: on [undefined], on [NaN], and
    on an object without an own member [toString].  With one (its value,
    read from a JSON text, is not callable) the conversion finds no method
    to call and throws a [TypeError], which [to_number] and [to_string] do
    not show. *)
Definition converts_to_NaN (v : value) : bool :=
  match v with
  | VUndefined | VNum NaN => true
  | VObj members =>
      match lookup "toString" members with
      | Some _ => false
      | None => true
      end
  | _ => false
  end.

(** CreateDataProperty on the object under construction: an existing key
    keeps its place and takes the new value. *)
Fixpoint define (k : string) (v : value) (members : list (string * value))
  : list (string * value) :=
  match members with
  | [] => [(k, v)]
  | (k', v') :: r =>
      if String.eqb k' k then (k', v) :: r else (k', v') :: define k v r
  end.

(** [v.k = x] in strict mode, giving [v] afterwards: a [TypeError] on a
    primitive.  An array with a named property is outside [value]. *)
Definition set_prop (v : value) (k : string) (x : value) : Outcome value :=
  match v with
  | VObj members => Ret (VObj (define k x members))
  | VArr _ => Unmodelled
  | _ => Throw TypeError
  end.

(** *** JSON.stringify *)

Definition dquote : ascii := ascii_of_nat 34.
Definition backslash : ascii := ascii_of_nat 92.
Definition newline : string := String (ascii_of_nat 10) EmptyString.

Definition hex_digit (n : nat) : ascii :=
  nth n ["0"; "1"; "2"; "3"; "4"; "5"; "6"; "7"; "8"; "9";
         "a"; "b"; "c"; "d"; "e"; "f"]%char "0"%char.

(** One code unit inside a quoted JSON string. *)
Definition escape_char (c : ascii) : string :=
  let n := nat_of_ascii c in
  if Nat.eqb n 34 then String backslash (String dquote EmptyString)
  else if Nat.eqb n 92 then String backslash (String backslash EmptyString)
  else if Nat.eqb n 8 then String backslash "b"
  else if Nat.eqb n 12 then String backslash "f"
  else if Nat.eqb n 10 then String backslash "n"
  else if Nat.eqb n 13 then String backslash "r"
  else if Nat.eqb n 9 then String backslash "t"
  else if Nat.ltb n 32 then
    String backslash
      (String "u" (String "0" (String "0"
         (String (hex_digit (Nat.div n 16))
            (String (hex_digit (Nat.modulo n 16)) EmptyString)))))
  else String c EmptyString.

Fixpoint escape (s : string) : string :=
  match s with
  | EmptyString => EmptyString
  | String c r => escape_char c ++ escape r
  end.

(** QuoteJSONString *)
Definition quote (s : string) : string :=
  String dquote (escape s ++ String dquote EmptyString).

(** The text of one member of an object from its key and the text of its
    value. *)
Definition member_text (gap key text : string) : string :=
  quote key ++ ":" ++ (if String.eqb gap "" then "" else " ") ++ text.

(** The text of an object or array from the texts of its parts. *)
Definition wrap (opening closing gap indent : string) (parts : list string) : string :=
  match parts with
  | [] => opening ++ closing
  | _ =>
      if String.eqb gap "" then opening ++ String.concat "," parts ++ closing
      else
        let inner := indent ++ gap in
        opening ++ newline ++ inner
          ++ String.concat ("," ++ newline ++ inner) parts
          ++ newline ++ indent ++ closing
  end.

(** SerializeJSONProperty with the gap [gap] at the indentation [indent];
    [None] is [undefined]. *)
Fixpoint serialize (gap indent : string) (v : value) : option string :=
  match v with
  | VUndefined => None
  | VNull => Some "null"
  | VBool b => Some (if b then "true" else "false")
  | VNum (Int n) => Some (string_of_Z n)
  | VNum NaN => Some "null"
  | VStr s => Some (quote s)
  | VArr items =>
      Some (wrap "[" "]" gap indent
              (map (fun x => match serialize gap (indent ++ gap) x with
                             | Some text => text
                             | None => "null"
                             end) items))
  | VObj members =>
      Some (wrap "{" "}" gap indent
              (flat_map (fun kv =>
                 match serialize gap (indent ++ gap) (snd kv) with
                 | Some text => [member_text gap (fst kv) text]
                 | None => []
                 end) members))
  end.

(** [JSON.stringify(v)] *)
Definition JSON_stringify (v : value) : option string := serialize "" "" v.

(** [JSON.stringify(v, null, 2)] *)
Definition JSON_stringify_2 (v : value) : option string := serialize "  " "" v.

(** *** JSON.parse *)

Definition is_ws (c : ascii) : bool :=
  let n := nat_of_ascii c in
  Nat.eqb n 32 || Nat.eqb n 9 || Nat.eqb n 10 || Nat.eqb n 13.

Fixpoint skip_ws (s : string) : string :=
  match s with
  | EmptyString => EmptyString
  | String c r => if is_ws c then skip_ws r else s
  end.

Definition hex_value (c : ascii) : option nat :=
  let n := nat_of_ascii c in
  if Nat.leb 48 n && Nat.leb n 57 then Some (n - 48)%nat
  else if Nat.leb 97 n && Nat.leb n 102 then Some (n - 87)%nat
  else if Nat.leb 65 n && Nat.leb n 70 then Some (n - 55)%nat
  else None.

(** The code unit of [\uXXXX] from its four hexadecimal digits. *)
Definition hex4 (a b c d : ascii) : option nat :=
  match hex_value a, hex_value b, hex_value c, hex_value d with
  | Some x, Some y, Some z, Some w => Some (((x * 16 + y) * 16 + z) * 16 + w)%nat
  | _, _, _, _ => None
  end.

(** The character a two-character escape stands for. *)
Definition simple_escape (e : ascii) : option ascii :=
  let n := nat_of_ascii e in
  if Nat.eqb n 34 then Some dquote
  else if Nat.eqb n 92 then Some backslash
  else if Nat.eqb n 47 then Some "/"%char
  else if Nat.eqb n 98 then Some (ascii_of_nat 8)
  else if Nat.eqb n 102 then Some (ascii_of_nat 12)
  else if Nat.eqb n 110 then Some (ascii_of_nat 10)
  else if Nat.eqb n 114 then Some (ascii_of_nat 13)
  else if Nat.eqb n 116 then Some (ascii_of_nat 9)
  else None.

Definition push (c : ascii) (o : Outcome (string * string)) : Outcome (string * string) :=
  omap (fun p => (String c (fst p), snd p)) o.

(** The characters of a string literal after its opening quote, and the
    text after its closing quote.  An escape above code unit 255 is outside
    the model. *)
Fixpoint parse_chars (s : string) : Outcome (string * string) :=
  match s with
  | EmptyString => Throw SyntaxError
  | String c r =>
      if Ascii.eqb c dquote then Ret (EmptyString, r)
      else if Ascii.eqb c backslash then
        match r with
        | EmptyString => Throw SyntaxError
        | String e r1 =>
            match simple_escape e with
            | Some ch => push ch (parse_chars r1)
            | None =>
                if Ascii.eqb e "u" then
                  match r1 with
                  | String h1 (String h2 (String h3 (String h4 r5))) =>
                      match hex4 h1 h2 h3 h4 with
                      | Some code =>
                          if Nat.ltb code 256
                          then push (ascii_of_nat code) (parse_chars r5)
                          else Unmodelled
                      | None => Throw SyntaxError
                      end
                  | _ => Throw SyntaxError
                  end
                else Throw SyntaxError
            end
        end
      else if Nat.ltb (nat_of_ascii c) 32 then Throw SyntaxError
      else push c (parse_chars r)
  end.

Definition digit_of (c : ascii) : option (uint -> uint) :=
  match nat_of_ascii c with
  | 48%nat => Some D0 | 49%nat => Some D1 | 50%nat => Some D2 | 51%nat => Some D3
  | 52%nat => Some D4 | 53%nat => Some D5 | 54%nat => Some D6 | 55%nat => Some D7
  | 56%nat => Some D8 | 57%nat => Some D9
  | _ => None
  end.

(** The longest run of decimal digits at the start of [s], and the rest. *)
Fixpoint take_digits (s : string) : uint * string :=
  match s with
  | EmptyString => (Nil, EmptyString)
  | String c r =>
      match digit_of c with
      | Some d => let (u, rest) := take_digits r in (d u, rest)
      | None => (Nil, s)
      end
  end.

Definition starts_fraction (s : string) : bool :=
  match s with
  | String c _ => Ascii.eqb c "." || Ascii.eqb c "e" || Ascii.eqb c "E"
  | EmptyString => false
  end.

(** A number literal: an optional minus sign, then [0] or a run of digits
    that does not start with [0].  A fraction or exponent part is outside
    the model. *)
Definition parse_number (s : string) : Outcome (value * string) :=
  let (negative, s1) :=
    match s with
    | String c r => if Ascii.eqb c "-" then (true, r) else (false, s)
    | EmptyString => (false, s)
    end in
  let (u, rest) := take_digits s1 in
  match u with
  | Nil => Throw SyntaxError
  | D0 (D0 _ | D1 _ | D2 _ | D3 _ | D4 _ | D5 _ | D6 _ | D7 _ | D8 _ | D9 _) =>
      Throw SyntaxError
  | _ =>
      if starts_fraction rest then Unmodelled
      else Ret (VNum (Int (if negative then - Z.of_uint u else Z.of_uint u)), rest)
  end.

Definition parse_literal (word : string) (v : value) (s : string) : Outcome (value * string) :=
  match strip_prefix word s with
  | Some rest => Ret (v, rest)
  | None => Throw SyntaxError
  end.

(** A JSON value at the start of [s] (after white space) and the text after
    it.  [fuel] bounds the depth of the calls.  Of two calls in a row at
    least one consumes a character, so twice the length of the text is
    enough; a parse that runs out of fuel is [Unmodelled]. *)
Fixpoint parse_value (fuel : nat) (s : string) : Outcome (value * string) :=
  match fuel with
  | O => Unmodelled
  | S fuel' =>
      match skip_ws s with
      | EmptyString => Throw SyntaxError
      | String c r as text =>
          if Ascii.eqb c "{" then
            match skip_ws r with
            | EmptyString => Throw SyntaxError
            | String c' r' as inside =>
                if Ascii.eqb c' "}" then Ret (VObj [], r')
                else parse_members fuel' inside []
            end
          else if Ascii.eqb c "[" then
            match skip_ws r with
            | EmptyString => Throw SyntaxError
            | String c' r' as inside =>
                if Ascii.eqb c' "]" then Ret (VArr [], r')
                else parse_elements fuel' inside []
            end
          else if Ascii.eqb c dquote then
            omap (fun p => (VStr (fst p), snd p)) (parse_chars r)
          else if Ascii.eqb c "t" then parse_literal "true" (VBool true) text
          else if Ascii.eqb c "f" then parse_literal "false" (VBool false) text
          else if Ascii.eqb c "n" then parse_literal "null" VNull text
          else parse_number text
      end
  end

with parse_members (fuel : nat) (s : string) (acc : list (string * value))
  : Outcome (value * string) :=
  match fuel with
  | O => Unmodelled
  | S fuel' =>
      match skip_ws s with
      | EmptyString => Throw SyntaxError
      | String c r =>
          if Ascii.eqb c dquote then
            obind (parse_chars r) (fun key =>
            match skip_ws (snd key) with
            | EmptyString => Throw SyntaxError
            | String c1 r1 =>
                if Ascii.eqb c1 ":" then
                  obind (parse_value fuel' r1) (fun member =>
                  let acc' := define (fst key) (fst member) acc in
                  match skip_ws (snd member) with
                  | EmptyString => Throw SyntaxError
                  | String c2 r2 =>
                      if Ascii.eqb c2 "," then parse_members fuel' r2 acc'
                      else if Ascii.eqb c2 "}" then Ret (VObj acc', r2)
                      else Throw SyntaxError
                  end)
                else Throw SyntaxError
            end)
          else Throw SyntaxError
      end
  end

with parse_elements (fuel : nat) (s : string) (acc : list value)
  : Outcome (value * string) :=
  match fuel with
  | O => Unmodelled
  | S fuel' =>
      obind (parse_value fuel' s) (fun element =>
      let acc' := (acc ++ [fst element])%list in
      match skip_ws (snd element) with
      | EmptyString => Throw SyntaxError
      | String c r =>
          if Ascii.eqb c "," then parse_elements fuel' r acc'
          else if Ascii.eqb c "]" then Ret (VArr acc', r)
          else Throw SyntaxError
      end)
  end.

(** Text that may follow a number literal without changing it: it starts
    neither with a digit nor with a fraction or exponent. *)
Definition ends_number (s : string) : bool :=
  match s with
  | EmptyString => true
  | String c _ =>
      match digit_of c with
      | Some _ => false
      | None => negb (starts_fraction s)
      end
  end.

(** White space: [skip_ws] removes [p] in front of any text. *)
Definition padding (p : string) : Prop :=
  forall x, skip_ws (p ++ x) = skip_ws x.

(** A string or an integer, the values the records of this program are
    made of. *)
Definition scalar (v : value) : bool :=
  match v with
  | VStr _ | VNum (Int _) => true
  | _ => false
  end.

(** The text [JSON.stringify] gives a scalar. *)
Definition scalar_text (v : value) : string :=
  match v with
  | VStr s => quote s
  | VNum (Int n) => string_of_Z n
  | _ => EmptyString
  end.

(** The text of a member whose value is a scalar. *)
Definition scalar_member (gap : string) (kv : string * value) : string :=
  member_text gap (fst kv) (scalar_text (snd kv)).

(** The object that [JSON.parse] builds from members read in this order. *)
Definition object_of (members acc : list (string * value)) : list (string * value) :=
  fold_left (fun a kv => define (fst kv) (snd kv) a) members acc.

(** [JSON.parse(text)] *)
Definition JSON_parse (text : string) : Outcome value :=
  obind (parse_value (S (2 * String.length text)) text) (fun parsed =>
  match skip_ws (snd parsed) with
  | EmptyString => Ret (fst parsed)
  | String _ _ => Throw SyntaxError
  end).

End Js.

(** ** The platform: network, clock, file system *)

Module Net.

(** The arguments of an outbound call: [fetch(url, {method, headers, body})]
    and [proxy(url, {method, headers, body, signal})]. *)
Record Call := mkCall {
  c_url : string;
  c_method : string;
  c_headers : Headers.t;
  c_body : option string
}.

Record Response := mkResponse {
  status : Z;
  headers : Headers.t;
  body : option string
}.

(** [response.ok] *)
Definition ok (r : Response) : bool := (200 <=? status r) && (status r <=? 299).

(** What the promise of hono's [proxy(url, init)] does when nothing aborts
    the call: resolve to a response after some milliseconds, reject after
    some milliseconds, or stay pending.  The library is not part of the
    program: what it sends on from the arguments, and what it makes of the
    answer of the target before it resolves, lie behind this interface. *)
Inductive Behaviour :=
| Responds (after_ms : Z) (res : Response)
| Fails (after_ms : Z) (err : Error)
| Hangs.

(** The answers of the world outside the process.  [fetch] gives the time
    the token endpoint takes and what its promise settles to (it is taken to
    settle); [upstream] is what [proxy] does with the arguments of a
    forwarded call;
    [toISOString] is [Date.prototype.toISOString] on epoch milliseconds;
    [url_hostname] is [new URL(s).hostname]. *)
Record Platform := mkPlatform {
  fetch : Call -> Z * Outcome Response;
  upstream : Call -> Behaviour;
  toISOString : Z -> string;
  url_hostname : string -> string
}.

(** The effects of a handler that the outside can observe: a call of
    [fetch], a call of [proxy] (each with its arguments), an abort, a write
    of the token file. *)
Inductive Event :=
| EvFetch (c : Call)
| EvProxy (c : Call)
| EvAbort
| EvWriteFile (text : string).

(** [token_file] is the text of [claude-code-tokens.json], [None] while the
    file does not exist; [now] is what [Date.now()] returns. *)
Record World := mkWorld {
  token_file : option string;
  now : Z
}.

Definition advance (ms : Z) (w : World) : World :=
  mkWorld (token_file w) (now w + ms).

(** What running a computation gives: how it ended, the world it left, and
    the events it caused, oldest first. *)
Record Run (A : Type) := mkRun {
  outcome : Outcome A;
  world : World;
  events : list Event
}.

Arguments mkRun {A} outcome world events.
Arguments outcome {A} r.
Arguments world {A} r.
Arguments events {A} r.

Definition M (A : Type) : Type := World -> Run A.

Definition ret {A} (a : A) : M A := fun w => mkRun (Ret a) w [].

Definition bind {A B} (m : M A) (k : A -> M B) : M B :=
  fun w =>
    let r := m w in
    match outcome r with
    | Ret a =>
        let r' := k a (world r) in
        mkRun (outcome r') (world r') (events r ++ events r')
    | Throw e => mkRun (Throw e) (world r) (events r)
    | Unmodelled => mkRun Unmodelled (world r) (events r)
    end.

Definition lift {A} (o : Outcome A) : M A := fun w => mkRun o w [].

Definition lift_option {A} (o : option A) : M A :=
  lift (match o with Some a => Ret a | None => Unmodelled end).

(** [Date.now()] *)
Definition Date_now : M Z := fun w => mkRun (Ret (now w)) w [].

(** [await fetch(url, init)] *)
Definition await_fetch (P : Platform) (c : Call) : M Response :=
  fun w => mkRun (snd (fetch P c)) (advance (fst (fetch P c)) w) [EvFetch c].

(** [writeFileSync(TOKEN_FILE_PATH, data)]; [data] must be a string. *)
Definition writeFileSync (data : option string) : M unit :=
  fun w => match data with
           | Some text => mkRun (Ret tt) (mkWorld (Some text) (now w)) [EvWriteFile text]
           | None => mkRun (Throw TypeError) w []
           end.

Definition fetch_of (e : Event) : list Call :=
  match e with EvFetch c => [c] | _ => [] end.

Definition proxy_of (e : Event) : list Call :=
  match e with EvProxy c => [c] | _ => [] end.

Definition write_of (e : Event) : list string :=
  match e with EvWriteFile text => [text] | _ => [] end.

(** The outbound calls of a trace through [fetch]. *)
Definition fetches (t : list Event) : list Call := flat_map fetch_of t.

(** The outbound calls of a trace through [proxy]. *)
Definition proxied (t : list Event) : list Call := flat_map proxy_of t.

(** The texts written to the token file in a trace. *)
Definition writes (t : list Event) : list string := flat_map write_of t.

(** [m] causes none of the events that [select] picks. *)
Definition free {A X} (select : Event -> list X) (m : M A) : Prop :=
  forall w, flat_map select (events (m w)) = [].

(** [m] only reads: it ends in [o], leaves the world as it is and causes no
    event. *)
Definition reads {A} (m : M A) (w : World) (o : Outcome A) : Prop :=
  m w = mkRun o w [].

(** [m] causes at most one of the events that [select] picks. *)
Definition at_most_once {A X} (select : Event -> list X) (m : M A) : Prop :=
  forall w, (length (flat_map select (events (m w))) <= 1)%nat.

(** The token file after a trace: the last text written, or what it was
    when nothing was. *)
Definition file_after (t : list Event) (before : option string) : option string :=
  fold_left (fun _ text => Some text) (writes t) before.

(** [m] changes the token file by its writes only. *)
Definition tracks_file {A} (m : M A) : Prop :=
  forall w, token_file (world (m w)) = file_after (events (m w)) (token_file w).

End Net.

Declare Scope js_scope.
Delimit Scope js_scope with js.
Notation "x <- m ;; k" := (Net.bind m (fun x => k))
  (at level 100, m at next level, right associativity) : js_scope.
Notation "m ;; k" := (Net.bind m (fun _ => k))
  (at level 100, right associativity) : js_scope.

(** ** claude-code-auth.ts *)

Module Auth.
Import Str Js Net.
Local Open Scope js_scope.

Definition CLIENT_ID : string := "9d1c250a-e61b-44d9-88ed-5944d1962f5e".
Definition TOKEN_URL : string := "https://console.anthropic.com/v1/oauth/token".
Definition REDIRECT_URI : string := "https://console.anthropic.com/oauth/code/callback".

Definition json_headers : Headers.t := [("Content-Type", "application/json")].

(** The object literal of [storeTokens], lines 33-38. *)
Definition tokenData (refresh access expires : value) (updated_at : string) : value :=
  VObj [("refresh", refresh); ("access", access); ("expires", expires);
        ("updated_at", VStr updated_at)].

(** Lines 32-40. *)
Definition storeTokens (P : Platform) (refresh access expires : value) : M unit :=
  t <- Date_now ;;
  writeFileSync
    (JSON_stringify_2 (tokenData refresh access expires (toISOString P t))).

(** Lines 43-49. *)
Definition getStoredTokens : M value :=
  fun w => match token_file w with
           | None => mkRun (Ret VNull) w []
           | Some data => mkRun (JSON_parse data) w []
           end.

(** [splits[i]] *)
Definition element (splits : list string) (i : nat) : value :=
  match nth_error splits i with
  | Some s => VStr s
  | None => VUndefined
  end.

(** The object literal that [exchange] serialises as the request body,
    lines 52 and 58-65. *)
Definition exchange_body (code verifier : string) : value :=
  let splits := split "#" code in
  VObj [("code", element splits 0);
        ("state", element splits 1);
        ("grant_type", VStr "authorization_code");
        ("client_id", VStr CLIENT_ID);
        ("redirect_uri", VStr REDIRECT_URI);
        ("code_verifier", VStr verifier)].

Definition exchange_call (code verifier : string) : Call :=
  mkCall TOKEN_URL "POST" json_headers (JSON_stringify (exchange_body code verifier)).

(** [Date.now() + expires_in * 1000] *)
Definition expiry (t : Z) (expires_in : value) : M value :=
  seconds <- lift_option (to_number expires_in) ;;
  ret (VNum (add (Int t) (mul seconds (Int 1000)))).

(** [await result.json()]; a response without body has no JSON text. *)
Definition response_json (result : Response) : M value :=
  lift (match body result with
        | Some text => JSON_parse text
        | None => Throw SyntaxError
        end).

Definition failed : value := VObj [("type", VStr "failed")].

Definition success : value :=
  VObj [("type", VStr "success"); ("message", VStr "Tokens stored successfully")].

(** Lines 51-84. *)
Definition exchange (P : Platform) (code verifier : string) : M value :=
  result <- await_fetch P (exchange_call code verifier) ;;
  if negb (ok result) then ret failed
  else
    json <- response_json result ;;
    refresh <- lift (get_prop json "refresh_token") ;;
    access <- lift (get_prop json "access_token") ;;
    t <- Date_now ;;
    expires_in <- lift (get_prop json "expires_in") ;;
    expires <- expiry t expires_in ;;
    storeTokens P refresh access expires ;;
    ret success.

End Auth.

(** ** The application: handlers and [fetchWithTimeout] *)

Module App.
Import Str Js Net Routing Auth.
Local Open Scope js_scope.

Record Request := mkRequest {
  method : string;
  url : URL;
  req_headers : Headers.t;
  req_body : option string
}.

(** [c.json(v, status)] *)
Definition c_json (v : value) (status : Z) : Response :=
  mkResponse status [("content-type", "application/json")] (JSON_stringify v).

(** *** fetchWithTimeout *)

Definition timeout_response : Response :=
  mkResponse 504 [("content-type", "text/plain;charset=UTF-8")] (Some "Request timeout").

(** [await proxy(url, {...options, signal: controller.signal})] while the
    timer set by [setTimeout(() => controller.abort(), timeout)] is
    pending.  [proxy] is called with [c].  When its promise settles
    before [timeout] milliseconds, the timer has not run.  Otherwise the timer callback runs first:
    [controller.abort()] aborts the call and its promise rejects with an
    [AbortError].  The result is what the promise settled to and
    [controller.signal.aborted] at that moment. *)
Definition await_proxy (P : Platform) (c : Call) (timeout : Z)
  : M (Outcome Response * bool) :=
  fun w =>
    let timer_fires :=
      mkRun (Ret (Throw AbortError, true)) (advance timeout w) [EvProxy c; EvAbort] in
    match upstream P c with
    | Responds t res =>
        if t <? timeout then mkRun (Ret (Ret res, false)) (advance t w) [EvProxy c]
        else timer_fires
    | Fails t err =>
        if t <? timeout then mkRun (Ret (Throw err, false)) (advance t w) [EvProxy c]
        else timer_fires
    | Hangs => timer_fires
    end.


(** Lines 114-143: the [try] returns the response, the [catch] answers 504
    when the signal is aborted and throws the error on otherwise. *)
Definition fetchWithTimeout (P : Platform) (c : Call) (timeout : Z) : M Response :=
  settled <- await_proxy P c timeout ;;
  let (result, aborted) := settled in
  match result with
  | Ret res => ret res
  | Throw error =>
      if aborted then ret timeout_response
      else lift (Throw error)
  | Unmodelled => lift Unmodelled
  end.

(** *** /claude-code/proxy/* *)

Definition ANTHROPIC_BETA : string :=
  "oauth-2025-04-20,claude-code-20250219,interleaved-thinking-2025-05-14,fine-grained-tool-streaming-2025-05-14".

Definition unauthenticated : Response :=
  c_json (VObj [("error", VStr "No authentication found. Please authorize first.")]) 401.

Definition refresh_failed : Response :=
  c_json (VObj [("error", VStr "Failed to refresh token. Please re-authorize.")]) 401.

(** The call of lines 51-61. *)
Definition refresh_call (refresh_token : value) : Call :=
  mkCall TOKEN_URL "POST" json_headers
    (JSON_stringify (VObj [("grant_type", VStr "refresh_token");
                           ("refresh_token", refresh_token);
                           ("client_id", VStr CLIENT_ID)])).

(** Line 50: [!auth.access || auth.expires < Date.now()] *)
Definition needs_refresh (auth : value) : M bool :=
  access <- lift (get_prop auth "access") ;;
  if negb (truthy access) then ret true
  else
    expires <- lift (get_prop auth "expires") ;;
    t <- Date_now ;;
    e <- lift_option (to_number expires) ;;
    ret (lt e (Int t)).

(** The header set of the forwarded call, lines 83-99: the sanitized
    inbound headers, then the three updates.  The value of line 97 is built
    by the program, so [headers.set] normalises it; on a token that is not
    [Headers.clean] the platform throws there instead, which is not
    modelled. *)
Definition managed_headers (inbound : Headers.t) (access : value) : Headers.t :=
  let headers := Sanitizer.sanitize inbound Headers.empty in
  let headers :=
    Headers.set "authorization" (Headers.normalize ("Bearer " ++ to_string access))
                headers in
  let headers := Headers.set "anthropic-beta" ANTHROPIC_BETA headers in
  Headers.delete "x-api-key" headers.

(** Lines 79-81. *)
Definition managed_target (u : URL) : string :=
  let targetPath := replace "/claude-code/proxy" "" (pathname u) in
  "https://api.anthropic.com" ++ targetPath ++ search u.

(** The call that the handler forwards when [auth.access] is [access]. *)
Definition managed_call (req : Request) (access : value) : Call :=
  let targetUrl := managed_target (url req) in
  let headers := managed_headers (req_headers req) access in
  mkCall targetUrl (method req) headers (req_body req).

(** The handler from [const url = new URL(c.req.url)] on (lines 79-111),
    with the value of [auth.access] at that point. *)
Definition forward_managed (P : Platform) (req : Request) (access : value) : M Response :=
  res <- fetchWithTimeout P (managed_call req access) 60000 ;;
  ret (mkResponse (status res) (Net.headers res) (body res)).

(** The refresh branch after a success response of the provider (lines
    67-76): store the new tokens, assign [auth.access]; then forward. *)
Definition after_refresh (P : Platform) (req : Request) (auth : value)
           (response : Response) : M Response :=
  json <- response_json response ;;
  refresh <- lift (get_prop json "refresh_token") ;;
  access <- lift (get_prop json "access_token") ;;
  t <- Date_now ;;
  expires_in <- lift (get_prop json "expires_in") ;;
  expires <- expiry t expires_in ;;
  storeTokens P refresh access expires ;;
  auth' <- lift (set_prop auth "access" access) ;;
  access' <- lift (get_prop auth' "access") ;;
  forward_managed P req access'.

(** Lines 43-112. *)
Definition claude_code_proxy (P : Platform) (req : Request) : M Response :=
  auth <- getStoredTokens ;;
  if negb (truthy auth) then ret unauthenticated
  else
    stale <- needs_refresh auth ;;
    if stale then
      refresh_token <- lift (get_prop auth "refresh") ;;
      response <- await_fetch P (refresh_call refresh_token) ;;
      if negb (ok response) then ret refresh_failed
      else after_refresh P req auth response
    else
      access <- lift (get_prop auth "access") ;;
      forward_managed P req access.

(** *** /claude-code/exchange *)

(** Lines 36-40. *)
Definition claude_code_exchange (P : Platform) (code verifier : string) : M Response :=
  result <- exchange P code verifier ;;
  ret (c_json result 200).

(** *** The routing-table middleware *)

(** Lines 228-242. *)
Definition routed_headers (P : Platform) (proxy : ProxyEntry) (inbound : Headers.t)
  : Headers.t :=
  let headers := Headers.set "host" (url_hostname P (target proxy)) Headers.empty in
  Sanitizer.sanitize inbound headers.

(** The call that the middleware forwards for the entry [proxy], lines
    244-254. *)
Definition routed_call (P : Platform) (proxy : ProxyEntry) (req : Request) : Call :=
  let headers := routed_headers P proxy (req_headers req) in
  let targetUrl := targetUrl proxy (url req) in
  mkCall targetUrl (method req) headers (req_body req).

(** Lines 218-263; [None] stands for the call of [next()]. *)
Definition routing_middleware (P : Platform) (table : list ProxyEntry) (req : Request)
  : M (option Response) :=
  match find_proxy table (url req) with
  | Some proxy =>
      res <- fetchWithTimeout P (routed_call P proxy req) 60000 ;;
      ret (Some (mkResponse (status res) (Net.headers res) (body res)))
  | None => ret None
  end.

(** The middleware as the application registers it. *)
Definition middleware (P : Platform) (req : Request) : M (option Response) :=
  routing_middleware P proxies req.

End App.

(** ** [authorize] of claude-code-auth.ts *)

Module Authorize.
Import Str Auth.

(** A character the application/x-www-form-urlencoded serializer leaves as
    it is: an ASCII letter or digit, or one of [*], [-], [.], [_]. *)
Definition unreserved (c : ascii) : bool :=
  let n := nat_of_ascii c in
  (Nat.leb 48 n && Nat.leb n 57) || (Nat.leb 65 n && Nat.leb n 90)
  || (Nat.leb 97 n && Nat.leb n 122)
  || Nat.eqb n 42 || Nat.eqb n 45 || Nat.eqb n 46 || Nat.eqb n 95.

Definition upper_hex (n : nat) : ascii :=
  nth n ["0"; "1"; "2"; "3"; "4"; "5"; "6"; "7"; "8"; "9";
         "A"; "B"; "C"; "D"; "E"; "F"]%char "0"%char.

(** [%XX] for the byte [n]. *)
Definition percent (n : nat) : string :=
  String "%" (String (upper_hex (Nat.div n 16))
                (String (upper_hex (Nat.modulo n 16)) EmptyString)).

(** One code unit in a serialized query: kept, [+] for a space, or the
    percent-encoded bytes of its UTF-8 encoding. *)
Definition encode_unit (c : ascii) : string :=
  let n := nat_of_ascii c in
  if unreserved c then String c EmptyString
  else if Nat.eqb n 32 then "+"
  else if Nat.ltb n 128 then percent n
  else percent (192 + Nat.div n 64) ++ percent (128 + Nat.modulo n 64).

Fixpoint urlencode (s : string) : string :=
  match s with
  | EmptyString => EmptyString
  | String c r => encode_unit c ++ urlencode r
  end.

(** All characters of [s] are unreserved, as in a base64url string. *)
Fixpoint all_unreserved (s : string) : bool :=
  match s with
  | EmptyString => true
  | String c r => unreserved c && all_unreserved r
  end.

(** The list of a [URLSearchParams] object. *)
Definition params := list (string * string).

(** [searchParams.set(name, value)]: the first pair of that name takes the
    value and the others are removed; without one, the pair is appended. *)
Fixpoint params_set (name value : string) (l : params) : params :=
  match l with
  | [] => [(name, value)]
  | (n, v) :: r =>
      if String.eqb n name
      then (n, value) :: filter (fun e => negb (String.eqb (fst e) name)) r
      else (n, v) :: params_set name value r
  end.

(** The application/x-www-form-urlencoded serialization of a list. *)
Definition serialize_params (l : params) : string :=
  String.concat "&" (map (fun e => urlencode (fst e) ++ "=" ++ urlencode (snd e)) l).

(** [url.toString()] for a URL without query or fragment of its own whose
    [searchParams] hold [l]. *)
Definition href (base : string) (l : params) : string :=
  match l with
  | [] => base
  | _ => base ++ "?" ++ serialize_params l
  end.

(** What [generatePKCE()] resolves to. *)
Record PKCE := mkPKCE {
  challenge : string;
  verifier : string
}.

Record AuthData := mkAuthData {
  auth_url : string;
  auth_verifier : string
}.

(** Lines 8-30, from the result [pkce] of [await generatePKCE()] on. *)
Definition authorize (pkce : PKCE) : AuthData :=
  let p := [] in
  let p := params_set "code" "true" p in
  let p := params_set "client_id" CLIENT_ID p in
  let p := params_set "response_type" "code" p in
  let p := params_set "redirect_uri" REDIRECT_URI p in
  let p := params_set "scope" "org:create_api_key user:profile user:inference" p in
  let p := params_set "code_challenge" (challenge pkce) p in
  let p := params_set "code_challenge_method" "S256" p in
  let p := params_set "state" (verifier pkce) p in
  mkAuthData (href "https://claude.ai/oauth/authorize" p) (verifier pkce).

End Authorize.

(** ** The authorize route *)

Module AuthorizeRoute.
Import Js Net App Authorize.

(** The handler of [/claude-code/authorize], lines 22-25 of the
    application, from the result of [generatePKCE()] on. *)
Definition claude_code_authorize (pkce : PKCE) : Response :=
  let authData := authorize pkce in
  c_json (VObj [("url", VStr (auth_url authData));
                ("verifier", VStr (auth_verifier authData))]) 200.

End AuthorizeRoute.

(** ** Sample inputs *)

Module Sample.
Import Js Net Routing Auth App.

(** A success answer of the token endpoint. *)
Definition granted_tokens : value :=
  VObj [("token_type", VStr "Bearer");
        ("access_token", VStr "at-2");
        ("expires_in", VNum (Int 3600));
        ("refresh_token", VStr "rt-2")].

Definition granted : Response :=
  mkResponse 200 json_headers (JSON_stringify granted_tokens).

Definition refused : Response :=
  mkResponse 400 json_headers (Some "{}").

Definition upstream_answer : Response :=
  mkResponse 200 [("content-type", "application/json")] (Some "{}").

(** The provider grants every token call after 5 ms; upstreams answer after
    10 ms. *)
Definition granting : Platform :=
  mkPlatform (fun _ => (5, Ret granted))
             (fun _ => Responds 10 upstream_answer)
             (fun _ => "2025-01-01T00:00:00.000Z")
             (fun _ => "api.groq.com").

(** The provider refuses every token call; upstreams stay silent. *)
Definition refusing : Platform :=
  mkPlatform (fun _ => (5, Ret refused))
             (fun _ => Hangs)
             (fun _ => "2025-01-01T00:00:00.000Z")
             (fun _ => "api.groq.com").

(** Upstreams fail after 10 ms. *)
Definition failing : Platform :=
  mkPlatform (fun _ => (5, Ret refused))
             (fun _ => Fails 10 (NetworkError "connection reset"))
             (fun _ => "2025-01-01T00:00:00.000Z")
             (fun _ => "api.groq.com").

(** No token file; the clock at 1000. *)
Definition fresh_world : World := mkWorld None 1000.

(** A record that expires at 5000, and the token file [storeTokens] writes
    for it. *)
Definition stored_record : value :=
  tokenData (VStr "rt-1") (VStr "at-1") (VNum (Int 5000)) "2025-01-01T00:00:00.000Z".

Definition stored_text : string :=
  match JSON_stringify_2 stored_record with
  | Some text => text
  | None => EmptyString
  end.

(** That token file; the clock at [t]. *)
Definition stored_world (t : Z) : World := mkWorld (Some stored_text) t.

Definition inbound : Headers.t :=
  [("accept", "*/*"); ("authorization", "Bearer mine"); ("cf-ray", "8c1");
   ("content-type", "application/json"); ("host", "proxy.example");
   ("x-api-key", "sk-1"); ("x-forwarded-for", "10.0.0.1")].

Definition managed_request : Request :=
  mkRequest "POST" (mkURL "proxy.example" "/claude-code/proxy/v1/messages" "?beta=true")
            inbound (Some "{}").

(** The call forwarded for [managed_request] with the stored token. *)
Definition forwarded : Call := managed_call managed_request (VStr "at-1").

Definition groq : ProxyEntry := mkProxy "groq" "https://api.groq.com" None.

Definition generativelanguage : ProxyEntry :=
  mkProxy "generativelanguage" "https://generativelanguage.googleapis.com"
          (Some "gooai.chatkit.app").

Definition groq_url : URL := mkURL "proxy.example" "/groq/v1/chat" "?stream=1".

(** The same path, asked of the alternate host name of the first entry. *)
Definition groq_url_on_alternate_host : URL :=
  mkURL "gooai.chatkit.app" "/groq/v1/chat" "".

Definition models_url : URL :=
  mkURL "gooai.chatkit.app" "/x/generativelanguage/models" "?key=1".

(** The body of [granted]. *)
Definition granted_text : string :=
  match JSON_stringify granted_tokens with
  | Some text => text
  | None => EmptyString
  end.

(** The token endpoint settles every call to [answer] after 5 ms; upstreams
    answer after 10 ms. *)
Definition provider (answer : Outcome Response) : Platform :=
  mkPlatform (fun _ => (5, answer))
             (fun _ => Responds 10 upstream_answer)
             (fun _ => "2025-01-01T00:00:00.000Z")
             (fun _ => "api.groq.com").




(** Success answers whose body is not JSON, and is the JSON text [null]. *)
Definition garbled : Response := mkResponse 200 json_headers (Some "oops").

Definition null_answer : Response := mkResponse 200 json_headers (Some "null").

(** A token file with an access token and nothing else. *)
Definition record_without_expiry : value := VObj [("access", VStr "at-1")].

Definition text_without_expiry : string :=
  match JSON_stringify_2 record_without_expiry with
  | Some text => text
  | None => EmptyString
  end.

(** What a [Headers] object with two [set-cookie] values iterates over. *)
Definition inbound_with_two_cookies : Headers.t :=
  [("accept", "*/*"); ("set-cookie", "a=1"); ("set-cookie", "b=2")].

(** A record whose access token ends in a space, and its token file. *)
Definition record_with_trailing_space : value :=
  tokenData (VStr "rt-1") (VStr "at-1 ") (VNum (Int 5000)) "2025-01-01T00:00:00.000Z".

Definition text_with_trailing_space : string :=
  match JSON_stringify_2 record_with_trailing_space with
  | Some text => text
  | None => EmptyString
  end.

(** Entries as a list with repeated names has them. *)
Definition repeated_inbound : Headers.t :=
  [("Set-Cookie", "a=1"); ("CF-Ray", "8c1"); ("set-cookie", "b=2");
   ("Host", "proxy.example")].

Definition groq_request : Request :=
  mkRequest "POST" groq_url inbound (Some "{}").

Definition bare_segment_request : Request :=
  mkRequest "GET" (mkURL "proxy.example" "/groq" "") inbound None.

Definition bare_openrouter_api_request : Request :=
  mkRequest "GET" (mkURL "proxy.example" "/openrouter/api" "?x=1") inbound None.

Definition alternate_models_url : URL :=
  mkURL "gooai.chatkit.app" "/generativelanguage/v1beta/models" "?key=1".

Definition pkce : Authorize.PKCE :=
  Authorize.mkPKCE "E9Melhoa2OwvFrEMTJguCHaoeK1t8URWbuGJSstw-cM"
    "dBjftJeZ4CVP-mB92K27uhbUJU1p1r_wW1gFWFOEjXk".

(** A success answer without [expires_in]. *)
Definition granted_without_expiry : value :=
  VObj [("access_token", VStr "at-4"); ("refresh_token", VStr "rt-4")].

Definition granted_without_expiry_text : string :=
  match JSON_stringify granted_without_expiry with
  | Some text => text
  | None => EmptyString
  end.

Definition without_expiry : Response :=
  mkResponse 200 json_headers (Some granted_without_expiry_text).

End Sample.

(** * Properties *)

(** ** Strings *)

Section StringFacts.
Import Str.

Lemma strip_prefix_app (p rest : string) : strip_prefix p (p ++ rest) = Some rest.
Proof.
  induction p as [|a p IH]; simpl; [reflexivity|].
  rewrite Ascii.eqb_refl. exact IH.
Qed.

Lemma strip_prefix_some (p s rest : string) :
  strip_prefix p s = Some rest -> s = p ++ rest.
Proof.
  revert s; induction p as [|a p IH]; intros s H; simpl in *.
  - now inversion H.
  - destruct s as [|b s]; [discriminate|].
    destruct (Ascii.eqb a b) eqn:E; [|discriminate].
    apply Ascii.eqb_eq in E; subst b. f_equal. now apply IH.
Qed.

Lemma strip_prefix_startsWith (p s : string) :
  startsWith s p = true <-> exists rest, strip_prefix p s = Some rest.
Proof.
  unfold startsWith. revert s; induction p as [|a p IH]; intros s.
  - destruct s; simpl; split; eauto.
  - destruct s as [|b s]; simpl; [split; [discriminate | intros [? ?]; discriminate]|].
    destruct (ascii_dec a b) as [->|N].
    + rewrite Ascii.eqb_refl. apply IH.
    + assert (E : Ascii.eqb a b = false) by now apply Ascii.eqb_neq.
      rewrite E. split; [discriminate | intros [? ?]; discriminate].
Qed.

Lemma append_assoc (a b c : string) : (a ++ b) ++ c = a ++ (b ++ c).
Proof. induction a; simpl; congruence. Qed.

Lemma length_app (a b : string) :
  String.length (a ++ b) = (String.length a + String.length b)%nat.
Proof. induction a; simpl; congruence. Qed.

Lemma split_without_separator (sep : ascii) (s : string) :
  occurs sep s = false -> split sep s = [s].
Proof.
  induction s as [|c s IH]; intros H; [reflexivity|].
  simpl in *. apply orb_false_iff in H as [Hc Hs].
  rewrite Hc, (IH Hs). reflexivity.
Qed.

End StringFacts.

(** ** Headers *)

Section HeadersFacts.
Import Str.

Lemma same_name_true (a b : string) :
  Headers.same_name a b = true <-> toLowerCase a = toLowerCase b.
Proof. apply String.eqb_eq. Qed.

Lemma same_name_false (a b : string) :
  Headers.same_name a b = false <-> toLowerCase a <> toLowerCase b.
Proof. apply String.eqb_neq. Qed.

Lemma same_name_refl (a : string) : Headers.same_name a a = true.
Proof. now apply same_name_true. Qed.

(** A name that [m] equals but [n] does not is not [n]. *)
Lemma same_name_transfer (k m n : string) :
  Headers.same_name k m = true -> Headers.same_name m n = false ->
  Headers.same_name k n = false.
Proof.
  rewrite same_name_true, !same_name_false. congruence.
Qed.

Lemma get_named (n : string) (h : Headers.t) :
  Headers.get n h =
  match map snd (Headers.named n h) with
  | [] => None
  | vs => Some (String.concat ", " vs)
  end.
Proof. reflexivity. Qed.

Lemma named_delete_same (n : string) (h : Headers.t) :
  Headers.named n (Headers.delete n h) = [].
Proof.
  unfold Headers.named, Headers.delete. induction h as [|[k v] h IH]; simpl; [reflexivity|].
  destruct (Headers.same_name k n) eqn:E; simpl; [exact IH|].
  now rewrite E.
Qed.

Lemma named_delete_other (m n : string) (h : Headers.t) :
  Headers.same_name m n = false ->
  Headers.named n (Headers.delete m h) = Headers.named n h.
Proof.
  intros D. unfold Headers.named, Headers.delete.
  induction h as [|[k v] h IH]; simpl; [reflexivity|].
  destruct (Headers.same_name k m) eqn:E; simpl.
  - rewrite (same_name_transfer k m n E D). exact IH.
  - now rewrite IH.
Qed.

Lemma named_set_same (n v : string) (h : Headers.t) :
  exists k, Headers.named n (Headers.set n v h) = [(k, v)].
Proof.
  induction h as [|[k x] h [k' IH]]; simpl.
  - exists n. unfold Headers.named; simpl. now rewrite same_name_refl.
  - destruct (Headers.same_name k n) eqn:E.
    + exists k. unfold Headers.named; simpl. rewrite E.
      f_equal. apply named_delete_same.
    + exists k'. unfold Headers.named in *; simpl. now rewrite E.
Qed.

Lemma named_set_other (m n v : string) (h : Headers.t) :
  Headers.same_name m n = false ->
  Headers.named n (Headers.set m v h) = Headers.named n h.
Proof.
  intros D. induction h as [|[k x] h IH]; simpl.
  - unfold Headers.named; simpl. now rewrite D.
  - destruct (Headers.same_name k m) eqn:E.
    + unfold Headers.named; simpl.
      rewrite (same_name_transfer k m n E D).
      now apply named_delete_other.
    + unfold Headers.named in *; simpl. now rewrite IH.
Qed.

Lemma get_set_same (n v : string) (h : Headers.t) :
  Headers.get n (Headers.set n v h) = Some v.
Proof.
  rewrite get_named. destruct (named_set_same n v h) as [k ->]. reflexivity.
Qed.

Lemma get_set_other (m n v : string) (h : Headers.t) :
  Headers.same_name m n = false ->
  Headers.get n (Headers.set m v h) = Headers.get n h.
Proof. intros D. now rewrite !get_named, named_set_other. Qed.

Lemma get_delete_same (n : string) (h : Headers.t) :
  Headers.get n (Headers.delete n h) = None.
Proof. now rewrite get_named, named_delete_same. Qed.

Lemma get_delete_other (m n : string) (h : Headers.t) :
  Headers.same_name m n = false ->
  Headers.get n (Headers.delete m h) = Headers.get n h.
Proof. intros D. now rewrite !get_named, named_delete_other. Qed.

Lemma fresh_cons (n k v : string) (h : Headers.t) :
  Headers.fresh n ((k, v) :: h) <-> Headers.same_name k n = false /\ Headers.fresh n h.
Proof.
  unfold Headers.fresh; simpl. rewrite same_name_false. intuition congruence.
Qed.

Lemma set_fresh (n v : string) (h : Headers.t) :
  Headers.fresh n h -> Headers.set n v h = (h ++ [(n, v)])%list.
Proof.
  induction h as [|[k x] h IH]; intros F; simpl; [reflexivity|].
  apply fresh_cons in F as [E F]. rewrite E. f_equal. now apply IH.
Qed.

Lemma named_fresh (n : string) (h : Headers.t) : Headers.fresh n h -> Headers.named n h = [].
Proof.
  induction h as [|[k x] h IH]; intros F; [reflexivity|].
  apply fresh_cons in F as [E F]. unfold Headers.named in *; simpl. rewrite E. now apply IH.
Qed.

Lemma get_fresh (n : string) (h : Headers.t) : Headers.fresh n h -> Headers.get n h = None.
Proof. intros F. now rewrite get_named, named_fresh. Qed.

(** In a header list without repeated names, [get] finds the value of each
    entry. *)
Lemma get_entry (k v : string) (h : Headers.t) :
  NoDup (Headers.names h) -> In (k, v) h -> Headers.get k h = Some v.
Proof.
  intros N I. rewrite get_named.
  enough (Headers.named k h = [(k, v)]) as -> by reflexivity.
  induction h as [|[k' v'] h IH]; [contradiction|].
  simpl in N. inversion N as [|? ? Nin N']; subst.
  destruct I as [E|I].
  - inversion E; subst. unfold Headers.named; simpl. rewrite same_name_refl.
    f_equal. now apply named_fresh.
  - unfold Headers.named in *; simpl.
    destruct (Headers.same_name k' k) eqn:E.
    + exfalso. apply Nin. apply same_name_true in E. rewrite E.
      unfold Headers.names. now apply (in_map (fun e => toLowerCase (fst e)) h (k, v)).
    + now apply IH.
Qed.

End HeadersFacts.

(** ** The header sanitizer *)

Section SanitizerFacts.
Import Str Sanitizer.

Lemma copy_header_dropped (h : Headers.t) (k v : string) :
  copy_header h (k, v) =
  if dropped (toLowerCase k) then h else Headers.set k v h.
Proof.
  unfold copy_header, dropped.
  destruct (startsWith (toLowerCase k) "cf-"),
           (startsWith (toLowerCase k) "x-forwarded-"),
           (startsWith (toLowerCase k) "cdn-"),
           (String.eqb (toLowerCase k) "x-real-ip"),
           (String.eqb (toLowerCase k) "host"); reflexivity.
Qed.

Lemma names_app (a b : Headers.t) :
  Headers.names (a ++ b)%list = (Headers.names a ++ Headers.names b)%list.
Proof. apply map_app. Qed.

(** The loop appends the kept headers in order, as long as no name
    repeats. *)
Lemma sanitized_spec_cons (k v : string) (inbound : Headers.t) :
  sanitized_spec ((k, v) :: inbound) =
  if dropped (toLowerCase k) then sanitized_spec inbound
  else (k, v) :: sanitized_spec inbound.
Proof.
  unfold sanitized_spec. cbn [filter fst]. now destruct (dropped (toLowerCase k)).
Qed.

Lemma sanitize_cons (e : string * string) (inbound h : Headers.t) :
  sanitize (e :: inbound) h = sanitize inbound (copy_header h e).
Proof. reflexivity. Qed.

Lemma sanitize_appends (inbound h : Headers.t) :
  NoDup (Headers.names h ++ Headers.names (sanitized_spec inbound))%list ->
  sanitize inbound h = (h ++ sanitized_spec inbound)%list.
Proof.
  revert h; induction inbound as [|[k v] inbound IH]; intros h N.
  - cbn. now rewrite app_nil_r.
  - rewrite sanitize_cons, copy_header_dropped.
    rewrite sanitized_spec_cons in N |- *.
    destruct (dropped (toLowerCase k)).
    + now apply IH.
    + cbn [Headers.names map fst] in N.
      rewrite set_fresh.
      * rewrite IH; [now rewrite <- app_assoc|].
        rewrite names_app. cbn [Headers.names map fst]. now rewrite <- app_assoc.
      * unfold Headers.fresh. apply NoDup_remove_2 in N.
        intros I; apply N. apply in_or_app; now left.
Qed.

Lemma NoDup_names_filter (f : string * string -> bool) (h : Headers.t) :
  NoDup (Headers.names h) -> NoDup (Headers.names (filter f h)).
Proof.
  induction h as [|e h IH]; intros N; simpl; [constructor|].
  inversion N as [|? ? Nin N']; subst.
  destruct (f e); simpl; [|now apply IH].
  constructor; [|now apply IH].
  intros I; apply Nin. unfold Headers.names in *.
  apply in_map_iff in I as [e' [E I]]. apply filter_In in I as [I _].
  rewrite <- E. now apply (in_map (fun e => toLowerCase (fst e))).
Qed.

Lemma kept_not_dropped (inbound : Headers.t) (n : string) :
  In (toLowerCase n) (Headers.names (sanitized_spec inbound)) ->
  dropped (toLowerCase n) = false.
Proof.
  unfold Headers.names, sanitized_spec. intros I.
  apply in_map_iff in I as [e [E I]]. apply filter_In in I as [_ D].
  rewrite <- E. now apply negb_true_iff.
Qed.

Lemma sanitize_is_spec (inbound : Headers.t) :
  NoDup (Headers.names inbound) ->
  sanitize inbound Headers.empty = sanitized_spec inbound.
Proof.
  intros N. rewrite sanitize_appends; [reflexivity|].
  simpl. now apply NoDup_names_filter.
Qed.

Lemma sanitize_after_host (inbound : Headers.t) (value : string) :
  NoDup (Headers.names inbound) ->
  sanitize inbound (Headers.set "host" value Headers.empty)
  = ("host", value) :: sanitized_spec inbound.
Proof.
  intros N. rewrite sanitize_appends; [reflexivity|].
  simpl. constructor; [|now apply NoDup_names_filter].
  intros I. apply (kept_not_dropped inbound "host") in I. discriminate.
Qed.

End SanitizerFacts.

(** ** Path rewriting and the routing table *)

Section ReplaceFacts.
Import Str.

Lemma replace_at_start (pat rep rest : string) :
  replace pat rep (pat ++ rest) = rep ++ rest.
Proof.
  destruct (pat ++ rest) eqn:E; simpl;
    rewrite <- E, strip_prefix_app; reflexivity.
Qed.

Lemma replace_step (pat rep : string) (c : ascii) (s : string) :
  strip_prefix pat (String c s) = None ->
  replace pat rep (String c s) = String c (replace pat rep s).
Proof. intros H. simpl replace. now rewrite H. Qed.

Lemma replace_first_occurrence (pat rep s before after : string) :
  first_occurrence pat s before after ->
  replace pat rep s = before ++ rep ++ after.
Proof.
  revert s; induction before as [|c before IH]; intros s [E Min]; subst s.
  - exact (replace_at_start pat rep after).
  - change (String c before ++ pat ++ after) with (String c (before ++ pat ++ after)) in *.
    rewrite replace_step.
    + simpl. f_equal. apply IH. split; [reflexivity|].
      intros b a Eb.
      specialize (Min (String c b) a). simpl in Min.
      rewrite Eb in Min. specialize (Min eq_refl). lia.
    + destruct (strip_prefix pat (String c (before ++ pat ++ after))) as [rest|] eqn:S;
        [|reflexivity].
      apply strip_prefix_some in S.
      specialize (Min EmptyString rest S). simpl in Min. lia.
Qed.

Lemma replace_absent (pat rep s : string) :
  absent pat s -> replace pat rep s = s.
Proof.
  induction s as [|c s IH]; intros A.
  - simpl. destruct (strip_prefix pat "") as [rest|] eqn:S; [|reflexivity].
    apply strip_prefix_some in S. exfalso. now apply (A EmptyString rest).
  - rewrite replace_step.
    + f_equal. apply IH. intros b a E. apply (A (String c b) a). simpl. now rewrite E.
    + destruct (strip_prefix pat (String c s)) as [rest|] eqn:S; [|reflexivity].
      apply strip_prefix_some in S. exfalso. now apply (A EmptyString rest).
Qed.

End ReplaceFacts.

Section RoutingClaims.
Import Str Routing.

Lemma find_proxy_matches (table : list ProxyEntry) (u : URL) (p : ProxyEntry) :
  find_proxy table u = Some p -> In p table /\ matches u p = true.
Proof. apply find_some. Qed.

(** C4, as the code has it.  When the entry that routing selects, the first
    one that matches by path prefix or by alternate host name, is one whose
    [/{pathSegment}/] the path begins with, the target is the entry's base
    URL, then the path with that leading part replaced by [/], then the
    query string unchanged.  With the table of the application and a host
    name other than [gooai.chatkit.app], the path [/groq/v1/chat] resolves
    to [https://api.groq.com/v1/chat] followed by the query string. *)
Theorem selected_prefix_entry_strips_segment :
  forall (table : list ProxyEntry) (u : URL) (p : ProxyEntry) (rest host query : string),
    find_proxy table u = Some p ->
    pathname u = segment_pattern p ++ rest ->
    host <> "gooai.chatkit.app" ->
    resolve table u = Some (target p ++ ("/" ++ rest) ++ search u)
    /\ resolve proxies (mkURL host "/groq/v1/chat" query)
       = Some ("https://api.groq.com/v1/chat" ++ query).
Proof.
  intros table u p rest host query F E H. split.
  - unfold resolve, targetUrl. rewrite F, E, replace_at_start. reflexivity.
  - unfold resolve, find_proxy, proxies, matches. cbn.
    destruct (String.eqb host "gooai.chatkit.app") eqn:Q.
    + apply String.eqb_eq in Q. contradiction.
    + reflexivity.
Qed.

(** C10.  When routing selects an entry although the path does not begin
    with its [/{pathSegment}/], the entry was matched by its alternate host
    name, and the path rewrite replaces the leftmost occurrence of
    [/{pathSegment}/], wherever it is in the path, by [/]; a path without an
    occurrence is forwarded as it is. *)
Theorem host_matched_entry_rewrites_first_occurrence :
  forall (table : list ProxyEntry) (u : URL) (p : ProxyEntry),
    find_proxy table u = Some p ->
    startsWith (pathname u) (segment_pattern p) = false ->
    orHostname p = Some (hostname u)
    /\ (forall before after,
          first_occurrence (segment_pattern p) (pathname u) before after ->
          resolve table u = Some (target p ++ (before ++ "/" ++ after) ++ search u))
    /\ (absent (segment_pattern p) (pathname u) ->
        resolve table u = Some (target p ++ pathname u ++ search u)).
Proof.
  intros table u p F NS.
  destruct (find_proxy_matches table u p F) as [_ Mt].
  unfold matches in Mt. rewrite NS in Mt. simpl in Mt.
  split; [|split].
  - destruct (orHostname p) as [h|]; [|discriminate].
    apply andb_true_iff in Mt as [_ Mt]. apply String.eqb_eq in Mt. now subst.
  - intros before after FO. unfold resolve, targetUrl. rewrite F.
    now rewrite (replace_first_occurrence _ _ _ before after FO).
  - intros A. unfold resolve, targetUrl. rewrite F.
    now rewrite (replace_absent _ _ _ A).
Qed.

End RoutingClaims.

(** ** The JSON codec: what [JSON.stringify] writes, [JSON.parse] reads back *)

Section CodecFacts.
Import Str Js.

Lemma parse_chars_escape_char (c : ascii) (tail : string) :
  parse_chars (escape_char c ++ tail) = push c (parse_chars tail).
Proof.
  destruct c as [b0 b1 b2 b3 b4 b5 b6 b7].
  destruct b0, b1, b2, b3, b4, b5, b6, b7; reflexivity.
Qed.

Lemma parse_chars_escape (s rest : string) :
  parse_chars (escape s ++ String dquote rest) = Ret (s, rest).
Proof.
  induction s as [|c s IH]; [reflexivity|].
  change (escape (String c s)) with (escape_char c ++ escape s).
  rewrite append_assoc, parse_chars_escape_char, IH. reflexivity.
Qed.

Lemma take_digits_uint (u : uint) (rest : string) :
  ends_number rest = true ->
  take_digits (NilEmpty.string_of_uint u ++ rest) = (u, rest).
Proof.
  intros E. induction u; cbn [NilEmpty.string_of_uint append];
    try (cbn [take_digits]; simpl digit_of; rewrite IHu; reflexivity).
  destruct rest as [|c r]; [reflexivity|].
  cbn [take_digits]. unfold ends_number in E.
  destruct (digit_of c); [discriminate | reflexivity].
Qed.

Lemma to_uint_head (p : positive) :
  match Pos.to_uint p with
  | Nil | D0 _ => False
  | _ => True
  end.
Proof.
  pose proof (DecimalPos.Unsigned.to_uint_nonzero p) as NZ.
  pose proof (DecimalPos.Unsigned.to_of (Pos.to_uint p)) as TO.
  rewrite DecimalPos.Unsigned.of_to in TO. simpl N.to_uint in TO.
  destruct (Pos.to_uint p) as [|u|u|u|u|u|u|u|u|u|u] eqn:E; try exact I.
  - now apply (DecimalPos.Unsigned.to_uint_nonnil p).
  - rewrite DecimalFacts.unorm_D0 in TO. unfold unorm in TO.
    destruct (nzhead u) eqn:H; try (now apply (DecimalFacts.nzhead_nonzero u u); rewrite H, <- TO).
    apply NZ. now rewrite TO.
Qed.

Lemma ends_number_no_fraction (rest : string) :
  ends_number rest = true -> starts_fraction rest = false.
Proof.
  destruct rest as [|c r]; [reflexivity|]. unfold ends_number.
  destruct (digit_of c); [discriminate|]. now rewrite negb_true_iff.
Qed.

Lemma Z_of_to_uint (p : positive) : Z.of_uint (Pos.to_uint p) = Zpos p.
Proof.
  unfold Z.of_uint. now rewrite DecimalPos.Unsigned.of_to.
Qed.

(** The digits of a positive number, read back. *)
Lemma parse_number_pos (negative : bool) (p : positive) (rest : string) :
  ends_number rest = true ->
  let text := NilZero.string_of_uint (Pos.to_uint p) ++ rest in
  take_digits text = (Pos.to_uint p, rest)
  /\ match text with
     | String c _ => Ascii.eqb c "-" = false
     | EmptyString => False
     end.
Proof.
  intros E text. subst text.
  pose proof (to_uint_head p) as H.
  destruct (Pos.to_uint p) as [|u|u|u|u|u|u|u|u|u|u] eqn:Eu; try contradiction;
    (split; [apply (take_digits_uint _ rest E) | reflexivity]).
Qed.

Lemma parse_number_Z (n : Z) (rest : string) :
  ends_number rest = true ->
  parse_number (string_of_Z n ++ rest) = Ret (VNum (Int n), rest).
Proof.
  intros E. pose proof (ends_number_no_fraction rest E) as F.
  unfold string_of_Z. destruct n as [|p|p]; cbn [Z.to_int NilZero.string_of_int].
  - pose proof (take_digits_uint Nil rest E) as T.
    change (NilEmpty.string_of_uint Nil ++ rest) with rest in T.
    change (parse_number (String "0" rest) = Ret (VNum (Int 0), rest)).
    unfold parse_number. change (Ascii.eqb "0" "-") with false. cbv iota.
    cbn [take_digits]. change (digit_of "0") with (Some D0). cbv iota. rewrite T, F. reflexivity.
  - destruct (parse_number_pos false p rest E) as [T H].
    pose proof (to_uint_head p) as Hd.
    unfold parse_number.
    destruct (NilZero.string_of_uint (Pos.to_uint p) ++ rest) as [|c r] eqn:Etext; [contradiction|].
    rewrite H, T.
    destruct (Pos.to_uint p) as [|u|u|u|u|u|u|u|u|u|u] eqn:Eu; try contradiction;
      rewrite F, <- Eu, Z_of_to_uint; reflexivity.
  - destruct (parse_number_pos true p rest E) as [T H].
    pose proof (to_uint_head p) as Hd.
    unfold parse_number.
    change (String "-" (NilZero.string_of_uint (Pos.to_uint p)) ++ rest)
      with (String "-" (NilZero.string_of_uint (Pos.to_uint p) ++ rest)).
    cbn [Ascii.eqb Bool.eqb]. change (Ascii.eqb "-" "-") with true. cbv iota.
    rewrite T.
    destruct (Pos.to_uint p) as [|u|u|u|u|u|u|u|u|u|u] eqn:Eu; try contradiction;
      rewrite F, <- Eu, Z_of_to_uint; reflexivity.
Qed.

Lemma padding_nil : padding "".
Proof. intros x. reflexivity. Qed.

Lemma padding_newline : padding newline.
Proof. intros x. reflexivity. Qed.

Lemma padding_indent : padding (newline ++ "  ").
Proof. intros x. reflexivity. Qed.

Lemma quote_app (s tail : string) :
  quote s ++ tail = String dquote (escape s ++ String dquote tail).
Proof. unfold quote. cbn [append]. now rewrite append_assoc. Qed.

Lemma parse_value_string (f : nat) (pad s tail : string) :
  padding pad ->
  parse_value (S f) (pad ++ quote s ++ tail) = Ret (VStr s, tail).
Proof.
  intros Hp. cbn [parse_value]. rewrite Hp, quote_app.
  change (skip_ws (String dquote ?x)) with (String dquote x).
  cbv iota. 
  change (Ascii.eqb dquote "{") with false.
  change (Ascii.eqb dquote "[") with false.
  change (Ascii.eqb dquote dquote) with true.
  cbv iota. rewrite parse_chars_escape. reflexivity.
Qed.

Lemma number_head (n : Z) (tail : string) :
  exists c r, string_of_Z n ++ tail = String c r
              /\ In c ["-"; "0"; "1"; "2"; "3"; "4"; "5"; "6"; "7"; "8"; "9"]%char.
Proof.
  unfold string_of_Z. destruct n as [|p|p]; cbn [Z.to_int NilZero.string_of_int].
  - exists "0"%char, tail. split; [reflexivity | simpl; tauto].
  - pose proof (to_uint_head p) as H.
    destruct (Pos.to_uint p) as [|u|u|u|u|u|u|u|u|u|u]; try contradiction;
      eexists; eexists; (split; [reflexivity | simpl; tauto]).
  - eexists; eexists; (split; [reflexivity | simpl; tauto]).
Qed.

Lemma parse_value_number_head (f : nat) (c : ascii) (r : string) :
  In c ["-"; "0"; "1"; "2"; "3"; "4"; "5"; "6"; "7"; "8"; "9"]%char ->
  parse_value (S f) (String c r) = parse_number (String c r)
  /\ skip_ws (String c r) = String c r.
Proof.
  intros I. repeat (destruct I as [<-|I]; [split; reflexivity|]). contradiction.
Qed.

Lemma parse_value_number (f : nat) (pad : string) (n : Z) (tail : string) :
  padding pad -> ends_number tail = true ->
  parse_value (S f) (pad ++ string_of_Z n ++ tail) = Ret (VNum (Int n), tail).
Proof.
  intros Hp E.
  destruct (number_head n tail) as [c [r [Et I]]].
  destruct (parse_value_number_head f c r I) as [Hv Hs].
  assert (Hpad : parse_value (S f) (pad ++ String c r) = parse_value (S f) (String c r)).
  { cbn [parse_value]. now rewrite Hp, Hs. }
  rewrite Et, Hpad, Hv, <- Et. now apply parse_number_Z.
Qed.

Lemma parse_value_scalar (f : nat) (pad : string) (v : value) (tail : string) :
  padding pad -> scalar v = true -> ends_number tail = true ->
  parse_value (S f) (pad ++ scalar_text v ++ tail) = Ret (v, tail).
Proof.
  intros Hp Sc E. destruct v as [| |b|[n|]|s|items|members]; try discriminate.
  - now apply parse_value_number.
  - now apply parse_value_string.
Qed.

Lemma parse_members_key (f : nat) (lead k after : string) (acc : list (string * value)) :
  padding lead ->
  parse_members (S f) (lead ++ quote k ++ String ":" after) acc =
  obind (parse_value f after) (fun member =>
    let acc' := define k (fst member) acc in
    match skip_ws (snd member) with
    | EmptyString => Throw SyntaxError
    | String c2 r2 =>
        if Ascii.eqb c2 "," then parse_members f r2 acc'
        else if Ascii.eqb c2 "}" then Ret (VObj acc', r2)
        else Throw SyntaxError
    end).
Proof.
  intros Hp. cbn [parse_members]. rewrite Hp, quote_app.
  change (skip_ws (String dquote ?x)) with (String dquote x).
  cbv iota. change (Ascii.eqb dquote dquote) with true. cbv iota.
  rewrite parse_chars_escape. reflexivity.
Qed.

Lemma parse_members_more (f : nat) (lead k after : string) (v : value)
      (rest : string) (acc : list (string * value)) :
  padding lead ->
  parse_value f after = Ret (v, String "," rest) ->
  parse_members (S f) (lead ++ quote k ++ String ":" after) acc
  = parse_members f rest (define k v acc).
Proof.
  intros Hp Hv. rewrite parse_members_key by exact Hp. rewrite Hv. reflexivity.
Qed.

Lemma parse_members_last (f : nat) (lead k after : string) (v : value)
      (tailpad rest : string) (acc : list (string * value)) :
  padding lead -> padding tailpad ->
  parse_value f after = Ret (v, tailpad ++ String "}" rest) ->
  parse_members (S f) (lead ++ quote k ++ String ":" after) acc
  = Ret (VObj (define k v acc), rest).
Proof.
  intros Hp Ht Hv. rewrite parse_members_key by exact Hp. rewrite Hv.
  cbn [obind fst snd]. rewrite Ht. reflexivity.
Qed.

Section FlatObjects.

Variables gap pad tailpad : string.
Hypothesis pad_padding : padding pad.
Hypothesis tailpad_padding : padding tailpad.
Hypothesis tailpad_ends : forall rest, ends_number (tailpad ++ String "}" rest) = true.

Lemma colon_padding : padding (if String.eqb gap "" then "" else " ").
Proof. destruct (String.eqb gap ""); intros x; reflexivity. Qed.

Lemma part_app (kv : string * value) (tail : string) :
  scalar_member gap kv ++ tail
  = quote (fst kv)
      ++ String ":" ((if String.eqb gap "" then "" else " ")
                       ++ scalar_text (snd kv) ++ tail).
Proof.
  unfold scalar_member, member_text. rewrite !append_assoc. reflexivity.
Qed.

Lemma parse_members_flat (members : list (string * value)) :
  members <> [] ->
  forallb (fun kv => scalar (snd kv)) members = true ->
  forall (f : nat) (lead rest : string) (acc : list (string * value)),
    padding lead ->
    parse_members (List.length members + S f)
      (lead ++ String.concat (String "," pad) (map (scalar_member gap) members)
            ++ tailpad ++ String "}" rest) acc
    = Ret (VObj (object_of members acc), rest).
Proof.
  induction members as [|[k v] members IH]; intros NE Sc f lead rest acc Hl;
    [contradiction|].
  cbn [forallb snd] in Sc. apply andb_true_iff in Sc as [Sv Sc].
  destruct members as [|m members].
  - cbn [map String.concat List.length Nat.add].
    rewrite part_app. cbn [fst snd].
    apply parse_members_last with (tailpad := tailpad);
      [exact Hl | exact tailpad_padding |].
    apply parse_value_scalar; [apply colon_padding | exact Sv | apply tailpad_ends].
  - change (String.concat (String "," pad) (map (scalar_member gap) ((k, v) :: m :: members)))
      with (scalar_member gap (k, v) ++ String "," pad ++ String.concat (String "," pad) (map (scalar_member gap) (m :: members))).
    rewrite append_assoc, part_app. cbn [fst snd].
    change (List.length ((k, v) :: m :: members) + S f)%nat
      with (S (List.length (m :: members) + S f)).
    rewrite (parse_members_more _ lead k _ v
               (pad ++ String.concat (String "," pad) (map (scalar_member gap) (m :: members))
                    ++ tailpad ++ String "}" rest)).
    + apply IH; [discriminate | exact Sc | exact pad_padding].
    + exact Hl.
    + change (List.length (m :: members) + S f)%nat
        with (S (List.length members + S f)).
      rewrite !append_assoc. cbn [append].
      apply parse_value_scalar; [apply colon_padding | exact Sv | reflexivity].
Qed.

Lemma parts_start_quoted (members : list (string * value)) (tail : string) :
  members <> [] ->
  exists y, String.concat (String "," pad) (map (scalar_member gap) members) ++ tail = String dquote y.
Proof.
  destruct members as [|[k v] [|m members]]; intros NE; [contradiction| |].
  - cbn [map String.concat]. rewrite part_app, quote_app. eexists; reflexivity.
  - change (String.concat (String "," pad) (map (scalar_member gap) ((k, v) :: m :: members)))
      with (scalar_member gap (k, v) ++ String "," pad
              ++ String.concat (String "," pad) (map (scalar_member gap) (m :: members))).
    rewrite append_assoc, part_app, quote_app. eexists; reflexivity.
Qed.

Lemma parts_length (members : list (string * value)) :
  (List.length members
   <= String.length (String.concat (String "," pad) (map (scalar_member gap) members)))%nat.
Proof.
  induction members as [|[k v] [|m members] IH]; [apply Nat.le_0_l | |].
  - cbn [map String.concat]. unfold scalar_member, member_text, quote; simpl. lia.
  - change (String.concat (String "," pad) (map (scalar_member gap) ((k, v) :: m :: members)))
      with (scalar_member gap (k, v) ++ String "," pad
              ++ String.concat (String "," pad) (map (scalar_member gap) (m :: members))).
    rewrite !length_app. unfold scalar_member at 1, member_text, quote.
    simpl String.length at 1. simpl List.length in *. lia.
Qed.

(** The text of an object with scalar members, parsed. *)
Lemma parse_object_flat (members : list (string * value)) (f : nat) (rest : string) :
  members <> [] ->
  forallb (fun kv => scalar (snd kv)) members = true ->
  parse_value (S (List.length members + S f))
    (String "{" (pad ++ String.concat (String "," pad) (map (scalar_member gap) members)
                     ++ tailpad ++ String "}" rest))
  = Ret (VObj (object_of members []), rest).
Proof.
  intros NE Sc.
  destruct (parts_start_quoted members (tailpad ++ String "}" rest) NE) as [y Ey].
  cbn [parse_value].
  change (skip_ws (String "{" ?x)) with (String "{" x). cbv iota.
  change (Ascii.eqb "{" "{") with true. cbv iota.
  rewrite pad_padding, Ey.
  change (skip_ws (String dquote y)) with (String dquote y). cbv iota.
  change (Ascii.eqb dquote "}") with false. cbv iota.
  rewrite <- Ey.
  apply (parse_members_flat members NE Sc f "" rest []). intros x; reflexivity.
Qed.

Lemma JSON_parse_flat (members : list (string * value)) :
  members <> [] ->
  forallb (fun kv => scalar (snd kv)) members = true ->
  JSON_parse (String "{" (pad ++ String.concat (String "," pad) (map (scalar_member gap) members)
                              ++ tailpad ++ String "}" ""))
  = Ret (VObj (object_of members [])).
Proof.
  intros NE Sc. unfold JSON_parse.
  set (text := String "{" _).
  assert (L : exists f, (2 * String.length text = List.length members + S f)%nat).
  { exists (2 * String.length text - List.length members - 1)%nat.
    pose proof (parts_length members) as PL.
    subst text. cbn [String.length]. rewrite !length_app.
    cbn [String.length] in *. lia. }
  destruct L as [f ->]. subst text.
  rewrite (parse_object_flat members f "" NE Sc). reflexivity.
Qed.

End FlatObjects.

Lemma serialize_scalar (gap indent : string) (v : value) :
  scalar v = true -> serialize gap indent v = Some (scalar_text v).
Proof. destruct v as [| |b|[n|]|s|items|members]; try discriminate; reflexivity. Qed.

Lemma serialize_flat (gap indent : string) (members : list (string * value)) :
  forallb (fun kv => scalar (snd kv)) members = true ->
  serialize gap indent (VObj members)
  = Some (wrap "{" "}" gap indent (map (scalar_member gap) members)).
Proof.
  intros Sc. cbn [serialize]. do 2 f_equal.
  induction members as [|[k v] members IH]; [reflexivity|].
  cbn [forallb snd] in Sc. apply andb_true_iff in Sc as [Sv Sc].
  cbn [flat_map map fst snd]. rewrite (serialize_scalar _ _ v Sv), (IH Sc). reflexivity.
Qed.

(** [JSON.parse(JSON.stringify(o))] and [JSON.parse(JSON.stringify(o, null, 2))]
    for an object [o] whose members are strings and integers. *)
Lemma JSON_roundtrip_flat (members : list (string * value)) :
  members <> [] ->
  forallb (fun kv => scalar (snd kv)) members = true ->
  (exists text, JSON_stringify (VObj members) = Some text
                /\ JSON_parse text = Ret (VObj (object_of members [])))
  /\ (exists text, JSON_stringify_2 (VObj members) = Some text
                   /\ JSON_parse text = Ret (VObj (object_of members []))).
Proof.
  intros NE Sc. split; eexists; (split; [apply (serialize_flat _ _ members Sc)|]).
  - destruct members as [|m members]; [contradiction|].
    cbn [wrap map]. cbn [String.eqb]. cbv iota.
    apply (JSON_parse_flat "" "" "" padding_nil padding_nil (fun _ => eq_refl)
             (m :: members) NE Sc).
  - destruct members as [|m members]; [contradiction|].
    cbn [wrap map]. change (String.eqb "  " "") with false. cbv iota.
    apply (JSON_parse_flat "  " (newline ++ "  ") newline padding_indent padding_newline
             (fun _ => eq_refl) (m :: members) NE Sc).
Qed.

End CodecFacts.

(** ** The credential store *)

Section StoreClaims.
Import Str Js Net Auth.

(** C9.  Saving a credential record (refresh token, access token, expiry in
    epoch milliseconds) with [storeTokens] and then loading with
    [getStoredTokens] succeeds and returns the object that was written: its
    [refresh], [access] and [expires] properties are the saved values. *)
Theorem stored_tokens_load_back :
  forall (P : Platform) (w : World) (refresh access : string) (expires : Z),
    let saved := storeTokens P (VStr refresh) (VStr access) (VNum (Int expires)) w in
    let loaded := getStoredTokens (world saved) in
    outcome saved = Ret tt
    /\ outcome loaded
       = Ret (tokenData (VStr refresh) (VStr access) (VNum (Int expires))
                (toISOString P (now w)))
    /\ exists auth,
         outcome loaded = Ret auth
         /\ get_prop auth "refresh" = Ret (VStr refresh)
         /\ get_prop auth "access" = Ret (VStr access)
         /\ get_prop auth "expires" = Ret (VNum (Int expires)).
Proof.
  intros P w refresh access expires saved loaded.
  set (members := [("refresh", VStr refresh); ("access", VStr access);
                   ("expires", VNum (Int expires));
                   ("updated_at", VStr (toISOString P (now w)))]).
  destruct (JSON_roundtrip_flat members) as [_ [text [Et Ep]]];
    [discriminate | reflexivity |].
  assert (Es : saved = mkRun (Ret tt) (mkWorld (Some text) (now w)) [EvWriteFile text]).
  { subst saved. unfold storeTokens, bind, Date_now, writeFileSync, tokenData.
    cbn [outcome world events]. fold members. rewrite Et. reflexivity. }
  assert (El : outcome loaded = Ret (VObj members)).
  { subst loaded. rewrite Es. unfold getStoredTokens. cbn. exact Ep. }
  split; [now rewrite Es|]. split; [exact El|].
  exists (VObj members). repeat split; try exact El; reflexivity.
Qed.

End StoreClaims.

(** ** Handlers *)

Section HandlerClaims.
Import Str Js Net Routing Auth App.

(** *** Running computations *)

Lemma run_eta {A} (r : Run A) : mkRun (outcome r) (world r) (events r) = r.
Proof. now destruct r. Qed.

Lemma bind_run {A B} (m : M A) (k : A -> M B) (w : World) :
  bind m k w =
  match outcome (m w) with
  | Ret a =>
      mkRun (outcome (k a (world (m w)))) (world (k a (world (m w))))
            (events (m w) ++ events (k a (world (m w))))
  | Throw e => mkRun (Throw e) (world (m w)) (events (m w))
  | Unmodelled => mkRun Unmodelled (world (m w)) (events (m w))
  end.
Proof. reflexivity. Qed.

Lemma bind_reads {A B} (m : M A) (k : A -> M B) (w : World) (a : A) :
  reads m w (Ret a) -> bind m k w = k a w.
Proof. unfold reads. intros H. rewrite bind_run, H. cbn. apply run_eta. Qed.

Lemma bind_reads_throw {A B} (m : M A) (k : A -> M B) (w : World) (e : Error) :
  reads m w (Throw e) -> bind m k w = mkRun (Throw e) w [].
Proof. unfold reads. intros H. now rewrite bind_run, H. Qed.

Lemma bind_reads_unmodelled {A B} (m : M A) (k : A -> M B) (w : World) :
  reads m w Unmodelled -> bind m k w = mkRun Unmodelled w [].
Proof. unfold reads. intros H. now rewrite bind_run, H. Qed.

Lemma reads_lift {A} (o : Outcome A) (w : World) : reads (lift o) w o.
Proof. reflexivity. Qed.

Lemma reads_ret {A} (a : A) (w : World) : reads (ret a) w (Ret a).
Proof. reflexivity. Qed.

Lemma reads_Date_now (w : World) : reads Date_now w (Ret (now w)).
Proof. reflexivity. Qed.

Lemma reads_getStoredTokens (w : World) :
  reads getStoredTokens w (outcome (getStoredTokens w)).
Proof. unfold reads, getStoredTokens. now destruct (token_file w). Qed.

(** A computation that only reads, followed by one that only reads. *)
Lemma reads_bind {A B} (m : M A) (k : A -> M B) (w : World) (o : Outcome A) :
  reads m w o ->
  (forall a, o = Ret a -> exists o', reads (k a) w o') ->
  exists o', reads (bind m k) w o'.
Proof.
  intros Hm Hk. destruct o as [a|e|].
  - destruct (Hk a eq_refl) as [o' Ho']. exists o'.
    unfold reads. now rewrite (bind_reads m k w a Hm).
  - exists (Throw e). unfold reads. now rewrite (bind_reads_throw m k w e Hm).
  - exists Unmodelled. unfold reads. now rewrite (bind_reads_unmodelled m k w Hm).
Qed.

Lemma reads_needs_refresh (auth : value) (w : World) :
  exists o, reads (needs_refresh auth) w o.
Proof.
  unfold needs_refresh.
  eapply reads_bind; [apply reads_lift|]. intros access _.
  destruct (negb (truthy access)); [eexists; apply reads_ret|].
  eapply reads_bind; [apply reads_lift|]. intros expires _.
  eapply reads_bind; [apply reads_Date_now|]. intros t _.
  eapply reads_bind; [apply reads_lift|]. intros e _.
  eexists; apply reads_ret.
Qed.

(** *** Which events a computation can cause *)

Lemma free_ret {A X} (select : Event -> list X) (a : A) : free select (ret a).
Proof. intros w. reflexivity. Qed.

Lemma free_lift {A X} (select : Event -> list X) (o : Outcome A) : free select (lift o).
Proof. intros w. reflexivity. Qed.

Lemma free_lift_option {A X} (select : Event -> list X) (o : option A) :
  free select (lift_option o).
Proof. intros w. reflexivity. Qed.

Lemma free_Date_now {X} (select : Event -> list X) : free select Date_now.
Proof. intros w. reflexivity. Qed.

Lemma free_getStoredTokens {X} (select : Event -> list X) : free select getStoredTokens.
Proof. intros w. unfold getStoredTokens. now destruct (token_file w). Qed.

Lemma free_bind {A B X} (select : Event -> list X) (m : M A) (k : A -> M B) :
  free select m -> (forall a, free select (k a)) -> free select (bind m k).
Proof.
  intros Hm Hk w. rewrite bind_run. specialize (Hm w).
  destruct (outcome (m w)) as [a|e|]; cbn [events]; [|exact Hm|exact Hm].
  rewrite flat_map_app, Hm. apply Hk.
Qed.

Lemma free_writeFileSync_fetch (data : option string) : free fetch_of (writeFileSync data).
Proof. intros w. unfold writeFileSync. now destruct data. Qed.

Lemma free_writeFileSync_proxy (data : option string) : free proxy_of (writeFileSync data).
Proof. intros w. unfold writeFileSync. now destruct data. Qed.

Lemma free_await_fetch_proxy (P : Platform) (c : Call) : free proxy_of (await_fetch P c).
Proof. intros w. reflexivity. Qed.

Lemma free_await_fetch_write (P : Platform) (c : Call) : free write_of (await_fetch P c).
Proof. intros w. reflexivity. Qed.

Lemma free_await_proxy_fetch (P : Platform) (c : Call) (timeout : Z) :
  free fetch_of (await_proxy P c timeout).
Proof.
  intros w. unfold await_proxy.
  destruct (upstream P c) as [t res|t err|]; try destruct (t <? timeout); reflexivity.
Qed.

Lemma free_await_proxy_write (P : Platform) (c : Call) (timeout : Z) :
  free write_of (await_proxy P c timeout).
Proof.
  intros w. unfold await_proxy.
  destruct (upstream P c) as [t res|t err|]; try destruct (t <? timeout); reflexivity.
Qed.

Ltac free_step :=
  first
    [ apply free_ret | apply free_lift | apply free_lift_option | apply free_Date_now
    | apply free_getStoredTokens
    | apply free_writeFileSync_fetch | apply free_writeFileSync_proxy
    | apply free_await_fetch_proxy | apply free_await_fetch_write
    | apply free_await_proxy_fetch | apply free_await_proxy_write
    | apply free_bind; [|intros ?]
    | match goal with
      | |- free _ (if ?b then _ else _) => destruct b
      | |- free _ (match ?x with _ => _ end) => destruct x
      | |- free _ (let (_, _) := ?x in _) => destruct x
      end ].

Ltac free_tac := repeat free_step.

Lemma free_storeTokens_fetch (P : Platform) (refresh access expires : value) :
  free fetch_of (storeTokens P refresh access expires).
Proof. unfold storeTokens. free_tac. Qed.

Lemma free_forward_fetch (P : Platform) (req : Request) (access : value) :
  free fetch_of (forward_managed P req access).
Proof. unfold forward_managed. free_tac. Qed.

(** After the provider's answer, [exchange] fetches nothing more. *)
Lemma exchange_fetches_once (P : Platform) (code verifier : string) (w : World) :
  fetches (events (exchange P code verifier w)) = [exchange_call code verifier].
Proof.
  unfold exchange. rewrite bind_run.
  change (events (await_fetch P (exchange_call code verifier) w))
    with [EvFetch (exchange_call code verifier)].
  destruct (outcome (await_fetch P (exchange_call code verifier) w)) as [result|e|];
    try reflexivity.
  cbn [events]. unfold fetches. rewrite flat_map_app. cbn [flat_map fetch_of List.app].
  f_equal.
  match goal with |- flat_map fetch_of (events (?m _)) = [] => assert (F : free fetch_of m) end.
  { unfold response_json, expiry. free_tac. }
  apply F.
Qed.

(** C7.  For a code without [#], [code.split("#")] is the one-element
    array of the whole string: [splits[0]] is the code and [splits[1]] is
    [undefined].  The one call [exchange] makes carries the whole string as
    [code]; its [state] is empty: the JSON body the provider receives has no
    [state] member at all. *)
Theorem exchange_without_hash_sends_whole_code :
  forall (P : Platform) (code verifier : string) (w : World),
    occurs "#" code = false ->
    split "#" code = [code]
    /\ exchange_body code verifier
       = VObj [("code", VStr code); ("state", VUndefined);
               ("grant_type", VStr "authorization_code");
               ("client_id", VStr CLIENT_ID);
               ("redirect_uri", VStr REDIRECT_URI);
               ("code_verifier", VStr verifier)]
    /\ fetches (events (exchange P code verifier w)) = [exchange_call code verifier]
    /\ exists text,
         c_body (exchange_call code verifier) = Some text
         /\ JSON_parse text
            = Ret (VObj [("code", VStr code);
                         ("grant_type", VStr "authorization_code");
                         ("client_id", VStr CLIENT_ID);
                         ("redirect_uri", VStr REDIRECT_URI);
                         ("code_verifier", VStr verifier)]).
Proof.
  intros P code verifier w H.
  pose proof (split_without_separator "#" code H) as Hs.
  assert (Hb : exchange_body code verifier
               = VObj [("code", VStr code); ("state", VUndefined);
                       ("grant_type", VStr "authorization_code");
                       ("client_id", VStr CLIENT_ID);
                       ("redirect_uri", VStr REDIRECT_URI);
                       ("code_verifier", VStr verifier)]).
  { unfold exchange_body. rewrite Hs. reflexivity. }
  split; [exact Hs|]. split; [exact Hb|]. split; [apply exchange_fetches_once|].
  set (sent := [("code", VStr code);
                ("grant_type", VStr "authorization_code");
                ("client_id", VStr CLIENT_ID);
                ("redirect_uri", VStr REDIRECT_URI);
                ("code_verifier", VStr verifier)]).
  destruct (JSON_roundtrip_flat sent) as [[text [Et Ep]] _];
    [discriminate | reflexivity |].
  exists text. split; [|exact Ep].
  unfold exchange_call. cbn [c_body]. rewrite Hb, <- Et. reflexivity.
Qed.

Lemma await_fetch_run (P : Platform) (c : Call) (w : World) :
  await_fetch P c w = mkRun (snd (fetch P c)) (advance (fst (fetch P c)) w) [EvFetch c].
Proof. reflexivity. Qed.

Lemma reads_expiry (t n : Z) (w : World) :
  reads (expiry t (VNum (Int n))) w (Ret (VNum (Int (t + n * 1000)))).
Proof. reflexivity. Qed.

Lemma storeTokens_run (P : Platform) (refresh access expires : value) (w : World)
      (text : string) :
  JSON_stringify_2 (tokenData refresh access expires (toISOString P (now w))) = Some text ->
  storeTokens P refresh access expires w
  = mkRun (Ret tt) (mkWorld (Some text) (now w)) [EvWriteFile text].
Proof.
  intros H. unfold storeTokens.
  rewrite (bind_reads _ _ _ _ (reads_Date_now _)).
  unfold writeFileSync. now rewrite H.
Qed.


(** *** fetchWithTimeout *)



Lemma fetchWithTimeout_events (P : Platform) (c : Call) (timeout : Z) (w : World) :
  proxied (events (fetchWithTimeout P c timeout w)) = [c].
Proof.
  unfold fetchWithTimeout. rewrite bind_run. unfold await_proxy.
  destruct (upstream P c) as [t res|t err|]; try destruct (t <? timeout); reflexivity.
Qed.

Lemma forward_managed_proxied (P : Platform) (req : Request) (access : value) (w : World) :
  proxied (events (forward_managed P req access w)) = [managed_call req access].
Proof.
  unfold forward_managed. rewrite bind_run.
  pose proof (fetchWithTimeout_events P (managed_call req access) 60000 w) as E.
  destruct (outcome (fetchWithTimeout P (managed_call req access) 60000 w));
    cbn [events]; rewrite ?app_nil_r; exact E.
Qed.

(** *** The managed headers *)

Lemma managed_headers_fixed (inbound : Headers.t) (access : value) :
  Headers.get "authorization" (managed_headers inbound access)
  = Some (Headers.normalize ("Bearer " ++ to_string access))
  /\ Headers.get "anthropic-beta" (managed_headers inbound access) = Some ANTHROPIC_BETA
  /\ Headers.get "x-api-key" (managed_headers inbound access) = None.
Proof.
  unfold managed_headers. split; [|split].
  - rewrite get_delete_other by reflexivity.
    rewrite get_set_other by reflexivity.
    apply get_set_same.
  - rewrite get_delete_other by reflexivity. apply get_set_same.
  - apply get_delete_same.
Qed.

(** *** /claude-code/proxy/* *)

Lemma get_prop_object (members : list (string * value)) (k : string) :
  get_prop (VObj members) k
  = Ret (match lookup k members with Some x => x | None => VUndefined end).
Proof. unfold get_prop. now destruct (lookup k members). Qed.


Lemma lookup_define (k : string) (x : value) (members : list (string * value)) :
  lookup k (define k x members) = Some x.
Proof.
  induction members as [|[k' v] members IH]; simpl.
  - now rewrite String.eqb_refl.
  - destruct (String.eqb k' k) eqn:E; simpl; rewrite E; [reflexivity | exact IH].
Qed.


(** With an access token and an integer expiry in the record, the test is
    [expires < Date.now()]. *)
Lemma reads_needs_refresh_record (auth : value) (a : string) (e : Z) (w : World) :
  get_prop auth "access" = Ret (VStr a) -> a <> "" ->
  get_prop auth "expires" = Ret (VNum (Int e)) ->
  reads (needs_refresh auth) w (Ret (e <? now w)).
Proof.
  intros Ha Na He. unfold reads, needs_refresh.
  rewrite Ha, (bind_reads _ _ _ _ (reads_lift _ _)).
  assert (T : truthy (VStr a) = true).
  { simpl. apply negb_true_iff. now apply String.eqb_neq. }
  rewrite T. cbn [negb].
  rewrite He, (bind_reads _ _ _ _ (reads_lift _ _)).
  rewrite (bind_reads _ _ _ _ (reads_Date_now _)).
  reflexivity.
Qed.

Lemma events_bind {A B} (m : M A) (k : A -> M B) (w : World) :
  events (bind m k w)
  = (events (m w)
       ++ match outcome (m w) with
          | Ret a => events (k a (world (m w)))
          | _ => []
          end)%list.
Proof.
  rewrite bind_run. destruct (outcome (m w)); cbn [events];
    rewrite ?app_nil_r; reflexivity.
Qed.

Lemma free_after_refresh_fetch (P : Platform) (req : Request) (auth : value)
      (response : Response) :
  free fetch_of (after_refresh P req auth response).
Proof.
  unfold after_refresh, response_json, expiry. free_tac.
  all: try apply free_storeTokens_fetch; try apply free_forward_fetch.
Qed.


Lemma run_reads {A} (m : M A) (w : World) (o : Outcome A) :
  reads m w o -> outcome (m w) = o /\ world (m w) = w /\ events (m w) = [].
Proof. unfold reads. intros ->. now repeat split. Qed.

(** C2.  Without a token file the handler answers 401 with a JSON error
    and touches nothing.  When a refresh is needed and the provider answers
    it with a non-success status, the handler answers 401 with a JSON error,
    the token file is as it was and nothing is written. *)
Theorem unauthenticated_leaves_store :
  forall (P : Platform) (req : Request) (w : World),
    let r := claude_code_proxy P req w in
    (token_file w = None ->
       outcome r = Ret unauthenticated /\ world r = w /\ events r = [])
    /\ (forall auth refresh_token response,
          outcome (getStoredTokens w) = Ret auth -> truthy auth = true ->
          outcome (needs_refresh auth w) = Ret true ->
          get_prop auth "refresh" = Ret refresh_token ->
          snd (fetch P (refresh_call refresh_token)) = Ret response ->
          ok response = false ->
          outcome r = Ret refresh_failed
          /\ token_file (world r) = token_file w
          /\ writes (events r) = [])
    /\ status unauthenticated = 401
    /\ status refresh_failed = 401
    /\ (exists text,
          body unauthenticated = Some text
          /\ JSON_parse text
             = Ret (VObj [("error", VStr "No authentication found. Please authorize first.")]))
    /\ (exists text,
          body refresh_failed = Some text
          /\ JSON_parse text
             = Ret (VObj [("error", VStr "Failed to refresh token. Please re-authorize.")])).
Proof.
  intros P req w r. subst r. unfold claude_code_proxy.
  split; [|split; [|split; [|split; [|split]]]].
  - intros Hf.
    assert (R : reads getStoredTokens w (Ret VNull)).
    { unfold reads, getStoredTokens. now rewrite Hf. }
    rewrite (bind_reads _ _ _ _ R). cbn. now repeat split.
  - intros auth refresh_token response Hs Ht Hn Hr Hfetch Hok.
    pose proof (reads_getStoredTokens w) as R. rewrite Hs in R.
    rewrite (bind_reads _ _ _ _ R), Ht. cbn [negb].
    destruct (reads_needs_refresh auth w) as [o Ro].
    destruct (run_reads _ _ _ Ro) as [Eo _]. rewrite Hn in Eo. subst o.
    rewrite (bind_reads _ _ _ _ Ro).
    rewrite Hr, (bind_reads _ _ _ _ (reads_lift _ _)).
    rewrite bind_run, await_fetch_run. cbn [outcome world events].
    rewrite Hfetch, Hok. cbn. now repeat split.
  - reflexivity.
  - reflexivity.
  - eexists. split; [reflexivity | vm_compute; reflexivity].
  - eexists. split; [reflexivity | vm_compute; reflexivity].
Qed.

Lemma in_proxied_bind {A B} (m : M A) (k : A -> M B) (w : World) (c : Call) :
  free proxy_of m ->
  In c (proxied (events (bind m k w))) ->
  exists a, outcome (m w) = Ret a /\ In c (proxied (events (k a (world (m w))))).
Proof.
  intros F I. rewrite events_bind in I. unfold proxied in *.
  rewrite flat_map_app, (F w) in I. cbn [List.app] in I.
  destruct (outcome (m w)) as [a|e|]; [now exists a | contradiction | contradiction].
Qed.

Lemma lift_outcome {A} (o : Outcome A) (w : World) :
  outcome (lift o w) = o /\ world (lift o w) = w.
Proof. now split. Qed.

Ltac open_bind I a E :=
  apply in_proxied_bind in I; [destruct I as [a [E I]] | try (free_tac; fail)].

(** C8, as the platform has it.  Every call the managed handler forwards
    has a header set where [anthropic-beta] is the fixed capability list and
    [x-api-key] is absent, whatever the inbound headers were.  When the
    access token in force (the stored one when no refresh was needed, the
    one of the provider's answer after a refresh) is a string without NUL,
    line feed and carriage return, [authorization] is [Bearer] followed by
    the token, normalised as [headers.set] does: white space at the end of
    the token is not sent.  For a token that this leaves as it is, a
    non-empty one that does not end in white space, the header is [Bearer]
    followed by the token itself. *)
Theorem forwarded_call_carries_bearer :
  forall (P : Platform) (req : Request) (w : World) (c : Call),
    In c (proxied (events (claude_code_proxy P req w))) ->
    exists auth access,
      outcome (getStoredTokens w) = Ret auth
      /\ c = managed_call req access
      /\ (forall token,
            access = VStr token -> Headers.clean token = true ->
            Headers.get "authorization" (c_headers c)
            = Some (Headers.normalize ("Bearer " ++ token))
            /\ (Headers.as_given ("Bearer " ++ token) = true ->
                Headers.get "authorization" (c_headers c) = Some ("Bearer " ++ token)))
      /\ Headers.get "anthropic-beta" (c_headers c) = Some ANTHROPIC_BETA
      /\ Headers.get "x-api-key" (c_headers c) = None
      /\ ((outcome (needs_refresh auth w) = Ret false
           /\ get_prop auth "access" = Ret access)
          \/ (outcome (needs_refresh auth w) = Ret true
              /\ exists refresh_token response text json,
                   get_prop auth "refresh" = Ret refresh_token
                   /\ snd (fetch P (refresh_call refresh_token)) = Ret response
                   /\ ok response = true
                   /\ body response = Some text
                   /\ JSON_parse text = Ret json
                   /\ get_prop json "access_token" = Ret access)).
Proof.
  intros P req w c I. unfold claude_code_proxy in I.
  open_bind I auth Ea.
  pose proof (reads_getStoredTokens w) as R. destruct (run_reads _ _ _ R) as [_ [Ew _]].
  rewrite Ew in I. clear R Ew.
  destruct (negb (truthy auth)); [contradiction|].
  open_bind I stale Es.
  destruct (reads_needs_refresh auth w) as [o Ro].
  destruct (run_reads _ _ _ Ro) as [_ [Ew _]]. rewrite Ew in I. clear o Ro Ew.
  assert (Fin : forall access w',
             In c (proxied (events (forward_managed P req access w'))) ->
             c = managed_call req access
             /\ (forall token,
                   access = VStr token -> Headers.clean token = true ->
                   Headers.get "authorization" (c_headers c)
                   = Some (Headers.normalize ("Bearer " ++ token))
                   /\ (Headers.as_given ("Bearer " ++ token) = true ->
                       Headers.get "authorization" (c_headers c)
                       = Some ("Bearer " ++ token)))
             /\ Headers.get "anthropic-beta" (c_headers c) = Some ANTHROPIC_BETA
             /\ Headers.get "x-api-key" (c_headers c) = None).
  { intros access w' H. rewrite forward_managed_proxied in H.
    destruct H as [<-|[]]. split; [reflexivity|].
    destruct (managed_headers_fixed (req_headers req) access) as (H1 & H2 & H3).
    split; [|split; [exact H2 | exact H3]].
    intros token -> _. cbn [to_string] in H1. split; [exact H1|].
    intros G. apply String.eqb_eq in G. unfold managed_call. cbn [c_headers].
    now rewrite H1, G. }
  exists auth.
  destruct stale.
  - open_bind I refresh_token Er. cbn in Er.
    rewrite (proj2 (lift_outcome _ _)) in I.
    open_bind I response Ef. rewrite await_fetch_run in Ef, I. cbn [outcome world] in Ef, I.
    destruct (ok response) eqn:Hok; cbn [negb] in I; [|contradiction].
    unfold after_refresh, response_json, expiry in I.
    open_bind I json Ej. cbn in Ej. cbn [lift world] in I.
    open_bind I refresh Erf. cbn [lift world] in I.
    open_bind I access Eac. cbn in Eac. cbn [lift world] in I.
    open_bind I t Et. cbn [Date_now world] in I.
    open_bind I expires_in Eei. cbn [lift world] in I.
    open_bind I expires Eex.
    open_bind I u Est.
    open_bind I auth' Eau. cbn in Eau. cbn [lift world] in I.
    open_bind I access' Eac'. cbn in Eac'. cbn [lift world] in I.
    assert (access' = access) as ->.
    { destruct auth as [| |b|x|s|items|members]; try discriminate.
      cbn in Eau. inversion Eau; subst auth'.
      rewrite get_prop_object, lookup_define in Eac'. now inversion Eac'. }
    exists access.
    destruct (Fin access _ I) as [Ec [H1 [H2 H3]]].
    repeat (split; [assumption|]).
    right. split; [exact Es|].
    destruct (body response) as [text|] eqn:Hb; [|discriminate].
    exists refresh_token, response, text, json. now repeat split.
  - open_bind I access Eac. cbn in Eac. cbn [lift world] in I.
    exists access.
    destruct (Fin access _ I) as [Ec [H1 [H2 H3]]].
    repeat (split; [assumption|]).
    left. now split.
Qed.

End HandlerClaims.

(** ** The header loop on any input *)

Section SanitizerAnyInput.
Import Str Sanitizer Net Routing App.

Lemma get_same_name (a b : string) (h : Headers.t) :
  Headers.same_name a b = true -> Headers.get a h = Headers.get b h.
Proof.
  intros E. apply same_name_true in E. unfold Headers.get.
  replace (filter (fun e => Headers.same_name (fst e) b) h)
    with (filter (fun e => Headers.same_name (fst e) a) h); [reflexivity|].
  apply filter_ext. intros e. unfold Headers.same_name. now rewrite E.
Qed.

Lemma names_delete_incl (n x : string) (h : Headers.t) :
  In x (Headers.names (Headers.delete n h)) -> In x (Headers.names h).
Proof.
  unfold Headers.names, Headers.delete. intros I.
  apply in_map_iff in I as [e [E I]]. apply filter_In in I as [I _].
  apply in_map_iff. now exists e.
Qed.

Lemma names_set_incl (n v x : string) (h : Headers.t) :
  In x (Headers.names (Headers.set n v h)) ->
  In x (Headers.names h) \/ x = toLowerCase n.
Proof.
  induction h as [|[k y] h IH]; simpl.
  - intros [<-|[]]. now right.
  - destruct (Headers.same_name k n) eqn:E; simpl.
    + intros [<-|I]; [left; now left|]. left; right. now apply (names_delete_incl n).
    + intros [<-|I]; [left; now left|]. destruct (IH I) as [I'|E']; [left; now right | now right].
Qed.

Lemma NoDup_names_set (n v : string) (h : Headers.t) :
  NoDup (Headers.names h) -> NoDup (Headers.names (Headers.set n v h)).
Proof.
  induction h as [|[k y] h IH]; intros N; simpl.
  - repeat constructor. intros [].
  - simpl in N. inversion N as [|? ? Nin N']; subst.
    destruct (Headers.same_name k n) eqn:E; simpl; constructor.
    + intros I. apply Nin. now apply (names_delete_incl n).
    + now apply NoDup_names_filter.
    + intros I. destruct (names_set_incl _ _ _ _ I) as [I'|E']; [now apply Nin|].
      apply same_name_false in E. now apply E.
    + now apply IH.
Qed.

Lemma NoDup_names_sanitize (inbound h : Headers.t) :
  NoDup (Headers.names h) -> NoDup (Headers.names (sanitize inbound h)).
Proof.
  revert h; induction inbound as [|[k v] inbound IH]; intros h N; [exact N|].
  rewrite sanitize_cons, copy_header_dropped. apply IH.
  destruct (dropped (toLowerCase k)); [exact N | now apply NoDup_names_set].
Qed.

(** Names that are in the output of the loop were in [h] or were copied,
    and a copied name is not dropped. *)
Lemma names_sanitize (inbound h : Headers.t) (x : string) :
  In x (Headers.names (sanitize inbound h)) ->
  In x (Headers.names h) \/ dropped x = false.
Proof.
  revert h; induction inbound as [|[k v] inbound IH]; intros h I; [now left|].
  rewrite sanitize_cons, copy_header_dropped in I.
  destruct (dropped (toLowerCase k)) eqn:D.
  - now apply IH.
  - destruct (IH _ I) as [I'|D']; [|now right].
    destruct (names_set_incl _ _ _ _ I') as [I''|E']; [now left | right; now rewrite E'].
Qed.

Lemma last_value_cons (name k v : string) (h : Headers.t) :
  Headers.last_value name ((k, v) :: h)
  = match Headers.last_value name h with
    | Some v' => Some v'
    | None => if Headers.same_name k name then Some v else None
    end.
Proof. reflexivity. Qed.

(** What [get] finds after the loop: the last inbound value of that name if
    there is one, what [h] had otherwise. *)
Lemma get_sanitize (inbound h : Headers.t) (name : string) :
  dropped (toLowerCase name) = false ->
  Headers.get name (sanitize inbound h)
  = match Headers.last_value name inbound with
    | Some v => Some v
    | None => Headers.get name h
    end.
Proof.
  intros D. revert h; induction inbound as [|[k v] inbound IH]; intros h; [reflexivity|].
  rewrite sanitize_cons, copy_header_dropped, last_value_cons, IH.
  destruct (Headers.last_value name inbound) as [v'|]; [reflexivity|].
  destruct (Headers.same_name k name) eqn:E.
  - assert (Dk : dropped (toLowerCase k) = false).
    { apply same_name_true in E. now rewrite E. }
    rewrite Dk, <- (get_same_name k name _ E). apply get_set_same.
  - destruct (dropped (toLowerCase k)); [reflexivity|]. now apply get_set_other.
Qed.

(** X1.  Whatever the inbound entries are, also with repeated names:
    a dropped name is absent after the loop, a kept name has the value of
    its last inbound entry.  In the middleware the only exception is [host],
    which has the target's host name. *)
Theorem sanitize_any_inbound :
  forall (P : Platform) (proxy : ProxyEntry) (inbound : Headers.t) (name : string),
    let out := sanitize inbound Headers.empty in
    let routed := routed_headers P proxy inbound in
    (dropped (toLowerCase name) = true ->
       Headers.get name out = None
       /\ (toLowerCase name <> "host" -> Headers.get name routed = None))
    /\ (dropped (toLowerCase name) = false ->
        Headers.get name out = Headers.last_value name inbound
        /\ Headers.get name routed = Headers.last_value name inbound)
    /\ Headers.get "host" routed = Some (url_hostname P (target proxy)).
Proof.
  intros P proxy inbound name out routed. split; [|split].
  - intros D. split.
    + apply get_fresh. intros I.
      destruct (names_sanitize _ _ _ I) as [[]|D']. congruence.
    + intros NH. apply get_fresh. intros I.
      destruct (names_sanitize _ _ _ I) as [[E|[]]|D']; [|congruence].
      apply NH. now symmetry.
  - intros D. subst out routed. unfold routed_headers.
    rewrite !(get_sanitize _ _ _ D).
    destruct (Headers.last_value name inbound); [now split|]. split; [reflexivity|].
    apply get_fresh. unfold Headers.fresh. simpl. intros [E|[]].
    rewrite <- E in D. discriminate.
  - subst routed. unfold routed_headers.
    assert (N : NoDup (Headers.names
                         (sanitize inbound
                            (Headers.set "host" (url_hostname P (target proxy))
                               Headers.empty)))).
    { apply NoDup_names_sanitize. simpl. repeat constructor. intros []. }
    rewrite get_named.
    enough (E : Headers.named "host" (sanitize inbound
                  (Headers.set "host" (url_hostname P (target proxy)) Headers.empty))
                = [("host", url_hostname P (target proxy))]) by now rewrite E.
    clear N.
    assert (G : forall h, Headers.named "host" (sanitize inbound h) = Headers.named "host" h).
    { induction inbound as [|[k v] inbound IH]; intros h; [reflexivity|].
      rewrite sanitize_cons, copy_header_dropped, IH.
      destruct (dropped (toLowerCase k)) eqn:D; [reflexivity|].
      apply named_set_other. apply same_name_false. intros E.
      rewrite E in D. discriminate. }
    rewrite G. reflexivity.
Qed.

(** X2.  The output of the loop never repeats a name, and running the loop on
    its own output changes nothing. *)
Theorem sanitize_idempotent :
  forall (inbound : Headers.t),
    NoDup (Headers.names (sanitize inbound Headers.empty))
    /\ sanitize (sanitize inbound Headers.empty) Headers.empty
       = sanitize inbound Headers.empty.
Proof.
  intros inbound.
  assert (N : NoDup (Headers.names (sanitize inbound Headers.empty)))
    by (apply NoDup_names_sanitize; constructor).
  split; [exact N|].
  rewrite (sanitize_is_spec _ N). unfold sanitized_spec.
  apply forallb_filter_id. apply forallb_forall. intros e I.
  apply negb_true_iff.
  destruct (names_sanitize inbound Headers.empty (toLowerCase (fst e))) as [[]|D];
    [|exact D].
  unfold Headers.names. now apply (in_map (fun e => toLowerCase (fst e))).
Qed.

(** *** The claim about the loop *)

Lemma get_routed_host (P : Platform) (proxy : ProxyEntry) (inbound : Headers.t) :
  Headers.get "host" (routed_headers P proxy inbound)
  = Some (url_hostname P (target proxy)).
Proof.
  unfold routed_headers. rewrite get_named.
  enough (E : Headers.named "host" (sanitize inbound
                (Headers.set "host" (url_hostname P (target proxy)) Headers.empty))
              = [("host", url_hostname P (target proxy))]) by now rewrite E.
  assert (G : forall h, Headers.named "host" (sanitize inbound h) = Headers.named "host" h).
  { induction inbound as [|[k v] inbound IH]; intros h; [reflexivity|].
    rewrite sanitize_cons, copy_header_dropped, IH.
    destruct (dropped (toLowerCase k)) eqn:D; [reflexivity|].
    apply named_set_other. apply same_name_false. intros E.
    rewrite E in D. discriminate. }
  rewrite G. reflexivity.
Qed.

(** C3, as the code has it.  For every list of inbound entries, the loop
    of the managed handler gives a header set without a name that starts
    with [cf-], [x-forwarded-] or [cdn-] or is [x-real-ip] or [host]
    (compared in lower case), without two headers of one name up to case,
    and with every other inbound name; each has the value of the last
    inbound entry of its name, verbatim.  Where the inbound entries repeat a
    name, as a [Headers] object does for [set-cookie], the earlier values
    are not in the output.  For entries with pairwise different names the
    output is exactly the inbound entries that are not dropped.  The loop
    of the routing-table middleware gives the same after the [host] header
    that the middleware itself has set to the target's host name. *)
Theorem sanitize_keeps_the_last_value_of_the_others :
  forall (P : Platform) (proxy : ProxyEntry) (inbound : Headers.t),
    let out := sanitize inbound Headers.empty in
    let routed := routed_headers P proxy inbound in
    (forall name, dropped (toLowerCase name) = true -> Headers.get name out = None)
    /\ (forall name, dropped (toLowerCase name) = false ->
          Headers.get name out = Headers.last_value name inbound)
    /\ NoDup (Headers.names out)
    /\ (forall name, dropped (toLowerCase name) = true -> toLowerCase name <> "host" ->
          Headers.get name routed = None)
    /\ (forall name, dropped (toLowerCase name) = false ->
          Headers.get name routed = Headers.last_value name inbound)
    /\ Headers.get "host" routed = Some (url_hostname P (target proxy))
    /\ NoDup (Headers.names routed)
    /\ (NoDup (Headers.names inbound) ->
        (forall e, In e out <-> In e inbound /\ dropped (toLowerCase (fst e)) = false)
        /\ (forall key value, In (key, value) inbound ->
              Headers.get key out
              = if dropped (toLowerCase key) then None else Some value)
        /\ (forall e, In e routed <->
              e = ("host", url_hostname P (target proxy))
              \/ (In e inbound /\ dropped (toLowerCase (fst e)) = false))
        /\ (forall key value, In (key, value) inbound ->
              toLowerCase key <> "host" ->
              Headers.get key routed
              = if dropped (toLowerCase key) then None else Some value)).
Proof.
  intros P proxy inbound out routed.
  assert (Nout : NoDup (Headers.names out))
    by (apply NoDup_names_sanitize; constructor).
  assert (Nrouted : NoDup (Headers.names routed)).
  { apply NoDup_names_sanitize. simpl. repeat constructor. intros []. }
  split.
  { intros name D. apply get_fresh. intros I.
    destruct (names_sanitize _ _ _ I) as [[]|D']. congruence. }
  split.
  { intros name D. subst out. rewrite (get_sanitize _ _ _ D).
    now destruct (Headers.last_value name inbound). }
  split; [exact Nout|].
  split.
  { intros name D NH. apply get_fresh. intros I.
    destruct (names_sanitize _ _ _ I) as [[E|[]]|D']; [|congruence].
    apply NH. now symmetry. }
  split.
  { intros name D. subst routed. unfold routed_headers.
    rewrite (get_sanitize _ _ _ D).
    destruct (Headers.last_value name inbound); [reflexivity|].
    apply get_fresh. unfold Headers.fresh. simpl. intros [E|[]].
    rewrite <- E in D. discriminate. }
  split; [apply get_routed_host|].
  split; [exact Nrouted|].
  intros N. clear Nout Nrouted.
  assert (Eout : out = sanitized_spec inbound) by (apply sanitize_is_spec; exact N).
  assert (Erouted : routed = ("host", url_hostname P (target proxy)) :: sanitized_spec inbound)
    by (apply sanitize_after_host; exact N).
  assert (Nout : NoDup (Headers.names (sanitized_spec inbound)))
    by (apply NoDup_names_filter; exact N).
  assert (Nrouted : NoDup (Headers.names (("host", url_hostname P (target proxy))
                                          :: sanitized_spec inbound))).
  { simpl. constructor; [|exact Nout].
    intros I. apply (kept_not_dropped inbound "host") in I. discriminate. }
  assert (Kept : forall e, In e (sanitized_spec inbound)
                           <-> In e inbound /\ dropped (toLowerCase (fst e)) = false).
  { intros e. unfold sanitized_spec. rewrite filter_In, negb_true_iff. tauto. }
  rewrite Eout, Erouted.
  split; [exact Kept|].
  split.
  { intros key value I.
    destruct (dropped (toLowerCase key)) eqn:D.
    - apply get_fresh. intros I'. apply kept_not_dropped in I'. congruence.
    - apply get_entry; [exact Nout|]. apply Kept. now split. }
  split.
  { intros e; split.
    - intros [E|I]; [left; now symmetry | right; now apply Kept].
    - intros [E|I]; [left; now symmetry | right; now apply Kept]. }
  intros key value I NH.
  destruct (dropped (toLowerCase key)) eqn:D.
  - apply get_fresh. unfold Headers.fresh. simpl. intros [E|I'].
    + apply NH. now symmetry.
    + apply kept_not_dropped in I'. congruence.
  - apply get_entry; [exact Nrouted|]. right. apply Kept. now split.
Qed.

End SanitizerAnyInput.

(** ** The managed handler, branch by branch *)

Section GateRuns.
Import Str Js Net Routing Auth App.

(** *** How the managed handler runs *)

Lemma fetchWithTimeout_cases (P : Platform) (c : Call) (timeout : Z) (w : World) :
  let r := fetchWithTimeout P c timeout w in
  token_file (world r) = token_file w
  /\ (events r = [EvProxy c] \/ events r = [EvProxy c; EvAbort]).
Proof.
  intros r. subst r. unfold fetchWithTimeout. rewrite bind_run. unfold await_proxy.
  destruct (upstream P c) as [t res|t err|]; try destruct (t <? timeout);
    cbn; split; auto.
Qed.

Lemma forward_managed_cases (P : Platform) (req : Request) (access : value) (w : World) :
  let r := forward_managed P req access w in
  token_file (world r) = token_file w
  /\ (events r = [EvProxy (managed_call req access)]
      \/ events r = [EvProxy (managed_call req access); EvAbort]).
Proof.
  intros r. subst r. unfold forward_managed. rewrite bind_run.
  destruct (fetchWithTimeout_cases P (managed_call req access) 60000 w) as [T E].
  destruct (outcome (fetchWithTimeout P (managed_call req access) 60000 w));
    cbn [world events]; rewrite ?app_nil_r; now split.
Qed.

(** The handler once the stored value and the staleness test are known. *)
Lemma gate_run (P : Platform) (req : Request) (w : World) (auth : value) (stale : bool) :
  outcome (getStoredTokens w) = Ret auth -> truthy auth = true ->
  outcome (needs_refresh auth w) = Ret stale ->
  claude_code_proxy P req w
  = (if stale then
       bind (lift (get_prop auth "refresh")) (fun refresh_token =>
       bind (await_fetch P (refresh_call refresh_token)) (fun response =>
       if negb (ok response) then ret refresh_failed
       else after_refresh P req auth response))
     else
       bind (lift (get_prop auth "access")) (fun access =>
       forward_managed P req access)) w.
Proof.
  intros Hs Ht Hn. unfold claude_code_proxy.
  pose proof (reads_getStoredTokens w) as R. rewrite Hs in R.
  rewrite (bind_reads _ _ _ _ R), Ht. cbn [negb].
  destruct (reads_needs_refresh auth w) as [o Ro].
  destruct (run_reads _ _ _ Ro) as [Eo _]. rewrite Hn in Eo. subst o.
  now rewrite (bind_reads _ _ _ _ Ro).
Qed.

(** The handler when the stored value does not lead to the gate. *)
Lemma gate_stops (P : Platform) (req : Request) (w : World) :
  (forall e, outcome (getStoredTokens w) = Throw e ->
             claude_code_proxy P req w = mkRun (Throw e) w [])
  /\ (outcome (getStoredTokens w) = Unmodelled ->
      claude_code_proxy P req w = mkRun Unmodelled w [])
  /\ (forall auth, outcome (getStoredTokens w) = Ret auth -> truthy auth = false ->
                   claude_code_proxy P req w = mkRun (Ret unauthenticated) w [])
  /\ (forall auth, outcome (getStoredTokens w) = Ret auth -> truthy auth = true ->
        forall e, outcome (needs_refresh auth w) = Throw e ->
                  claude_code_proxy P req w = mkRun (Throw e) w [])
  /\ (forall auth, outcome (getStoredTokens w) = Ret auth -> truthy auth = true ->
        outcome (needs_refresh auth w) = Unmodelled ->
        claude_code_proxy P req w = mkRun Unmodelled w []).
Proof.
  pose proof (reads_getStoredTokens w) as R. unfold claude_code_proxy.
  split; [|split; [|split; [|split]]].
  - intros e H. rewrite H in R. now rewrite (bind_reads_throw _ _ _ _ R).
  - intros H. rewrite H in R. now rewrite (bind_reads_unmodelled _ _ _ R).
  - intros auth H T. rewrite H in R. now rewrite (bind_reads _ _ _ _ R), T.
  - intros auth H T e N. rewrite H in R. rewrite (bind_reads _ _ _ _ R), T. cbn [negb].
    destruct (reads_needs_refresh auth w) as [o Ro].
    destruct (run_reads _ _ _ Ro) as [Eo _]. rewrite N in Eo. subst o.
    now rewrite (bind_reads_throw _ _ _ _ Ro).
  - intros auth H T N. rewrite H in R. rewrite (bind_reads _ _ _ _ R), T. cbn [negb].
    destruct (reads_needs_refresh auth w) as [o Ro].
    destruct (run_reads _ _ _ Ro) as [Eo _]. rewrite N in Eo. subst o.
    now rewrite (bind_reads_unmodelled _ _ _ Ro).
Qed.

Lemma stringify_record (refresh access expires : value) (iso : string) :
  exists written, JSON_stringify_2 (tokenData refresh access expires iso) = Some written.
Proof. eexists. reflexivity. Qed.

(** The refresh branch after a success answer with an integer
    [expires_in]: one write, then the forward with the new access token. *)
Lemma after_refresh_run (P : Platform) (req : Request) (members : list (string * value))
      (response : Response) (text : string) (json refresh access : value) (n : Z)
      (w : World) (written : string) :
  body response = Some text -> JSON_parse text = Ret json ->
  get_prop json "refresh_token" = Ret refresh ->
  get_prop json "access_token" = Ret access ->
  get_prop json "expires_in" = Ret (VNum (Int n)) ->
  JSON_stringify_2
    (tokenData refresh access (VNum (Int (now w + n * 1000))) (toISOString P (now w)))
  = Some written ->
  after_refresh P req (VObj members) response w
  = mkRun (outcome (forward_managed P req access (mkWorld (Some written) (now w))))
          (world (forward_managed P req access (mkWorld (Some written) (now w))))
          (EvWriteFile written
             :: events (forward_managed P req access (mkWorld (Some written) (now w)))).
Proof.
  intros Hb Hj Hr Ha He Hw. unfold after_refresh, response_json.
  rewrite Hb, Hj, (bind_reads _ _ _ _ (reads_lift _ _)).
  rewrite Hr, (bind_reads _ _ _ _ (reads_lift _ _)).
  rewrite Ha, (bind_reads _ _ _ _ (reads_lift _ _)).
  rewrite (bind_reads _ _ _ _ (reads_Date_now _)).
  rewrite He, (bind_reads _ _ _ _ (reads_lift _ _)).
  rewrite (bind_reads _ _ _ _ (reads_expiry _ _ _)).
  rewrite bind_run, (storeTokens_run _ _ _ _ _ _ Hw). cbn [outcome world events].
  cbn [set_prop]. rewrite (bind_reads _ _ _ _ (reads_lift _ _)).
  rewrite get_prop_object, lookup_define, (bind_reads _ _ _ _ (reads_lift _ _)).
  reflexivity.
Qed.

(** The whole handler on the refresh path. *)
Lemma refresh_run (P : Platform) (req : Request) (w : World)
      (members : list (string * value)) (refresh_token : value)
      (response : Response) (text : string) (json refresh access : value) (n : Z)
      (written : string) :
  outcome (getStoredTokens w) = Ret (VObj members) ->
  outcome (needs_refresh (VObj members) w) = Ret true ->
  get_prop (VObj members) "refresh" = Ret refresh_token ->
  snd (fetch P (refresh_call refresh_token)) = Ret response -> ok response = true ->
  body response = Some text -> JSON_parse text = Ret json ->
  get_prop json "refresh_token" = Ret refresh ->
  get_prop json "access_token" = Ret access ->
  get_prop json "expires_in" = Ret (VNum (Int n)) ->
  let t := now w + fst (fetch P (refresh_call refresh_token)) in
  JSON_stringify_2 (tokenData refresh access (VNum (Int (t + n * 1000))) (toISOString P t))
  = Some written ->
  let forwarded := forward_managed P req access (mkWorld (Some written) t) in
  claude_code_proxy P req w
  = mkRun (outcome forwarded) (world forwarded)
          (EvFetch (refresh_call refresh_token) :: EvWriteFile written :: events forwarded).
Proof.
  intros Hs Hn Hrt Hf Hok Hb Hj Hr Ha He t Hw forwarded.
  rewrite (gate_run P req w _ true Hs eq_refl Hn).
  rewrite Hrt, (bind_reads _ _ _ _ (reads_lift _ _)).
  rewrite bind_run, await_fetch_run. cbn [outcome world events].
  rewrite Hf, Hok. cbn [negb].
  rewrite (after_refresh_run P req members response text json refresh access n
             (advance (fst (fetch P (refresh_call refresh_token))) w) written
             Hb Hj Hr Ha He Hw).
  reflexivity.
Qed.

End GateRuns.

Section GateFacts.
Import Str Js Net Routing Auth App.

Lemma record_roundtrip (refresh access : string) (e : Z) (iso written : string) :
  JSON_stringify_2 (tokenData (VStr refresh) (VStr access) (VNum (Int e)) iso)
  = Some written ->
  JSON_parse written = Ret (tokenData (VStr refresh) (VStr access) (VNum (Int e)) iso).
Proof.
  intros H.
  destruct (JSON_roundtrip_flat
              [("refresh", VStr refresh); ("access", VStr access);
               ("expires", VNum (Int e)); ("updated_at", VStr iso)])
    as [_ [text [Et Ep]]]; [discriminate | reflexivity |].
  unfold tokenData in H. rewrite H in Et. inversion Et; subst text. exact Ep.
Qed.


Lemma stored_outcome (w : World) (text : string) :
  token_file w = Some text -> outcome (getStoredTokens w) = JSON_parse text.
Proof. intros H. unfold getStoredTokens. now rewrite H. Qed.

(** X3.  A refresh that succeeds overwrites the token file with the answer's
    tokens and the new expiry before it forwards, and forwards once, with
    the new access token.  Stated for an access token on which line 97 does
    not throw (no NUL, line feed or carriage return) and for a clock, a
    product and a sum that are safe integers, where the arithmetic of
    JavaScript is exact. *)
Theorem refresh_stores_then_forwards :
  forall (P : Platform) (req : Request) (w : World) (members : list (string * value))
         (refresh_token : value) (response : Response) (text : string) (json : value)
         (refresh access : string) (n : Z),
    outcome (getStoredTokens w) = Ret (VObj members) ->
    outcome (needs_refresh (VObj members) w) = Ret true ->
    get_prop (VObj members) "refresh" = Ret refresh_token ->
    snd (fetch P (refresh_call refresh_token)) = Ret response -> ok response = true ->
    body response = Some text -> JSON_parse text = Ret json ->
    get_prop json "refresh_token" = Ret (VStr refresh) ->
    get_prop json "access_token" = Ret (VStr access) ->
    get_prop json "expires_in" = Ret (VNum (Int n)) ->
    Headers.clean access = true ->
    safe_integer (now w + fst (fetch P (refresh_call refresh_token))) = true ->
    safe_integer (n * 1000) = true ->
    safe_integer (now w + fst (fetch P (refresh_call refresh_token)) + n * 1000) = true ->
    let r := claude_code_proxy P req w in
    let t := now w + fst (fetch P (refresh_call refresh_token)) in
    let record := tokenData (VStr refresh) (VStr access) (VNum (Int (t + n * 1000)))
                            (toISOString P t) in
    outcome (getStoredTokens (world r)) = Ret record
    /\ exists written later,
         JSON_stringify_2 record = Some written
         /\ token_file (world r) = Some written
         /\ events r
            = EvFetch (refresh_call refresh_token) :: EvWriteFile written :: later
         /\ (later = [EvProxy (managed_call req (VStr access))]
             \/ later = [EvProxy (managed_call req (VStr access)); EvAbort]).
Proof.
  intros P req w members refresh_token response text json refresh access n
         Hs Hn Hrt Hf Hok Hb Hj Hr Ha He _ _ _ _ r t record.
  destruct (stringify_record (VStr refresh) (VStr access) (VNum (Int (t + n * 1000)))
              (toISOString P t)) as [written Hw].
  pose proof (refresh_run P req w members refresh_token response text json
                (VStr refresh) (VStr access) n written
                Hs Hn Hrt Hf Hok Hb Hj Hr Ha He Hw) as Run.
  cbv zeta in Run. fold t in Run.
  destruct (forward_managed_cases P req (VStr access) (mkWorld (Some written) t))
    as [Tf Ev].
  cbv zeta in Tf, Ev. cbn [token_file] in Tf.
  assert (Tr : token_file (world r) = Some written).
  { subst r. rewrite Run. exact Tf. }
  split.
  - rewrite (stored_outcome _ _ Tr). now apply record_roundtrip.
  - exists written, (events (forward_managed P req (VStr access)
                               (mkWorld (Some written) t))).
    split; [exact Hw|]. split; [exact Tr|]. split; [|exact Ev].
    subst r. now rewrite Run.
Qed.


(** X5.  Without a usable access token the handler refreshes first, whatever
    the expiry says. *)
Theorem missing_access_token_refreshes :
  forall (P : Platform) (req : Request) (w : World) (auth access : value),
    outcome (getStoredTokens w) = Ret auth -> truthy auth = true ->
    get_prop auth "access" = Ret access -> truthy access = false ->
    exists refresh_token later,
      get_prop auth "refresh" = Ret refresh_token
      /\ events (claude_code_proxy P req w)
         = EvFetch (refresh_call refresh_token) :: later
      /\ fetches later = [].
Proof.
  intros P req w auth access Hs Ht Ha Hf.
  assert (Hn : outcome (needs_refresh auth w) = Ret true).
  { unfold needs_refresh. rewrite Ha, (bind_reads _ _ _ _ (reads_lift _ _)), Hf.
    reflexivity. }
  rewrite (gate_run P req w auth true Hs Ht Hn).
  assert (Hrt : exists refresh_token, get_prop auth "refresh" = Ret refresh_token).
  { destruct auth as [| |b|x|s|items|members]; try discriminate; try (eexists; reflexivity).
    rewrite get_prop_object. eexists; reflexivity. }
  destruct Hrt as [refresh_token Hrt]. exists refresh_token.
  rewrite Hrt, (bind_reads _ _ _ _ (reads_lift _ _)), events_bind.
  eexists. split; [reflexivity|]. split; [reflexivity|].
  destruct (outcome (await_fetch P _ w)) as [response|err|]; try reflexivity.
  destruct (negb (ok response)); [reflexivity|].
  apply free_after_refresh_fetch.
Qed.

Lemma converts_to_NaN_number (v : value) :
  converts_to_NaN v = true -> to_number v = Some NaN.
Proof.
  destruct v as [| |b|[n|]|s|items|members]; try discriminate; reflexivity.
Qed.

(** X6.  A record with a string access token whose [expires] is missing,
    or is an object that converts to [NaN], is never refreshed: at every
    clock reading [auth.expires < Date.now()] is false and the handler
    forwards with the stored token.  Stated for a token on which line 97
    does not throw (no NUL, line feed or carriage return). *)
Theorem unreadable_expiry_never_refreshes :
  forall (P : Platform) (req : Request) (w : World) (auth expires : value)
         (token : string),
    outcome (getStoredTokens w) = Ret auth -> truthy auth = true ->
    get_prop auth "access" = Ret (VStr token) -> token <> "" ->
    Headers.clean token = true ->
    get_prop auth "expires" = Ret expires -> converts_to_NaN expires = true ->
    claude_code_proxy P req w = forward_managed P req (VStr token) w
    /\ fetches (events (claude_code_proxy P req w)) = []
    /\ proxied (events (claude_code_proxy P req w)) = [managed_call req (VStr token)].
Proof.
  intros P req w auth expires token Hs Ht Ha Hf _ He Hx.
  apply converts_to_NaN_number in Hx.
  assert (Tt : truthy (VStr token) = true).
  { cbn [truthy]. apply negb_true_iff. now apply String.eqb_neq. }
  assert (Hn : outcome (needs_refresh auth w) = Ret false).
  { unfold needs_refresh. rewrite Ha, (bind_reads _ _ _ _ (reads_lift _ _)), Tt.
    cbn [negb]. rewrite He, (bind_reads _ _ _ _ (reads_lift _ _)).
    rewrite (bind_reads _ _ _ _ (reads_Date_now _)).
    unfold lift_option. rewrite Hx, (bind_reads _ _ _ _ (reads_lift _ _)).
    reflexivity. }
  assert (E : claude_code_proxy P req w = forward_managed P req (VStr token) w).
  { rewrite (gate_run P req w auth false Hs Ht Hn).
    now rewrite Ha, (bind_reads _ _ _ _ (reads_lift _ _)). }
  split; [exact E|]. rewrite E.
  split; [apply free_forward_fetch | apply forward_managed_proxied].
Qed.

(** X7.  A token file that is not JSON makes the handler throw the parse
    error; one that holds a falsy JSON value ([null], [false], [0], the
    empty string) is answered like a missing file.  Either way nothing is
    sent and nothing changes. *)
Theorem unusable_token_file :
  forall (P : Platform) (req : Request) (w : World) (text : string),
    token_file w = Some text ->
    (forall e, JSON_parse text = Throw e ->
               claude_code_proxy P req w = mkRun (Throw e) w [])
    /\ (forall v, JSON_parse text = Ret v -> truthy v = false ->
                  claude_code_proxy P req w = mkRun (Ret unauthenticated) w []).
Proof.
  intros P req w text Hf. pose proof (stored_outcome w text Hf) as Hs.
  destruct (gate_stops P req w) as (T & _ & F & _).
  split.
  - intros e He. apply T. now rewrite Hs.
  - intros v Hv Ht. apply (F v); [now rewrite Hs | exact Ht].
Qed.

End GateFacts.

Section ExchangeFacts.
Import Str Js Net Routing Auth App.

(** [exchange] after a success answer with an integer [expires_in]. *)
Lemma exchange_success_run (P : Platform) (code verifier : string) (w : World)
      (response : Response) (text : string) (json refresh access : value) (n : Z)
      (written : string) :
  snd (fetch P (exchange_call code verifier)) = Ret response -> ok response = true ->
  body response = Some text -> JSON_parse text = Ret json ->
  get_prop json "refresh_token" = Ret refresh ->
  get_prop json "access_token" = Ret access ->
  get_prop json "expires_in" = Ret (VNum (Int n)) ->
  let t := now w + fst (fetch P (exchange_call code verifier)) in
  JSON_stringify_2 (tokenData refresh access (VNum (Int (t + n * 1000))) (toISOString P t))
  = Some written ->
  exchange P code verifier w
  = mkRun (Ret success) (mkWorld (Some written) t)
          [EvFetch (exchange_call code verifier); EvWriteFile written].
Proof.
  intros Hf Hok Hb Hj Hr Ha He t Hw. unfold exchange.
  rewrite bind_run, await_fetch_run. cbn [outcome world events].
  rewrite Hf, Hok. cbn [negb]. unfold response_json.
  rewrite Hb, Hj, (bind_reads _ _ _ _ (reads_lift _ _)).
  rewrite Hr, (bind_reads _ _ _ _ (reads_lift _ _)).
  rewrite Ha, (bind_reads _ _ _ _ (reads_lift _ _)).
  rewrite (bind_reads _ _ _ _ (reads_Date_now _)).
  rewrite He, (bind_reads _ _ _ _ (reads_lift _ _)).
  rewrite (bind_reads _ _ _ _ (reads_expiry _ _ _)).
  rewrite bind_run.
  change (now (advance (fst (fetch P (exchange_call code verifier))) w)) with t.
  rewrite (storeTokens_run P _ _ _
             (advance (fst (fetch P (exchange_call code verifier))) w) _ Hw).
  reflexivity.
Qed.

(** X8.  The tokens of a successful exchange serve later requests: until the
    expiry ([Date.now()] at the answer plus [expires_in * 1000]) the managed
    handler forwards with the exchanged access token and makes no token
    call; after it, the first thing it does is a refresh call with the
    exchanged refresh token.  Stated for an access token on which line 97
    does not throw (no NUL, line feed or carriage return) and for a clock,
    a product and a sum that are safe integers, where the arithmetic of
    JavaScript is exact. *)
Theorem exchanged_tokens_serve_the_gate :
  forall (P : Platform) (code verifier : string) (w : World)
         (response : Response) (text : string) (json : value)
         (refresh access : string) (n : Z) (req : Request) (later_world : World),
    snd (fetch P (exchange_call code verifier)) = Ret response -> ok response = true ->
    body response = Some text -> JSON_parse text = Ret json ->
    get_prop json "refresh_token" = Ret (VStr refresh) ->
    get_prop json "access_token" = Ret (VStr access) -> access <> "" ->
    get_prop json "expires_in" = Ret (VNum (Int n)) ->
    Headers.clean access = true ->
    safe_integer (now w + fst (fetch P (exchange_call code verifier))) = true ->
    safe_integer (n * 1000) = true ->
    safe_integer (now w + fst (fetch P (exchange_call code verifier)) + n * 1000) = true ->
    token_file later_world = token_file (world (exchange P code verifier w)) ->
    let expiry := now w + fst (fetch P (exchange_call code verifier)) + n * 1000 in
    let r := claude_code_proxy P req later_world in
    (now later_world <= expiry ->
       fetches (events r) = []
       /\ proxied (events r) = [managed_call req (VStr access)])
    /\ (expiry < now later_world ->
        exists later,
          events r = EvFetch (refresh_call (VStr refresh)) :: later
          /\ fetches later = []).
Proof.
  intros P code verifier w response text json refresh access n req later_world
         Hf Hok Hb Hj Hr Ha Na He _ _ _ _ Hfile expiry r.
  set (t := now w + fst (fetch P (exchange_call code verifier))) in *.
  destruct (stringify_record (VStr refresh) (VStr access) (VNum (Int (t + n * 1000)))
              (toISOString P t)) as [written Hw].
  rewrite (exchange_success_run P code verifier w response text json
             (VStr refresh) (VStr access) n written Hf Hok Hb Hj Hr Ha He Hw)
    in Hfile.
  cbn [world token_file] in Hfile.
  pose proof (record_roundtrip _ _ _ _ _ Hw) as Hp.
  set (auth := tokenData (VStr refresh) (VStr access) (VNum (Int (t + n * 1000)))
                         (toISOString P t)) in *.
  assert (Hs : outcome (getStoredTokens later_world) = Ret auth)
    by now rewrite (stored_outcome _ _ Hfile).
  pose proof (reads_needs_refresh_record auth access (t + n * 1000) later_world
                eq_refl Na eq_refl) as Rn.
  destruct (run_reads _ _ _ Rn) as [Hn _].
  pose proof (gate_run P req later_world auth _ Hs eq_refl Hn) as Run.
  fold r in Run. subst expiry. split.
  - intros L. apply Z.ltb_ge in L. rewrite L in Run.
    change (get_prop auth "access") with (Ret (VStr access)) in Run.
    rewrite (bind_reads _ _ _ _ (reads_lift _ _)) in Run. rewrite Run.
    split; [apply free_forward_fetch | apply forward_managed_proxied].
  - intros L. apply Z.ltb_lt in L. rewrite L in Run.
    change (get_prop auth "refresh") with (Ret (VStr refresh)) in Run.
    rewrite (bind_reads _ _ _ _ (reads_lift _ _)) in Run.
    rewrite Run, events_bind. eexists. split; [reflexivity|].
    destruct (outcome (await_fetch P _ later_world)) as [resp|err|]; try reflexivity.
    destruct (negb (ok resp)); [reflexivity|].
    apply free_after_refresh_fetch.
Qed.

Lemma split_at_separator (sep : ascii) (a b : string) :
  occurs sep a = false ->
  split sep (a ++ String sep b) = a :: split sep b.
Proof.
  induction a as [|c a IH]; intros H.
  - simpl. now rewrite Ascii.eqb_refl.
  - simpl in *. apply orb_false_iff in H as [Hc Ha].
    rewrite Hc, (IH Ha). reflexivity.
Qed.

(** X9.  A code of the form [a#b] is sent as code [a] with state [b]; when
    [b] has further [#], only its part before the next [#] is the state and
    the rest is not sent. *)
Theorem exchange_splits_code_and_state :
  forall (a b verifier : string),
    occurs "#" a = false ->
    let code := a ++ String "#" b in
    element (split "#" code) 0 = VStr a
    /\ (occurs "#" b = false ->
        element (split "#" code) 1 = VStr b
        /\ exists text,
             c_body (exchange_call code verifier) = Some text
             /\ JSON_parse text
                = Ret (VObj [("code", VStr a); ("state", VStr b);
                             ("grant_type", VStr "authorization_code");
                             ("client_id", VStr CLIENT_ID);
                             ("redirect_uri", VStr REDIRECT_URI);
                             ("code_verifier", VStr verifier)]))
    /\ (forall b1 b2, b = b1 ++ String "#" b2 -> occurs "#" b1 = false ->
                      element (split "#" code) 1 = VStr b1).
Proof.
  intros a b verifier Ha code. subst code.
  rewrite (split_at_separator "#" a b Ha).
  split; [reflexivity|]. split.
  - intros Hb. rewrite (split_without_separator "#" b Hb).
    split; [reflexivity|].
    destruct (JSON_roundtrip_flat
                [("code", VStr a); ("state", VStr b);
                 ("grant_type", VStr "authorization_code");
                 ("client_id", VStr CLIENT_ID);
                 ("redirect_uri", VStr REDIRECT_URI);
                 ("code_verifier", VStr verifier)])
      as [[text [Et Ep]] _]; [discriminate | reflexivity |].
    exists text. split; [|exact Ep].
    unfold exchange_call, exchange_body. cbn [c_body].
    rewrite (split_at_separator "#" a b Ha), (split_without_separator "#" b Hb).
    exact Et.
  - intros b1 b2 -> Hb1. now rewrite (split_at_separator "#" b1 b2 Hb1).
Qed.

Lemma JSON_stringify_2_object (members : list (string * value)) :
  exists text, JSON_stringify_2 (VObj members) = Some text.
Proof. eexists. reflexivity. Qed.

Lemma reads_expiry_number (t : Z) (expires_in : value) (seconds : number) (w : World) :
  to_number expires_in = Some seconds ->
  reads (expiry t expires_in) w (Ret (VNum (add (Int t) (mul seconds (Int 1000))))).
Proof. intros H. unfold expiry, lift_option. now rewrite H. Qed.

Lemma reads_expiry_unmodelled (t : Z) (expires_in : value) (w : World) :
  to_number expires_in = None -> reads (expiry t expires_in) w Unmodelled.
Proof. intros H. unfold expiry, lift_option. now rewrite H. Qed.

(** The runs of [exchange] after a success status. *)
Lemma exchange_after_ok (P : Platform) (result : Response) (w : World) :
  let rest :=
    bind (response_json result) (fun json =>
    bind (lift (get_prop json "refresh_token")) (fun refresh =>
    bind (lift (get_prop json "access_token")) (fun access =>
    bind Date_now (fun t =>
    bind (lift (get_prop json "expires_in")) (fun expires_in =>
    bind (expiry t expires_in) (fun expires =>
    bind (storeTokens P refresh access expires) (fun _ =>
    ret success))))))) in
  (exists text, rest w = mkRun (Ret success) (mkWorld (Some text) (now w))
                               [EvWriteFile text])
  \/ (exists o, o <> Ret success /\ rest w = mkRun o w []).
Proof.
  intros rest. subst rest. unfold response_json.
  assert (Stop : forall e : Error, @Throw value e <> Ret success) by discriminate.
  assert (Stop' : @Unmodelled value <> Ret success) by discriminate.
  destruct (match body result with
            | Some text => JSON_parse text
            | None => Throw SyntaxError
            end) as [json|e|];
    [rewrite (bind_reads _ _ _ _ (reads_lift _ _))
    | right; eexists; split; [apply (Stop e)|]; now rewrite (bind_reads_throw _ _ _ _ (reads_lift _ _))
    | right; eexists; split; [apply Stop'|]; now rewrite (bind_reads_unmodelled _ _ _ (reads_lift _ _))].
  destruct (get_prop json "refresh_token") as [refresh|e|];
    [rewrite (bind_reads _ _ _ _ (reads_lift _ _))
    | right; eexists; split; [apply (Stop e)|]; now rewrite (bind_reads_throw _ _ _ _ (reads_lift _ _))
    | right; eexists; split; [apply Stop'|]; now rewrite (bind_reads_unmodelled _ _ _ (reads_lift _ _))].
  destruct (get_prop json "access_token") as [access|e|];
    [rewrite (bind_reads _ _ _ _ (reads_lift _ _))
    | right; eexists; split; [apply (Stop e)|]; now rewrite (bind_reads_throw _ _ _ _ (reads_lift _ _))
    | right; eexists; split; [apply Stop'|]; now rewrite (bind_reads_unmodelled _ _ _ (reads_lift _ _))].
  rewrite (bind_reads _ _ _ _ (reads_Date_now _)).
  destruct (get_prop json "expires_in") as [expires_in|e|];
    [rewrite (bind_reads _ _ _ _ (reads_lift _ _))
    | right; eexists; split; [apply (Stop e)|]; now rewrite (bind_reads_throw _ _ _ _ (reads_lift _ _))
    | right; eexists; split; [apply Stop'|]; now rewrite (bind_reads_unmodelled _ _ _ (reads_lift _ _))].
  destruct (to_number expires_in) as [seconds|] eqn:En.
  - rewrite (bind_reads _ _ _ _ (reads_expiry_number _ _ _ _ En)).
    destruct (JSON_stringify_2_object
                [("refresh", refresh); ("access", access);
                 ("expires", VNum (add (Int (now w)) (mul seconds (Int 1000))));
                 ("updated_at", VStr (toISOString P (now w)))]) as [text Et].
    left. exists text.
    rewrite bind_run, (storeTokens_run _ _ _ _ _ _ Et). reflexivity.
  - right. exists Unmodelled. split; [exact Stop'|].
    now rewrite (bind_reads_unmodelled _ _ _ (reads_expiry_unmodelled _ _ _ En)).
Qed.

(** X10.  [exchange] returns the success object exactly when it has written the
    token file, and it writes at most once; when it returns anything else or
    throws, the token file is as it was.  It calls the provider once, never
    again. *)
Theorem exchange_success_iff_stored :
  forall (P : Platform) (code verifier : string) (w : World),
    let r := exchange P code verifier w in
    (outcome r = Ret success <-> writes (events r) <> [])
    /\ (outcome r = Ret success ->
        exists text, writes (events r) = [text] /\ token_file (world r) = Some text)
    /\ (outcome r <> Ret success -> token_file (world r) = token_file w)
    /\ fetches (events r) = [exchange_call code verifier].
Proof.
  intros P code verifier w r.
  assert (Cases : (exists text, outcome r = Ret success
                                /\ writes (events r) = [text]
                                /\ token_file (world r) = Some text)
                  \/ (outcome r <> Ret success /\ writes (events r) = []
                      /\ token_file (world r) = token_file w)).
  { subst r. unfold exchange. rewrite bind_run, await_fetch_run.
    cbn [outcome world events].
    destruct (snd (fetch P (exchange_call code verifier))) as [result|e|];
      [|right; cbn; repeat split; discriminate|right; cbn; repeat split; discriminate].
    destruct (ok result); cbn [negb];
      [|right; cbn; repeat split; discriminate].
    destruct (exchange_after_ok P result
                (advance (fst (fetch P (exchange_call code verifier))) w))
      as [[text E]|[o [No E]]]; cbv zeta in E; rewrite E; cbn.
    - left. exists text. now repeat split.
    - right. now repeat split. }
  split; [|split; [|split]].
  - destruct Cases as [(text & O & W & _)|(O & W & _)]; split; intros H.
    + rewrite W. discriminate.
    + exact O.
    + contradiction.
    + rewrite W in H. now elim H.
  - intros O. destruct Cases as [(text & _ & W & T)|(O' & _)]; [|contradiction].
    now exists text.
  - intros O. destruct Cases as [(text & O' & _)|(_ & _ & T)]; [contradiction|exact T].
  - apply exchange_fetches_once.
Qed.

(** X11.  The errors of [exchange].  A network failure of the token call, a
    success answer whose body is not JSON, and a success answer whose body is
    the JSON text [null] all make [exchange] throw (the last a [TypeError]);
    the token file is not written. *)
Theorem exchange_failures_throw :
  forall (P : Platform) (code verifier : string) (w : World),
    let call := exchange_call code verifier in
    let r := exchange P code verifier w in
    (forall e, snd (fetch P call) = Throw e ->
               outcome r = Throw e /\ events r = [EvFetch call])
    /\ (forall response text e,
          snd (fetch P call) = Ret response -> ok response = true ->
          body response = Some text -> JSON_parse text = Throw e ->
          outcome r = Throw e /\ events r = [EvFetch call])
    /\ (forall response text,
          snd (fetch P call) = Ret response -> ok response = true ->
          body response = Some text -> JSON_parse text = Ret VNull ->
          outcome r = Throw TypeError /\ events r = [EvFetch call]).
Proof.
  intros P code verifier w call r. subst r. unfold exchange.
  rewrite bind_run, await_fetch_run. cbn [outcome world events]. fold call.
  split; [|split].
  - intros e Hf. rewrite Hf. now split.
  - intros response text e Hf Hok Hb Hp. rewrite Hf, Hok. cbn [negb].
    unfold response_json. rewrite Hb, Hp.
    rewrite (bind_reads_throw _ _ _ _ (reads_lift _ _)). now split.
  - intros response text Hf Hok Hb Hp. rewrite Hf, Hok. cbn [negb].
    unfold response_json. rewrite Hb, Hp.
    rewrite (bind_reads _ _ _ _ (reads_lift _ _)). cbn [get_prop].
    rewrite (bind_reads_throw _ _ _ _ (reads_lift _ _)). now split.
Qed.

(** X12.  The exchange route answers with status 200 whatever [exchange]
    returned: a refusal of the provider shows only in the body. *)
Theorem exchange_route_status_200 :
  forall (P : Platform) (code verifier : string) (w : World) (response : Response),
    snd (fetch P (exchange_call code verifier)) = Ret response -> ok response = false ->
    exists answer text,
      outcome (claude_code_exchange P code verifier w) = Ret answer
      /\ status answer = 200
      /\ body answer = Some text
      /\ JSON_parse text = Ret failed.
Proof.
  intros P code verifier w response Hf Hok.
  unfold claude_code_exchange, exchange.
  rewrite !bind_run, await_fetch_run. cbn [outcome world events].
  rewrite Hf, Hok. cbn. eexists. eexists.
  split; [reflexivity|]. split; [reflexivity|]. split; [reflexivity|].
  vm_compute. reflexivity.
Qed.

End ExchangeFacts.

(** ** Invariants of the managed handler *)

Section Invariants.
Import Str Js Net Routing Auth App.

Ltac free_step :=
  first
    [ apply free_ret | apply free_lift | apply free_lift_option | apply free_Date_now
    | apply free_getStoredTokens
    | apply free_writeFileSync_fetch | apply free_writeFileSync_proxy
    | apply free_await_fetch_proxy | apply free_await_fetch_write
    | apply free_await_proxy_fetch | apply free_await_proxy_write
    | apply free_bind; [|intros ?]
    | match goal with
      | |- free _ (if ?b then _ else _) => destruct b
      | |- free _ (match ?x with _ => _ end) => destruct x
      | |- free _ (let (_, _) := ?x in _) => destruct x
      end ].

Ltac free_tac := repeat free_step.

Lemma once_free {A X} (select : Event -> list X) (m : M A) :
  free select m -> at_most_once select m.
Proof. intros F w. rewrite (F w). cbn. lia. Qed.

Lemma once_after {A B X} (select : Event -> list X) (m : M A) (k : A -> M B) :
  free select m -> (forall a, at_most_once select (k a)) ->
  at_most_once select (bind m k).
Proof.
  intros F K w. rewrite events_bind, flat_map_app, (F w). cbn [List.app].
  destruct (outcome (m w)) as [a|e|]; [apply K | cbn; lia | cbn; lia].
Qed.

Lemma once_before {A B X} (select : Event -> list X) (m : M A) (k : A -> M B) :
  at_most_once select m -> (forall a, free select (k a)) ->
  at_most_once select (bind m k).
Proof.
  intros O K w. rewrite events_bind, flat_map_app.
  destruct (outcome (m w)) as [a|e|]; [rewrite (K a) | cbn [flat_map] | cbn [flat_map]];
    rewrite app_nil_r; apply O.
Qed.

Lemma once_await_fetch (P : Platform) (c : Call) : at_most_once fetch_of (await_fetch P c).
Proof. intros w. cbn. lia. Qed.

Lemma once_await_proxy (P : Platform) (c : Call) (timeout : Z) :
  at_most_once proxy_of (await_proxy P c timeout).
Proof.
  intros w. unfold await_proxy.
  destruct (upstream P c) as [t res|t err|]; try destruct (t <? timeout); cbn; lia.
Qed.

Lemma once_writeFileSync (data : option string) : at_most_once write_of (writeFileSync data).
Proof. intros w. destruct data; cbn; lia. Qed.

Lemma free_forward_write (P : Platform) (req : Request) (access : value) :
  free write_of (forward_managed P req access).
Proof. unfold forward_managed, fetchWithTimeout. free_tac. Qed.

Lemma once_forward_proxy (P : Platform) (req : Request) (access : value) :
  at_most_once proxy_of (forward_managed P req access).
Proof.
  unfold forward_managed, fetchWithTimeout.
  apply once_before; [|intros ?; free_tac].
  apply once_before; [apply once_await_proxy|intros ?; free_tac].
Qed.

Lemma free_storeTokens_proxy (P : Platform) (refresh access expires : value) :
  free proxy_of (storeTokens P refresh access expires).
Proof. unfold storeTokens. free_tac. Qed.

Lemma once_storeTokens (P : Platform) (refresh access expires : value) :
  at_most_once write_of (storeTokens P refresh access expires).
Proof.
  unfold storeTokens. apply once_after; [free_tac|intros ?; apply once_writeFileSync].
Qed.

(** *** The token file and the writes *)

Lemma file_after_app (t t' : list Event) (before : option string) :
  file_after (t ++ t') before = file_after t' (file_after t before).
Proof. unfold file_after, writes. now rewrite flat_map_app, fold_left_app. Qed.

Lemma file_after_unwritten (t : list Event) (before : option string) :
  writes t = [] -> file_after t before = before.
Proof. unfold file_after. now intros ->. Qed.

Lemma tracks_ret {A} (a : A) : tracks_file (ret a).
Proof. intros w. reflexivity. Qed.

Lemma tracks_lift {A} (o : Outcome A) : tracks_file (lift o).
Proof. intros w. reflexivity. Qed.

Lemma tracks_lift_option {A} (o : option A) : tracks_file (lift_option o).
Proof. intros w. reflexivity. Qed.

Lemma tracks_Date_now : tracks_file Date_now.
Proof. intros w. reflexivity. Qed.

Lemma tracks_getStoredTokens : tracks_file getStoredTokens.
Proof. intros [file t]. unfold getStoredTokens. cbn. now destruct file. Qed.

Lemma tracks_await_fetch (P : Platform) (c : Call) : tracks_file (await_fetch P c).
Proof. intros w. reflexivity. Qed.

Lemma tracks_await_proxy (P : Platform) (c : Call) (timeout : Z) :
  tracks_file (await_proxy P c timeout).
Proof.
  intros w. unfold await_proxy.
  destruct (upstream P c) as [t res|t err|]; try destruct (t <? timeout); reflexivity.
Qed.

Lemma tracks_writeFileSync (data : option string) : tracks_file (writeFileSync data).
Proof. intros w. now destruct data. Qed.

Lemma tracks_bind {A B} (m : M A) (k : A -> M B) :
  tracks_file m -> (forall a, tracks_file (k a)) -> tracks_file (bind m k).
Proof.
  intros Hm Hk w. rewrite bind_run. specialize (Hm w).
  destruct (outcome (m w)) as [a|e|]; cbn [world events]; [|exact Hm|exact Hm].
  now rewrite file_after_app, <- Hm, (Hk a).
Qed.

Ltac tracks_step :=
  first
    [ apply tracks_ret | apply tracks_lift | apply tracks_lift_option
    | apply tracks_Date_now | apply tracks_getStoredTokens
    | apply tracks_await_fetch | apply tracks_await_proxy | apply tracks_writeFileSync
    | apply tracks_bind; [|intros ?]
    | match goal with
      | |- tracks_file (if ?b then _ else _) => destruct b
      | |- tracks_file (match ?x with _ => _ end) => destruct x
      | |- tracks_file (let (_, _) := ?x in _) => destruct x
      end ].

Ltac tracks_tac := repeat tracks_step.

Lemma tracks_exchange (P : Platform) (code verifier : string) :
  tracks_file (exchange P code verifier).
Proof. unfold exchange, response_json, expiry, storeTokens. tracks_tac. Qed.

Lemma tracks_claude_code_proxy (P : Platform) (req : Request) :
  tracks_file (claude_code_proxy P req).
Proof.
  unfold claude_code_proxy, needs_refresh, after_refresh, forward_managed,
    fetchWithTimeout, response_json, expiry, storeTokens.
  tracks_tac.
Qed.

Lemma tracks_routing_middleware (P : Platform) (table : list ProxyEntry) (req : Request) :
  tracks_file (routing_middleware P table req).
Proof. unfold routing_middleware, fetchWithTimeout. tracks_tac. Qed.

(** *** One request, one attempt *)

Lemma free_needs_refresh {X} (select : Event -> list X) (auth : value) :
  free select (needs_refresh auth).
Proof. unfold needs_refresh. free_tac. Qed.

Lemma once_gate_fetch (P : Platform) (req : Request) :
  at_most_once fetch_of (claude_code_proxy P req).
Proof.
  unfold claude_code_proxy.
  apply once_after; [free_tac|intros auth].
  destruct (negb (truthy auth)); [apply once_free; free_tac|].
  apply once_after; [apply free_needs_refresh|intros stale].
  destruct stale.
  - apply once_after; [free_tac|intros rt].
    apply once_before; [apply once_await_fetch|intros response].
    destruct (negb (ok response)); [free_tac|].
    intros w. apply free_after_refresh_fetch.
  - apply once_free. apply free_bind; [free_tac|intros access].
    apply free_forward_fetch.
Qed.

Lemma once_after_refresh_write (P : Platform) (req : Request) (auth : value)
      (response : Response) :
  at_most_once write_of (after_refresh P req auth response).
Proof.
  unfold after_refresh, response_json, expiry.
  do 6 (apply once_after; [free_tac|intros ?]).
  apply once_before; [apply once_storeTokens|intros ?].
  do 2 (apply free_bind; [free_tac|intros ?]).
  apply free_forward_write.
Qed.

Lemma once_gate_write (P : Platform) (req : Request) :
  at_most_once write_of (claude_code_proxy P req).
Proof.
  unfold claude_code_proxy.
  apply once_after; [free_tac|intros auth].
  destruct (negb (truthy auth)); [apply once_free; free_tac|].
  apply once_after; [apply free_needs_refresh|intros stale].
  destruct stale.
  - apply once_after; [free_tac|intros rt].
    apply once_after; [free_tac|intros response].
    destruct (negb (ok response)); [apply once_free; free_tac|].
    apply once_after_refresh_write.
  - apply once_free. apply free_bind; [free_tac|intros access].
    apply free_forward_write.
Qed.

Lemma once_gate_proxy (P : Platform) (req : Request) :
  at_most_once proxy_of (claude_code_proxy P req).
Proof.
  unfold claude_code_proxy.
  apply once_after; [free_tac|intros auth].
  destruct (negb (truthy auth)); [apply once_free; free_tac|].
  apply once_after; [apply free_needs_refresh|intros stale].
  destruct stale.
  - apply once_after; [free_tac|intros rt].
    apply once_after; [free_tac|intros response].
    destruct (negb (ok response)); [apply once_free; free_tac|].
    unfold after_refresh, response_json, expiry.
    do 6 (apply once_after; [free_tac|intros ?]).
    apply once_after; [apply free_storeTokens_proxy|intros ?].
    do 2 (apply once_after; [free_tac|intros ?]).
    apply once_forward_proxy.
  - apply once_after; [free_tac|intros access]. apply once_forward_proxy.
Qed.

(** A write of the handler follows a refresh call that the provider
    answered with a success status. *)
Lemma gate_write_after_refresh (P : Platform) (req : Request) (w : World) :
  writes (events (claude_code_proxy P req w)) <> [] ->
  exists auth refresh_token response,
    outcome (getStoredTokens w) = Ret auth
    /\ get_prop auth "refresh" = Ret refresh_token
    /\ snd (fetch P (refresh_call refresh_token)) = Ret response
    /\ ok response = true
    /\ fetches (events (claude_code_proxy P req w)) = [refresh_call refresh_token].
Proof.
  intros W. destruct (gate_stops P req w) as (S1 & S2 & S3 & S4 & S5).
  destruct (outcome (getStoredTokens w)) as [auth|e|] eqn:Hs;
    [|rewrite (S1 e eq_refl) in W; now elim W|rewrite (S2 eq_refl) in W; now elim W].
  destruct (truthy auth) eqn:T; [|rewrite (S3 auth eq_refl T) in W; now elim W].
  destruct (outcome (needs_refresh auth w)) as [stale|e|] eqn:Hn;
    [|rewrite (S4 auth eq_refl T e Hn) in W; now elim W
     |rewrite (S5 auth eq_refl T Hn) in W; now elim W].
  rewrite (gate_run P req w auth stale Hs T Hn) in *. destruct stale.
  - destruct (get_prop auth "refresh") as [rt|e|] eqn:Hr;
      [rewrite (bind_reads _ _ _ _ (reads_lift _ _)) in *
      |rewrite (bind_reads_throw _ _ _ _ (reads_lift _ _)) in W; now elim W
      |rewrite (bind_reads_unmodelled _ _ _ (reads_lift _ _)) in W; now elim W].
    rewrite bind_run, await_fetch_run in *. cbn [outcome world events] in *.
    destruct (snd (fetch P (refresh_call rt))) as [response|e|] eqn:Hf;
      [|now elim W|now elim W].
    destruct (ok response) eqn:Hok; cbn [negb] in *; [|now elim W].
    exists auth, rt, response. repeat split; try assumption; try reflexivity.
    cbn [events List.app fetches flat_map fetch_of]. f_equal.
    apply free_after_refresh_fetch.
  - exfalso. apply W.
    assert (F : free write_of (bind (lift (get_prop auth "access"))
                                 (fun access => forward_managed P req access))).
    { apply free_bind; [free_tac|intros ?; apply free_forward_write]. }
    apply F.
Qed.

(** X13.  One request makes the managed handler try once.  It makes at most
    one token call, writes the token file at most once and forwards at most
    one call.  It writes only after a refresh call that the provider
    answered with a success status, and the token file changes only by that
    write: after the request it holds the text written, or what it held
    before. *)
Theorem gate_tries_once :
  forall (P : Platform) (req : Request) (w : World),
    let r := claude_code_proxy P req w in
    (length (fetches (events r)) <= 1)%nat
    /\ (length (writes (events r)) <= 1)%nat
    /\ (length (proxied (events r)) <= 1)%nat
    /\ (writes (events r) <> [] ->
        exists auth refresh_token response,
          outcome (getStoredTokens w) = Ret auth
          /\ get_prop auth "refresh" = Ret refresh_token
          /\ snd (fetch P (refresh_call refresh_token)) = Ret response
          /\ ok response = true
          /\ fetches (events r) = [refresh_call refresh_token])
    /\ (writes (events r) = [] -> token_file (world r) = token_file w)
    /\ (forall text, writes (events r) = [text] -> token_file (world r) = Some text).
Proof.
  intros P req w r. subst r.
  split; [apply once_gate_fetch|]. split; [apply once_gate_write|].
  split; [apply once_gate_proxy|]. split; [apply gate_write_after_refresh|].
  pose proof (tracks_claude_code_proxy P req w) as T. unfold file_after in T.
  split.
  - intros W. now rewrite T, W.
  - intros text W. now rewrite T, W.
Qed.

End Invariants.

(** ** The routing table as it stands *)

Section TableFacts.
Import Str Sanitizer Js Net Routing Auth App.

Lemma startsWith_nil (s : string) : startsWith s "" = true.
Proof. now destruct s. Qed.

Lemma startsWith_cons (c d : ascii) (s p : string) :
  startsWith (String c s) (String d p) = Ascii.eqb d c && startsWith s p.
Proof.
  unfold startsWith. cbn [String.prefix].
  destruct (ascii_dec d c) as [->|N].
  - now rewrite Ascii.eqb_refl.
  - apply Ascii.eqb_neq in N. now rewrite N.
Qed.

Lemma startsWith_app (p rest : string) : startsWith (p ++ rest) p = true.
Proof.
  induction p as [|c p IH]; [apply startsWith_nil|].
  cbn [append]. now rewrite startsWith_cons, Ascii.eqb_refl.
Qed.

Lemma matches_segment (u : URL) (p : ProxyEntry) (rest : string) :
  pathname u = segment_pattern p ++ rest -> matches u p = true.
Proof. intros E. unfold matches. now rewrite E, startsWith_app. Qed.

Lemma targetUrl_segment (u : URL) (p : ProxyEntry) (rest : string) :
  pathname u = segment_pattern p ++ rest ->
  targetUrl p u = target p ++ "/" ++ rest ++ search u.
Proof.
  intros E. unfold targetUrl.
  now rewrite E, (replace_at_start (segment_pattern p) "/" rest), append_assoc.
Qed.

(** Decides [matches u q] for an entry [q] of the table when the path of
    [u] is known up to its rest. *)
Ltac decide_match M E H :=
  unfold matches, segment_pattern in M;
  cbn [pathSegment orHostname append] in M;
  rewrite E in M; cbn [append] in M;
  rewrite ?H in M;
  rewrite ?startsWith_cons, ?startsWith_nil in M;
  cbn [Ascii.eqb Bool.eqb andb orb negb String.eqb] in M.

(** The entry that [find] gives for a path under a segment of the table. *)
Lemma segment_found :
  forall (p : ProxyEntry) (u : URL) (rest : string),
    In p proxies ->
    hostname u <> "gooai.chatkit.app" ->
    pathname u = segment_pattern p ++ rest ->
    (pathSegment p = "openrouter" -> startsWith rest "api/" = false) ->
    find_proxy proxies u = Some p
    /\ resolve proxies u = Some (target p ++ "/" ++ rest ++ search u).
Proof.
  intros p u rest I H E X. apply String.eqb_neq in H.
  assert (F : find_proxy proxies u = Some p).
  { pose proof E as E0. unfold segment_pattern in E.
    unfold find_proxy, proxies in *. cbn [In] in I.
    repeat (destruct I as [<-|I]; [|]); try contradiction;
      cbn [pathSegment append] in E, X;
      repeat (cbn [find];
              first
                [ rewrite (matches_segment u _ rest E0); reflexivity
                | match goal with
                  | |- context [matches u ?q] =>
                      let M := fresh "M" in
                      destruct (matches u q) eqn:M;
                      [ exfalso; decide_match M E H;
                        first [discriminate M | rewrite (X eq_refl) in M; discriminate M]
                      | ]
                  end ]). }
  split; [exact F|]. unfold resolve. rewrite F. f_equal.
  apply targetUrl_segment. exact E.
Qed.

(** X14.  The table as it stands.  Off the alternate host, a path that starts
    with [/segment/] of an entry reaches the target of that entry with the
    segment removed.  The one exception is a path [/openrouter/api/...]:
    the entry [openrouter/api], which comes first, takes it. *)
Theorem every_segment_reaches_its_target :
  forall (p : ProxyEntry) (u : URL) (rest : string),
    In p proxies ->
    hostname u <> "gooai.chatkit.app" ->
    pathname u = segment_pattern p ++ rest ->
    (pathSegment p = "openrouter" -> startsWith rest "api/" = false) ->
    find_proxy proxies u = Some p
    /\ resolve proxies u = Some (target p ++ "/" ++ rest ++ search u).
Proof. exact segment_found. Qed.

Lemma routing_middleware_proxied (P : Platform) (table : list ProxyEntry)
      (req : Request) (w : World) (proxy : ProxyEntry) :
  find_proxy table (url req) = Some proxy ->
  proxied (events (routing_middleware P table req w)) = [routed_call P proxy req].
Proof.
  intros F. unfold routing_middleware. rewrite F, events_bind.
  unfold proxied. rewrite flat_map_app.
  change (flat_map proxy_of (events (fetchWithTimeout P (routed_call P proxy req) 60000 w)))
    with (proxied (events (fetchWithTimeout P (routed_call P proxy req) 60000 w))).
  rewrite fetchWithTimeout_events.
  now destruct (outcome (fetchWithTimeout P (routed_call P proxy req) 60000 w)).
Qed.

(** X15.  In the routing-table middleware, a request on the alternate host
    [gooai.chatkit.app] selects the first entry, whatever its path, and the
    middleware calls [proxy] for that entry.  The target of a path without
    [/generativelanguage/] is the target of the entry followed by the whole
    path, also when the path starts with the segment of another entry; a
    path under [/generativelanguage/] loses that segment.  This is about
    the requests that reach the middleware: the routes registered before
    it ([/], [/claude-code/...], [/custom-model-proxy]) answer theirs
    themselves, on this host too. *)
Theorem alternate_host_selects_first_entry :
  forall (u : URL),
    hostname u = "gooai.chatkit.app" ->
    let first :=
      mkProxy "generativelanguage" "https://generativelanguage.googleapis.com"
              (Some "gooai.chatkit.app") in
    find_proxy proxies u = Some first
    /\ (forall P req w, url req = u ->
          proxied (events (middleware P req w)) = [routed_call P first req])
    /\ (absent "/generativelanguage/" (pathname u) ->
        resolve proxies u
        = Some ("https://generativelanguage.googleapis.com" ++ pathname u ++ search u))
    /\ (forall rest, pathname u = "/generativelanguage/" ++ rest ->
        resolve proxies u
        = Some ("https://generativelanguage.googleapis.com/" ++ rest ++ search u)).
Proof.
  intros u H first.
  assert (F : find_proxy proxies u = Some first).
  { unfold find_proxy, proxies. cbn [find]. unfold matches at 1.
    cbn [orHostname]. rewrite H. now rewrite orb_true_r. }
  split; [exact F|].
  split.
  { intros P req w Eu. subst u. unfold middleware.
    now apply routing_middleware_proxied. }
  unfold resolve. rewrite F. split.
  - intros A. unfold targetUrl. now rewrite (replace_absent _ _ _ A).
  - intros rest E.
    rewrite (targetUrl_segment u first rest E). reflexivity.
Qed.

(** X16.  A path that is only [/segment], without the slash after it, matches
    no entry and the middleware hands the request on, doing nothing.  The
    exception is [/openrouter/api], which the entry [openrouter] takes. *)
Theorem segment_without_slash_is_not_routed :
  forall (P : Platform) (p : ProxyEntry) (req : Request) (w : World),
    In p proxies ->
    hostname (url req) <> "gooai.chatkit.app" ->
    pathname (url req) = "/" ++ pathSegment p ->
    (pathSegment p <> "openrouter/api" ->
       find_proxy proxies (url req) = None
       /\ middleware P req w = mkRun (Ret None) w [])
    /\ (pathSegment p = "openrouter/api" ->
        resolve proxies (url req)
        = Some ("https://openrouter.ai/api/api" ++ search (url req))).
Proof.
  intros P p req w I H E. apply String.eqb_neq in H.
  unfold proxies in I. cbn [In] in I.
  split.
  - intros N.
    assert (F : find_proxy proxies (url req) = None).
    { unfold find_proxy, proxies, matches, segment_pattern.
      repeat (destruct I as [<-|I]; [|]); try contradiction;
        cbn [pathSegment] in E, N; try (now elim N);
        cbn [find pathSegment orHostname append]; rewrite E, H;
        cbn [append]; rewrite ?startsWith_cons, ?startsWith_nil;
        cbn [Ascii.eqb Bool.eqb andb orb negb String.eqb startsWith String.prefix];
        reflexivity. }
    split; [exact F|]. unfold middleware, routing_middleware. now rewrite F.
  - intros S.
    assert (E' : pathname (url req) = "/openrouter/" ++ "api").
    { rewrite E, S. reflexivity. }
    destruct (segment_found (mkProxy "openrouter" "https://openrouter.ai/api" None)
                (url req) "api") as [_ R].
    + unfold proxies. cbn [In]. tauto.
    + now apply String.eqb_neq.
    + exact E'.
    + reflexivity.
    + exact R.
Qed.

End TableFacts.

(** ** What is forwarded, and the authorization URL *)

Section ForwardingFacts.
Import Str Sanitizer Js Net Routing Auth App.

Lemma fetchWithTimeout_answer (P : Platform) (c : Call) (timeout : Z) (w : World)
      (t : Z) (res : Response) :
  upstream P c = Responds t res -> t < timeout ->
  fetchWithTimeout P c timeout w = mkRun (Ret res) (advance t w) [EvProxy c].
Proof.
  intros U L. unfold fetchWithTimeout. rewrite bind_run. unfold await_proxy.
  rewrite U. apply Z.ltb_lt in L. now rewrite L.
Qed.

Lemma fetchWithTimeout_failure (P : Platform) (c : Call) (timeout : Z) (w : World)
      (t : Z) (err : Error) :
  upstream P c = Fails t err -> t < timeout ->
  fetchWithTimeout P c timeout w = mkRun (Throw err) (advance t w) [EvProxy c].
Proof.
  intros U L. unfold fetchWithTimeout. rewrite bind_run. unfold await_proxy.
  rewrite U. apply Z.ltb_lt in L. now rewrite L.
Qed.

Lemma response_eta (res : Response) :
  mkResponse (status res) (Net.headers res) (body res) = res.
Proof. now destruct res. Qed.

(** X17.  The routing middleware adds nothing to what [proxy] gives.  For a
    matched request it calls [proxy] exactly once, with the rewritten
    target, the method and the body of the request, and answers with the
    status, headers and body of the response that [proxy] resolved to; a
    rejection of [proxy] before the timeout is thrown on.  It never calls
    the token endpoint and never touches the token file.  What the library
    sends to the target and what it makes of the target's answer lie behind
    [proxy] and are not part of this. *)
Theorem routing_relays_what_proxy_gives :
  forall (P : Platform) (table : list ProxyEntry) (req : Request) (w : World)
         (proxy : ProxyEntry),
    find_proxy table (url req) = Some proxy ->
    let call := routed_call P proxy req in
    let r := routing_middleware P table req w in
    proxied (events r) = [call]
    /\ fetches (events r) = []
    /\ writes (events r) = []
    /\ token_file (world r) = token_file w
    /\ c_url call = targetUrl proxy (url req)
    /\ c_method call = method req
    /\ c_body call = req_body req
    /\ (forall t res, upstream P call = Responds t res -> t < 60000 ->
          outcome r = Ret (Some res) /\ now (world r) = now w + t)
    /\ (forall t err, upstream P call = Fails t err -> t < 60000 ->
          outcome r = Throw err /\ now (world r) = now w + t).
Proof.
  intros P table req w proxy F call r. subst r. unfold routing_middleware.
  rewrite F. fold call.
  destruct (fetchWithTimeout_cases P call 60000 w) as [T Ev].
  rewrite bind_run.
  assert (Evs : events
                  match outcome (fetchWithTimeout P call 60000 w) with
                  | Ret a =>
                      mkRun (outcome (ret (Some (mkResponse (status a) (Net.headers a) (body a)))
                                          (world (fetchWithTimeout P call 60000 w))))
                            (world (ret (Some (mkResponse (status a) (Net.headers a) (body a)))
                                        (world (fetchWithTimeout P call 60000 w))))
                            (events (fetchWithTimeout P call 60000 w)
                             ++ events (ret (Some (mkResponse (status a) (Net.headers a) (body a)))
                                            (world (fetchWithTimeout P call 60000 w))))
                  | Throw e => mkRun (Throw e) (world (fetchWithTimeout P call 60000 w))
                                     (events (fetchWithTimeout P call 60000 w))
                  | Unmodelled => mkRun Unmodelled (world (fetchWithTimeout P call 60000 w))
                                        (events (fetchWithTimeout P call 60000 w))
                  end
                = events (fetchWithTimeout P call 60000 w)).
  { destruct (outcome (fetchWithTimeout P call 60000 w)); cbn [events ret];
      rewrite ?app_nil_r; reflexivity. }
  rewrite Evs.
  split; [destruct Ev as [-> | ->]; reflexivity|].
  split; [destruct Ev as [-> | ->]; reflexivity|].
  split; [destruct Ev as [-> | ->]; reflexivity|].
  split.
  { destruct (outcome (fetchWithTimeout P call 60000 w)); exact T. }
  split; [reflexivity|]. split; [reflexivity|]. split; [reflexivity|].
  split.
  - intros t res U L. rewrite (fetchWithTimeout_answer P call 60000 w t res U L).
    cbn. now rewrite response_eta.
  - intros t err U L. rewrite (fetchWithTimeout_failure P call 60000 w t err U L).
    now cbn.
Qed.

Lemma dropped_lower (k : string) (literal : string) :
  dropped literal = false -> toLowerCase k = literal -> dropped (toLowerCase k) = false.
Proof. now intros D ->. Qed.

(** X18.  The arguments that the managed handler gives to [proxy], beside
    the three headers it fixes, for a string access token on which line 97
    does not throw (no NUL, line feed or carriage return).  The target is
    [https://api.anthropic.com] with the path after [/claude-code/proxy]
    and the query; the method and the body are those of the request; in
    the header set, a name that is neither dropped nor one of
    [authorization], [anthropic-beta] and [x-api-key] has the value of its
    last inbound entry.  When [proxy] resolves before the timeout, the
    handler answers with what it resolved to.  What the library sends to
    the target from these arguments lies behind [proxy]. *)
Theorem managed_call_shape :
  forall (P : Platform) (req : Request) (token : string) (rest : string),
    pathname (url req) = "/claude-code/proxy" ++ rest ->
    Headers.clean token = true ->
    let call := managed_call req (VStr token) in
    c_url call = "https://api.anthropic.com" ++ rest ++ search (url req)
    /\ c_method call = method req
    /\ c_body call = req_body req
    /\ (forall name,
          dropped (toLowerCase name) = false ->
          toLowerCase name <> "authorization" ->
          toLowerCase name <> "anthropic-beta" ->
          toLowerCase name <> "x-api-key" ->
          Headers.get name (c_headers call) = Headers.last_value name (req_headers req))
    /\ (forall w t res, upstream P call = Responds t res -> t < 60000 ->
          forward_managed P req (VStr token) w
          = mkRun (Ret res) (advance t w) [EvProxy call]).
Proof.
  intros P req token rest E _ call. subst call. unfold managed_call.
  cbn [c_url c_method c_body c_headers].
  split.
  { unfold managed_target. rewrite E.
    now rewrite (replace_at_start "/claude-code/proxy" "" rest). }
  split; [reflexivity|]. split; [reflexivity|]. split.
  - intros name D N1 N2 N3. unfold managed_headers.
    rewrite get_delete_other
      by (apply same_name_false; intros Q; apply N3; now rewrite <- Q).
    rewrite get_set_other
      by (apply same_name_false; intros Q; apply N2; now rewrite <- Q).
    rewrite get_set_other
      by (apply same_name_false; intros Q; apply N1; now rewrite <- Q).
    rewrite (get_sanitize _ _ _ D).
    now destruct (Headers.last_value name (req_headers req)).
  - intros w t res U L. unfold forward_managed.
    rewrite bind_run.
    change (mkCall (managed_target (url req)) (method req)
              (managed_headers (req_headers req) (VStr token)) (req_body req))
      with (managed_call req (VStr token)) in *.
    rewrite (fetchWithTimeout_answer P _ 60000 w t res U L).
    cbn. now rewrite response_eta.
Qed.

End ForwardingFacts.

Section AuthorizeFacts.
Import Str Auth Authorize.

Lemma urlencode_unreserved (s : string) :
  all_unreserved s = true -> urlencode s = s.
Proof.
  induction s as [|c s IH]; [reflexivity|].
  cbn [all_unreserved urlencode]. intros H. apply andb_true_iff in H as [Hc Hs].
  unfold encode_unit. rewrite Hc, (IH Hs). reflexivity.
Qed.

(** X19.  The authorization URL.  For a challenge and a verifier of
    unreserved characters, as base64url strings are, [authorize] gives the
    fixed authorization URL with the challenge as [code_challenge] and the
    verifier itself as [state], and hands the same verifier back. *)
Theorem authorize_url_carries_verifier_as_state :
  forall (pkce : PKCE),
    all_unreserved (challenge pkce) = true ->
    all_unreserved (verifier pkce) = true ->
    auth_url (authorize pkce)
    = "https://claude.ai/oauth/authorize?code=true&client_id=9d1c250a-e61b-44d9-88ed-5944d1962f5e&response_type=code&redirect_uri=https%3A%2F%2Fconsole.anthropic.com%2Foauth%2Fcode%2Fcallback&scope=org%3Acreate_api_key+user%3Aprofile+user%3Ainference&code_challenge="
      ++ challenge pkce ++ "&code_challenge_method=S256&state=" ++ verifier pkce
    /\ auth_verifier (authorize pkce) = verifier pkce.
Proof.
  intros [c v] Hc Hv. cbn [challenge verifier] in *.
  split; [|reflexivity].
  unfold authorize. cbn [challenge verifier auth_url].
  cbv [params_set String.eqb Ascii.eqb Bool.eqb filter negb fst snd href
       serialize_params map].
  cbn [String.concat].
  rewrite (urlencode_unreserved c Hc), (urlencode_unreserved v Hv).
  vm_compute (urlencode _).
  cbn [append]. 
  repeat (rewrite <- ?append_assoc; cbn [append]).
  reflexivity.
Qed.

End AuthorizeFacts.

(** ** An answer without [expires_in]; the refresh call; the authorize route *)

Section MissingExpiry.
Import Str Js Net Routing Auth App.

Lemma parse_value_null (f : nat) (pad tail : string) :
  padding pad -> parse_value (S f) (pad ++ "null" ++ tail) = Ret (VNull, tail).
Proof. intros Hp. cbn [parse_value]. rewrite Hp. reflexivity. Qed.

Lemma record_null_expiry_text (refresh access iso : string) :
  JSON_stringify_2 (tokenData (VStr refresh) (VStr access) (VNum NaN) iso)
  = Some (String "{" ((newline ++ "  ") ++
           (quote "refresh" ++ String ":" (" " ++ quote refresh ++
            String "," ((newline ++ "  ") ++
           (quote "access" ++ String ":" (" " ++ quote access ++
            String "," ((newline ++ "  ") ++
           (quote "expires" ++ String ":" (" " ++ "null" ++
            String "," ((newline ++ "  ") ++
           (quote "updated_at" ++ String ":" (" " ++ quote iso ++
            newline ++ String "}" ""))))))))))))).
Proof.
  unfold JSON_stringify_2, tokenData. cbn [serialize flat_map snd fst List.app].
  unfold wrap, member_text. change (String.eqb "  " "") with false. cbv iota.
  cbn [String.concat]. f_equal.
  repeat (rewrite ?append_assoc; cbn [append]). reflexivity.
Qed.

Lemma record_null_expiry_roundtrip (refresh access iso written : string) :
  JSON_stringify_2 (tokenData (VStr refresh) (VStr access) (VNum NaN) iso) = Some written ->
  JSON_parse written
  = Ret (VObj [("refresh", VStr refresh); ("access", VStr access);
               ("expires", VNull); ("updated_at", VStr iso)]).
Proof.
  rewrite record_null_expiry_text. intros H.
  apply (f_equal (fun o => match o with Some t => t | None => EmptyString end)) in H.
  cbv beta iota in H. subst written.
  unfold JSON_parse.
  match goal with
  | |- context [parse_value (S (2 * String.length ?t)) _] =>
      assert (L : exists f, (2 * String.length t = 5 + f)%nat)
        by (exists (2 * String.length t - 5)%nat;
            unfold newline; cbn [String.length append]; lia)
  end.
  destruct L as [f ->].
  assert (Pi : padding (newline ++ "  ")) by apply padding_indent.
  assert (Ps : padding " ") by (intros x; reflexivity).
  cbn [parse_value Nat.add].
  change (skip_ws (String "{" ?x)) with (String "{" x). cbv iota.
  change (Ascii.eqb "{" "{") with true. cbv iota.
  rewrite Pi, quote_app.
  change (skip_ws (String dquote ?x)) with (String dquote x). cbv iota.
  change (Ascii.eqb dquote "}") with false. cbv iota.
  rewrite <- quote_app.
  change (parse_members ?n (quote "refresh" ++ ?x) [])
    with (parse_members n ("" ++ quote "refresh" ++ x) []).
  rewrite (parse_members_more _ "" "refresh" _ (VStr refresh) _ []
             (fun x => eq_refl) (parse_value_string _ " " refresh _ Ps)).
  rewrite (parse_members_more _ (newline ++ "  ") "access" _ (VStr access) _ _
             Pi (parse_value_string _ " " access _ Ps)).
  rewrite (parse_members_more _ (newline ++ "  ") "expires" _ VNull _ _
             Pi (parse_value_null _ " " _ Ps)).
  rewrite (parse_members_last _ (newline ++ "  ") "updated_at" _ (VStr iso) newline "" _
             Pi padding_newline (parse_value_string _ " " iso _ Ps)).
  reflexivity.
Qed.


(** [exchange] after a success answer without [expires_in]. *)
Lemma exchange_without_expiry_run (P : Platform) (code verifier : string) (w : World)
      (response : Response) (text : string) (json refresh access : value)
      (written : string) :
  snd (fetch P (exchange_call code verifier)) = Ret response -> ok response = true ->
  body response = Some text -> JSON_parse text = Ret json ->
  get_prop json "refresh_token" = Ret refresh ->
  get_prop json "access_token" = Ret access ->
  get_prop json "expires_in" = Ret VUndefined ->
  JSON_stringify_2
    (tokenData refresh access (VNum NaN)
       (toISOString P (now w + fst (fetch P (exchange_call code verifier)))))
  = Some written ->
  exchange P code verifier w
  = mkRun (Ret success)
          (mkWorld (Some written) (now w + fst (fetch P (exchange_call code verifier))))
          [EvFetch (exchange_call code verifier); EvWriteFile written].
Proof.
  intros Hf Hok Hb Hj Hr Ha He Hw. unfold exchange.
  rewrite bind_run, await_fetch_run. cbn [outcome world events].
  rewrite Hf, Hok. cbn [negb]. unfold response_json.
  rewrite Hb, Hj, (bind_reads _ _ _ _ (reads_lift _ _)).
  rewrite Hr, (bind_reads _ _ _ _ (reads_lift _ _)).
  rewrite Ha, (bind_reads _ _ _ _ (reads_lift _ _)).
  rewrite (bind_reads _ _ _ _ (reads_Date_now _)).
  rewrite He, (bind_reads _ _ _ _ (reads_lift _ _)).
  rewrite (bind_reads _ _ _ _ (reads_expiry_number _ VUndefined NaN _ eq_refl)).
  rewrite bind_run.
  change (VNum (add (Int (now (advance (fst (fetch P (exchange_call code verifier))) w)))
                    (mul NaN (Int 1000))))
    with (VNum NaN).
  rewrite (storeTokens_run P _ _ _
             (advance (fst (fetch P (exchange_call code verifier))) w) _ Hw).
  reflexivity.
Qed.

(** X20.  A success answer without [expires_in] is stored all the same:
    [Date.now() + undefined * 1000] is [NaN], which [JSON.stringify] writes
    as [null].  [exchange] reports success, the record loads back with
    [expires] equal to [null], and [null < Date.now()] holds at every
    positive clock reading: every later request starts with a refresh
    call. *)
Theorem missing_expires_in_refreshes_every_request :
  forall (P : Platform) (code verifier : string) (w : World)
         (response : Response) (text : string) (json : value)
         (refresh access : string) (req : Request) (later_world : World),
    snd (fetch P (exchange_call code verifier)) = Ret response -> ok response = true ->
    body response = Some text -> JSON_parse text = Ret json ->
    get_prop json "refresh_token" = Ret (VStr refresh) ->
    get_prop json "access_token" = Ret (VStr access) ->
    get_prop json "expires_in" = Ret VUndefined ->
    let r := exchange P code verifier w in
    let t := now w + fst (fetch P (exchange_call code verifier)) in
    outcome r = Ret success
    /\ outcome (getStoredTokens (world r))
       = Ret (VObj [("refresh", VStr refresh); ("access", VStr access);
                    ("expires", VNull); ("updated_at", VStr (toISOString P t))])
    /\ (token_file later_world = token_file (world r) -> 0 < now later_world ->
        exists later,
          events (claude_code_proxy P req later_world)
          = EvFetch (refresh_call (VStr refresh)) :: later
          /\ fetches later = []).
Proof.
  intros P code verifier w response text json refresh access req later_world
         Hf Hok Hb Hj Hr Ha He r t.
  destruct (stringify_record (VStr refresh) (VStr access) (VNum NaN) (toISOString P t))
    as [written Hw].
  pose proof (exchange_without_expiry_run P code verifier w response text json
                (VStr refresh) (VStr access) written Hf Hok Hb Hj Hr Ha He Hw) as Run.
  pose proof (record_null_expiry_roundtrip _ _ _ _ Hw) as Hp.
  subst r. rewrite Run. cbn [outcome world token_file].
  split; [reflexivity|]. split; [exact Hp|].
  intros Hfile L.
  set (auth := VObj [("refresh", VStr refresh); ("access", VStr access);
                     ("expires", VNull); ("updated_at", VStr (toISOString P t))]) in *.
  assert (Hs : outcome (getStoredTokens later_world) = Ret auth)
    by now rewrite (stored_outcome _ _ Hfile).
  assert (Hn : outcome (needs_refresh auth later_world) = Ret true).
  { unfold needs_refresh.
    change (get_prop auth "access") with (Ret (VStr access)).
    rewrite (bind_reads _ _ _ _ (reads_lift _ _)).
    destruct (negb (truthy (VStr access))); [reflexivity|].
    change (get_prop auth "expires") with (Ret VNull).
    rewrite (bind_reads _ _ _ _ (reads_lift _ _)).
    rewrite (bind_reads _ _ _ _ (reads_Date_now _)).
    unfold lift_option. cbn [to_number].
    rewrite (bind_reads _ _ _ _ (reads_lift _ _)).
    cbn [ret outcome lt]. apply Z.ltb_lt in L. now rewrite L. }
  rewrite (gate_run P req later_world auth true Hs eq_refl Hn).
  change (get_prop auth "refresh") with (Ret (VStr refresh)).
  rewrite (bind_reads _ _ _ _ (reads_lift _ _)), events_bind.
  eexists. split; [reflexivity|].
  destruct (outcome (await_fetch P _ later_world)) as [resp|err|]; try reflexivity.
  destruct (negb (ok resp)); [reflexivity|].
  apply free_after_refresh_fetch.
Qed.


(** X21.  What the provider receives on a refresh: a POST to the token
    endpoint of [exchange], with a JSON body that parses to the grant type,
    the stored refresh token and the client id, in this order. *)
Theorem refresh_call_body_parses :
  forall (refresh_token : string),
    c_url (refresh_call (VStr refresh_token)) = TOKEN_URL
    /\ c_method (refresh_call (VStr refresh_token)) = "POST"
    /\ Headers.get "content-type" (c_headers (refresh_call (VStr refresh_token)))
       = Some "application/json"
    /\ exists text,
         c_body (refresh_call (VStr refresh_token)) = Some text
         /\ JSON_parse text
            = Ret (VObj [("grant_type", VStr "refresh_token");
                         ("refresh_token", VStr refresh_token);
                         ("client_id", VStr CLIENT_ID)]).
Proof.
  intros refresh_token. split; [reflexivity|]. split; [reflexivity|].
  split; [reflexivity|].
  destruct (JSON_roundtrip_flat
              [("grant_type", VStr "refresh_token");
               ("refresh_token", VStr refresh_token);
               ("client_id", VStr CLIENT_ID)])
    as [[text [Et Ep]] _]; [discriminate | reflexivity |].
  exists text. split; [exact Et | exact Ep].
Qed.

End MissingExpiry.

Section AuthorizeRouteFacts.
Import Str Js Net Auth App Authorize AuthorizeRoute.

(** X22.  The authorize route answers 200 with a JSON body that parses to the
    URL of [authorize] and the PKCE verifier, whatever characters they
    hold: the verifier goes to the caller in the body and, as [state], in
    the URL. *)
Theorem authorize_route_returns_url_and_verifier :
  forall (pkce : PKCE),
    status (claude_code_authorize pkce) = 200
    /\ exists text,
         body (claude_code_authorize pkce) = Some text
         /\ JSON_parse text
            = Ret (VObj [("url", VStr (auth_url (authorize pkce)));
                         ("verifier", VStr (verifier pkce))]).
Proof.
  intros pkce. split; [reflexivity|].
  destruct (JSON_roundtrip_flat
              [("url", VStr (auth_url (authorize pkce)));
               ("verifier", VStr (verifier pkce))])
    as [[text [Et Ep]] _]; [discriminate | reflexivity |].
  exists text. split; [exact Et | exact Ep].
Qed.

End AuthorizeRouteFacts.

(** ** The claims on sample inputs *)

Section Witnesses.
Import Str Js Net Routing Auth App Sanitizer.

Lemma sanitize_keeps_the_last_value_of_the_others_witness :
  dropped (toLowerCase "cf-ray") = true
  /\ Headers.get "cf-ray" (sanitize Sample.inbound Headers.empty) = None
  /\ dropped (toLowerCase "set-cookie") = false
  /\ Headers.get "set-cookie" (sanitize Sample.inbound_with_two_cookies Headers.empty)
     = Some "b=2"
  /\ Headers.get "set-cookie"
       (routed_headers Sample.granting Sample.groq Sample.inbound_with_two_cookies)
     = Some "b=2"
  /\ dropped (toLowerCase "x-forwarded-for") = true
  /\ Headers.get "x-forwarded-for"
       (routed_headers Sample.granting Sample.groq Sample.inbound) = None
  /\ Headers.get "host" (routed_headers Sample.granting Sample.groq Sample.inbound)
     = Some "api.groq.com"
  /\ NoDup (Headers.names Sample.inbound)
  /\ Headers.get "accept" (sanitize Sample.inbound Headers.empty) = Some "*/*"
  /\ Headers.get "host" (sanitize Sample.inbound Headers.empty) = None
  /\ Headers.get "content-type"
       (routed_headers Sample.granting Sample.groq Sample.inbound)
     = Some "application/json".
Proof.
  assert (D1 : dropped (toLowerCase "cf-ray") = true) by reflexivity.
  assert (D2 : dropped (toLowerCase "set-cookie") = false) by reflexivity.
  assert (D3 : dropped (toLowerCase "x-forwarded-for") = true) by reflexivity.
  assert (N : NoDup (Headers.names Sample.inbound)).
  { repeat constructor; simpl; intuition discriminate. }
  destruct (sanitize_keeps_the_last_value_of_the_others Sample.granting Sample.groq
              Sample.inbound) as (Gone & _ & _ & GoneR & _ & Host & _ & Exact).
  destruct (sanitize_keeps_the_last_value_of_the_others Sample.granting Sample.groq
              Sample.inbound_with_two_cookies) as (_ & Last & _ & _ & LastR & _).
  destruct (Exact N) as (_ & G & _ & R).
  split; [exact D1|]. split; [exact (Gone "cf-ray" D1)|].
  split; [exact D2|]. split; [exact (Last "set-cookie" D2)|].
  split; [exact (LastR "set-cookie" D2)|].
  split; [exact D3|].
  split; [exact (GoneR "x-forwarded-for" D3 ltac:(discriminate))|].
  split; [exact Host|]. split; [exact N|].
  split; [exact (G "accept" "*/*" ltac:(simpl; auto 10))|].
  split; [exact (G "host" "proxy.example" ltac:(simpl; auto 10))|].
  exact (R "content-type" "application/json" ltac:(simpl; auto 10) ltac:(discriminate)).
Defined.

(** C3 as stated fails on a header set with two values of one name: a
    [Headers] object iterates over [set-cookie] once per value; both
    entries pass the test of the loop, [headers.set] replaces the first by
    the second, and the header [set-cookie: a=1] is not in the output. *)
Lemma repeated_name_keeps_only_its_last_value :
  In ("set-cookie", "a=1") Sample.inbound_with_two_cookies
  /\ dropped (toLowerCase "set-cookie") = false
  /\ sanitize Sample.inbound_with_two_cookies Headers.empty
     = [("accept", "*/*"); ("set-cookie", "b=2")]
  /\ ~ In ("set-cookie", "a=1") (sanitize Sample.inbound_with_two_cookies Headers.empty)
  /\ Headers.get "set-cookie" (sanitize Sample.inbound_with_two_cookies Headers.empty)
     <> Some "a=1".
Proof.
  split; [simpl; auto|]. split; [reflexivity|]. split; [reflexivity|].
  split; [simpl; intuition discriminate | discriminate].
Qed.

Lemma selected_prefix_entry_strips_segment_witness :
  find_proxy proxies Sample.groq_url = Some Sample.groq
  /\ pathname Sample.groq_url = segment_pattern Sample.groq ++ "v1/chat"
  /\ "proxy.example" <> "gooai.chatkit.app"
  /\ resolve proxies Sample.groq_url = Some "https://api.groq.com/v1/chat?stream=1".
Proof.
  assert (F : find_proxy proxies Sample.groq_url = Some Sample.groq) by reflexivity.
  assert (E : pathname Sample.groq_url = segment_pattern Sample.groq ++ "v1/chat")
    by reflexivity.
  assert (H : "proxy.example" <> "gooai.chatkit.app") by discriminate.
  repeat (split; [assumption|]).
  exact (proj1 (selected_prefix_entry_strips_segment proxies Sample.groq_url Sample.groq
                  "v1/chat" "proxy.example" "?stream=1" F E H)).
Defined.

(** C4 as stated fails: the path [/groq/v1/chat] begins with the [groq]
    entry's segment, but with the host name [gooai.chatkit.app] the earlier
    [generativelanguage] entry matches first and the request goes there, with
    the path unchanged. *)
Lemma prefix_match_loses_to_earlier_host_match :
  In Sample.groq proxies
  /\ startsWith (pathname Sample.groq_url_on_alternate_host)
                (segment_pattern Sample.groq) = true
  /\ find_proxy proxies Sample.groq_url_on_alternate_host
     = Some Sample.generativelanguage
  /\ resolve proxies Sample.groq_url_on_alternate_host
     = Some "https://generativelanguage.googleapis.com/groq/v1/chat"
  /\ resolve proxies Sample.groq_url_on_alternate_host
     <> Some (target Sample.groq ++ "/v1/chat").
Proof.
  split; [simpl; auto|]. split; [reflexivity|]. split; [reflexivity|].
  split; [reflexivity | discriminate].
Qed.

Lemma host_matched_entry_rewrites_first_occurrence_witness :
  find_proxy proxies Sample.models_url = Some Sample.generativelanguage
  /\ startsWith (pathname Sample.models_url)
                (segment_pattern Sample.generativelanguage) = false
  /\ first_occurrence (segment_pattern Sample.generativelanguage)
                      (pathname Sample.models_url) "/x" "models"
  /\ resolve proxies Sample.models_url
     = Some "https://generativelanguage.googleapis.com/x/models?key=1".
Proof.
  assert (F : find_proxy proxies Sample.models_url = Some Sample.generativelanguage)
    by reflexivity.
  assert (S : startsWith (pathname Sample.models_url)
                         (segment_pattern Sample.generativelanguage) = false)
    by reflexivity.
  assert (O : first_occurrence (segment_pattern Sample.generativelanguage)
                (pathname Sample.models_url) "/x" "models").
  { split; [reflexivity|]. intros b a E.
    destruct b as [|c0 [|c1 b]]; [discriminate E | discriminate E | simpl; lia]. }
  repeat (split; [assumption|]).
  destruct (host_matched_entry_rewrites_first_occurrence proxies Sample.models_url
              Sample.generativelanguage F S) as (_ & R & _).
  exact (R "/x" "models" O).
Defined.

Lemma exchange_without_hash_sends_whole_code_witness :
  occurs "#" "abc" = false
  /\ element (split "#" "abc") 0 = VStr "abc"
  /\ element (split "#" "abc") 1 = VUndefined
  /\ fetches (events (exchange Sample.granting "abc" "ver" Sample.fresh_world))
     = [exchange_call "abc" "ver"]
  /\ exists text,
       c_body (exchange_call "abc" "ver") = Some text
       /\ JSON_parse text
          = Ret (VObj [("code", VStr "abc");
                       ("grant_type", VStr "authorization_code");
                       ("client_id", VStr CLIENT_ID);
                       ("redirect_uri", VStr REDIRECT_URI);
                       ("code_verifier", VStr "ver")]).
Proof.
  assert (H : occurs "#" "abc" = false) by reflexivity.
  destruct (exchange_without_hash_sends_whole_code Sample.granting "abc" "ver"
              Sample.fresh_world H) as (S & _ & F & T).
  split; [exact H|]. rewrite S.
  split; [reflexivity|]. split; [reflexivity|]. split; [exact F | exact T].
Defined.





Lemma unauthenticated_leaves_store_witness :
  token_file Sample.fresh_world = None
  /\ (outcome (claude_code_proxy Sample.granting Sample.managed_request
                 Sample.fresh_world) = Ret unauthenticated
      /\ world (claude_code_proxy Sample.granting Sample.managed_request
                  Sample.fresh_world) = Sample.fresh_world
      /\ events (claude_code_proxy Sample.granting Sample.managed_request
                   Sample.fresh_world) = [])
  /\ outcome (getStoredTokens (Sample.stored_world 6000)) = Ret Sample.stored_record
  /\ outcome (needs_refresh Sample.stored_record (Sample.stored_world 6000)) = Ret true
  /\ ok Sample.refused = false
  /\ (outcome (claude_code_proxy Sample.refusing Sample.managed_request
                 (Sample.stored_world 6000)) = Ret refresh_failed
      /\ token_file (world (claude_code_proxy Sample.refusing Sample.managed_request
                              (Sample.stored_world 6000)))
         = token_file (Sample.stored_world 6000)
      /\ writes (events (claude_code_proxy Sample.refusing Sample.managed_request
                           (Sample.stored_world 6000))) = []).
Proof.
  assert (Hs : outcome (getStoredTokens (Sample.stored_world 6000))
               = Ret Sample.stored_record) by (vm_compute; reflexivity).
  assert (Hn : outcome (needs_refresh Sample.stored_record (Sample.stored_world 6000))
               = Ret true) by reflexivity.
  split; [reflexivity|].
  split; [exact (proj1 (unauthenticated_leaves_store Sample.granting
                          Sample.managed_request Sample.fresh_world) eq_refl)|].
  split; [exact Hs|]. split; [exact Hn|]. split; [reflexivity|].
  exact (proj1 (proj2 (unauthenticated_leaves_store Sample.refusing
                         Sample.managed_request (Sample.stored_world 6000)))
           Sample.stored_record (VStr "rt-1") Sample.refused
           Hs eq_refl Hn eq_refl eq_refl eq_refl).
Defined.

Lemma forwarded_call_carries_bearer_witness :
  In Sample.forwarded
     (proxied (events (claude_code_proxy Sample.granting Sample.managed_request
                         (Sample.stored_world 4000))))
  /\ Headers.clean "at-1" = true
  /\ Headers.as_given ("Bearer " ++ "at-1") = true
  /\ Headers.get "authorization" (c_headers Sample.forwarded) = Some "Bearer at-1"
  /\ Headers.get "anthropic-beta" (c_headers Sample.forwarded) = Some ANTHROPIC_BETA
  /\ Headers.get "x-api-key" (c_headers Sample.forwarded) = None.
Proof.
  assert (I : In Sample.forwarded
                 (proxied (events (claude_code_proxy Sample.granting
                                     Sample.managed_request
                                     (Sample.stored_world 4000))))).
  { vm_compute. left. reflexivity. }
  assert (S : outcome (getStoredTokens (Sample.stored_world 4000))
              = Ret Sample.stored_record) by (vm_compute; reflexivity).
  assert (N : outcome (needs_refresh Sample.stored_record (Sample.stored_world 4000))
              = Ret false) by reflexivity.
  assert (C : Headers.clean "at-1" = true) by reflexivity.
  assert (G : Headers.as_given ("Bearer " ++ "at-1") = true) by reflexivity.
  split; [exact I|]. split; [exact C|]. split; [exact G|].
  destruct (forwarded_call_carries_bearer Sample.granting Sample.managed_request
              (Sample.stored_world 4000) Sample.forwarded I)
    as (auth & access & Ha & _ & H1 & H2 & H3 & Source).
  rewrite S in Ha. injection Ha as <-.
  split; [|split; [exact H2 | exact H3]].
  destruct Source as [[_ Stored]|[Stale _]].
  - injection Stored as <-. exact (proj2 (H1 "at-1" eq_refl C) G).
  - rewrite N in Stale. discriminate Stale.
Defined.

(** C8 as stated fails for a token that ends in white space.  The stored
    access token is [at-1] followed by a space and is not expired; the
    handler forwards with it; [headers.set] strips the space, and the
    header sent is [Bearer at-1], which is not [Bearer] followed by the
    token. *)
Lemma trailing_space_of_the_token_is_not_sent :
  outcome (getStoredTokens (mkWorld (Some Sample.text_with_trailing_space) 4000))
  = Ret Sample.record_with_trailing_space
  /\ get_prop Sample.record_with_trailing_space "access" = Ret (VStr "at-1 ")
  /\ proxied (events (claude_code_proxy Sample.granting Sample.managed_request
                        (mkWorld (Some Sample.text_with_trailing_space) 4000)))
     = [managed_call Sample.managed_request (VStr "at-1 ")]
  /\ Headers.get "authorization"
       (c_headers (managed_call Sample.managed_request (VStr "at-1 ")))
     = Some "Bearer at-1"
  /\ Headers.get "authorization"
       (c_headers (managed_call Sample.managed_request (VStr "at-1 ")))
     <> Some ("Bearer " ++ "at-1 ").
Proof.
  split; [vm_compute; reflexivity|]. split; [reflexivity|].
  split; [vm_compute; reflexivity|].
  split; [vm_compute; reflexivity | vm_compute; discriminate].
Qed.

End Witnesses.

(** ** The further properties on sample inputs *)

Section FurtherWitnesses.
Import Str Js Net Routing Auth App Sanitizer Authorize.

Lemma authorize_url_carries_verifier_as_state_witness :
  all_unreserved (challenge Sample.pkce) = true
  /\ all_unreserved (verifier Sample.pkce) = true
  /\ auth_url (authorize Sample.pkce)
     = "https://claude.ai/oauth/authorize?code=true&client_id=9d1c250a-e61b-44d9-88ed-5944d1962f5e&response_type=code&redirect_uri=https%3A%2F%2Fconsole.anthropic.com%2Foauth%2Fcode%2Fcallback&scope=org%3Acreate_api_key+user%3Aprofile+user%3Ainference&code_challenge=E9Melhoa2OwvFrEMTJguCHaoeK1t8URWbuGJSstw-cM&code_challenge_method=S256&state=dBjftJeZ4CVP-mB92K27uhbUJU1p1r_wW1gFWFOEjXk"
  /\ auth_verifier (authorize Sample.pkce) = "dBjftJeZ4CVP-mB92K27uhbUJU1p1r_wW1gFWFOEjXk".
Proof.
  assert (Hc : all_unreserved (challenge Sample.pkce) = true) by reflexivity.
  assert (Hv : all_unreserved (verifier Sample.pkce) = true) by reflexivity.
  split; [exact Hc|]. split; [exact Hv|].
  exact (authorize_url_carries_verifier_as_state Sample.pkce Hc Hv).
Defined.

Lemma exchange_splits_code_and_state_witness :
  occurs "#" "abc" = false
  /\ occurs "#" "st" = false
  /\ element (split "#" "abc#st") 0 = VStr "abc"
  /\ element (split "#" "abc#st") 1 = VStr "st"
  /\ element (split "#" "abc#st#tail") 1 = VStr "st".
Proof.
  assert (Ha : occurs "#" "abc" = false) by reflexivity.
  assert (Hb : occurs "#" "st" = false) by reflexivity.
  destruct (exchange_splits_code_and_state "abc" "st" "ver" Ha) as (C & S & _).
  destruct (exchange_splits_code_and_state "abc" "st#tail" "ver" Ha) as (_ & _ & T).
  split; [exact Ha|]. split; [exact Hb|]. split; [exact C|].
  split; [exact (proj1 (S Hb))|].
  exact (T "st" "tail" eq_refl Hb).
Defined.

Lemma exchange_success_iff_stored_witness :
  outcome (exchange Sample.granting "abc#st" "ver" Sample.fresh_world) = Ret success
  /\ writes (events (exchange Sample.granting "abc#st" "ver" Sample.fresh_world)) <> []
  /\ (exists text,
        writes (events (exchange Sample.granting "abc#st" "ver" Sample.fresh_world))
        = [text]
        /\ token_file (world (exchange Sample.granting "abc#st" "ver" Sample.fresh_world))
           = Some text)
  /\ outcome (exchange Sample.refusing "abc#st" "ver" Sample.fresh_world) <> Ret success
  /\ token_file (world (exchange Sample.refusing "abc#st" "ver" Sample.fresh_world))
     = token_file Sample.fresh_world.
Proof.
  assert (O : outcome (exchange Sample.granting "abc#st" "ver" Sample.fresh_world)
              = Ret success) by (vm_compute; reflexivity).
  assert (N : outcome (exchange Sample.refusing "abc#st" "ver" Sample.fresh_world)
              <> Ret success) by (vm_compute; discriminate).
  destruct (exchange_success_iff_stored Sample.granting "abc#st" "ver" Sample.fresh_world)
    as (I & S & _).
  destruct (exchange_success_iff_stored Sample.refusing "abc#st" "ver" Sample.fresh_world)
    as (_ & _ & K & _).
  split; [exact O|]. split; [exact (proj1 I O)|]. split; [exact (S O)|].
  split; [exact N | exact (K N)].
Defined.

Lemma exchange_failures_throw_witness :
  (snd (fetch (Sample.provider (Throw (NetworkError "offline")))
          (exchange_call "abc" "ver")) = Throw (NetworkError "offline")
   /\ outcome (exchange (Sample.provider (Throw (NetworkError "offline"))) "abc" "ver"
                 Sample.fresh_world) = Throw (NetworkError "offline"))
  /\ (JSON_parse "oops" = Throw SyntaxError
      /\ outcome (exchange (Sample.provider (Ret Sample.garbled)) "abc" "ver"
                    Sample.fresh_world) = Throw SyntaxError)
  /\ (JSON_parse "null" = Ret VNull
      /\ outcome (exchange (Sample.provider (Ret Sample.null_answer)) "abc" "ver"
                    Sample.fresh_world) = Throw TypeError
      /\ events (exchange (Sample.provider (Ret Sample.null_answer)) "abc" "ver"
                   Sample.fresh_world) = [EvFetch (exchange_call "abc" "ver")]).
Proof.
  assert (Pg : JSON_parse "oops" = Throw SyntaxError) by (vm_compute; reflexivity).
  assert (Pn : JSON_parse "null" = Ret VNull) by (vm_compute; reflexivity).
  split; [|split].
  - destruct (exchange_failures_throw (Sample.provider (Throw (NetworkError "offline")))
                "abc" "ver" Sample.fresh_world) as (F & _).
    split; [reflexivity|]. exact (proj1 (F (NetworkError "offline") eq_refl)).
  - destruct (exchange_failures_throw (Sample.provider (Ret Sample.garbled))
                "abc" "ver" Sample.fresh_world) as (_ & G & _).
    split; [exact Pg|].
    exact (proj1 (G Sample.garbled "oops" SyntaxError eq_refl eq_refl eq_refl Pg)).
  - destruct (exchange_failures_throw (Sample.provider (Ret Sample.null_answer))
                "abc" "ver" Sample.fresh_world) as (_ & _ & N).
    split; [exact Pn|].
    exact (N Sample.null_answer "null" eq_refl eq_refl eq_refl Pn).
Defined.

Lemma exchanged_tokens_serve_the_gate_witness :
  body Sample.granted = Some Sample.granted_text
  /\ JSON_parse Sample.granted_text = Ret Sample.granted_tokens
  /\ "at-2" <> ""
  /\ Headers.clean "at-2" = true
  /\ safe_integer 1005 = true
  /\ safe_integer (3600 * 1000) = true
  /\ safe_integer (1005 + 3600 * 1000) = true
  /\ 2000 <= 3601005
  /\ 3601005 < 3601006
  /\ fetches (events (claude_code_proxy Sample.granting Sample.managed_request
                        (mkWorld (token_file (world (exchange Sample.granting "abc#st" "ver"
                                                       Sample.fresh_world))) 2000))) = []
  /\ proxied (events (claude_code_proxy Sample.granting Sample.managed_request
                        (mkWorld (token_file (world (exchange Sample.granting "abc#st" "ver"
                                                       Sample.fresh_world))) 2000)))
     = [managed_call Sample.managed_request (VStr "at-2")]
  /\ exists later,
       events (claude_code_proxy Sample.granting Sample.managed_request
                 (mkWorld (token_file (world (exchange Sample.granting "abc#st" "ver"
                                                Sample.fresh_world))) 3601006))
       = EvFetch (refresh_call (VStr "rt-2")) :: later
       /\ fetches later = [].
Proof.
  assert (Eb : body Sample.granted = Some Sample.granted_text)
    by (vm_compute; reflexivity).
  assert (Ep : JSON_parse Sample.granted_text = Ret Sample.granted_tokens)
    by (vm_compute; reflexivity).
  assert (Na : "at-2" <> "") by discriminate.
  assert (C : Headers.clean "at-2" = true) by reflexivity.
  assert (S1 : safe_integer 1005 = true) by reflexivity.
  assert (S2 : safe_integer (3600 * 1000) = true) by reflexivity.
  assert (S3 : safe_integer (1005 + 3600 * 1000) = true) by reflexivity.
  assert (L1 : 2000 <= 3601005) by discriminate.
  assert (L2 : 3601005 < 3601006) by reflexivity.
  split; [exact Eb|]. split; [exact Ep|]. split; [exact Na|].
  split; [exact C|]. split; [exact S1|]. split; [exact S2|]. split; [exact S3|].
  split; [exact L1|]. split; [exact L2|].
  destruct (exchanged_tokens_serve_the_gate Sample.granting "abc#st" "ver"
              Sample.fresh_world Sample.granted Sample.granted_text Sample.granted_tokens
              "rt-2" "at-2" 3600 Sample.managed_request
              (mkWorld (token_file (world (exchange Sample.granting "abc#st" "ver"
                                             Sample.fresh_world))) 2000)
              eq_refl eq_refl Eb Ep eq_refl eq_refl Na eq_refl C S1 S2 S3 eq_refl) as [Fresh _].
  destruct (exchanged_tokens_serve_the_gate Sample.granting "abc#st" "ver"
              Sample.fresh_world Sample.granted Sample.granted_text Sample.granted_tokens
              "rt-2" "at-2" 3600 Sample.managed_request
              (mkWorld (token_file (world (exchange Sample.granting "abc#st" "ver"
                                             Sample.fresh_world))) 3601006)
              eq_refl eq_refl Eb Ep eq_refl eq_refl Na eq_refl C S1 S2 S3 eq_refl) as [_ Stale].
  split; [exact (proj1 (Fresh L1))|]. split; [exact (proj2 (Fresh L1))|].
  exact (Stale L2).
Defined.

Lemma exchange_route_status_200_witness :
  ok Sample.refused = false
  /\ exists answer text,
       outcome (claude_code_exchange Sample.refusing "abc" "ver" Sample.fresh_world)
       = Ret answer
       /\ status answer = 200
       /\ body answer = Some text
       /\ JSON_parse text = Ret failed.
Proof.
  split; [reflexivity|].
  exact (exchange_route_status_200 Sample.refusing "abc" "ver" Sample.fresh_world
           Sample.refused eq_refl eq_refl).
Defined.


Lemma unusable_token_file_witness :
  JSON_parse "oops" = Throw SyntaxError
  /\ claude_code_proxy Sample.granting Sample.managed_request (mkWorld (Some "oops") 1000)
     = mkRun (Throw SyntaxError) (mkWorld (Some "oops") 1000) []
  /\ JSON_parse "null" = Ret VNull
  /\ truthy VNull = false
  /\ claude_code_proxy Sample.granting Sample.managed_request (mkWorld (Some "null") 1000)
     = mkRun (Ret unauthenticated) (mkWorld (Some "null") 1000) [].
Proof.
  assert (Pg : JSON_parse "oops" = Throw SyntaxError) by (vm_compute; reflexivity).
  assert (Pn : JSON_parse "null" = Ret VNull) by (vm_compute; reflexivity).
  split; [exact Pg|].
  split; [exact (proj1 (unusable_token_file Sample.granting Sample.managed_request
                          (mkWorld (Some "oops") 1000) "oops" eq_refl)
                   SyntaxError Pg)|].
  split; [exact Pn|]. split; [reflexivity|].
  exact (proj2 (unusable_token_file Sample.granting Sample.managed_request
                  (mkWorld (Some "null") 1000) "null" eq_refl)
           VNull Pn eq_refl).
Defined.

Lemma missing_access_token_refreshes_witness :
  outcome (getStoredTokens (mkWorld (Some "{}") 1000)) = Ret (VObj [])
  /\ truthy (VObj []) = true
  /\ get_prop (VObj []) "access" = Ret VUndefined
  /\ truthy VUndefined = false
  /\ exists refresh_token later,
       get_prop (VObj []) "refresh" = Ret refresh_token
       /\ events (claude_code_proxy Sample.granting Sample.managed_request
                    (mkWorld (Some "{}") 1000))
          = EvFetch (refresh_call refresh_token) :: later
       /\ fetches later = [].
Proof.
  assert (Hs : outcome (getStoredTokens (mkWorld (Some "{}") 1000)) = Ret (VObj []))
    by (vm_compute; reflexivity).
  split; [exact Hs|]. split; [reflexivity|]. split; [reflexivity|]. split; [reflexivity|].
  exact (missing_access_token_refreshes Sample.granting Sample.managed_request
           (mkWorld (Some "{}") 1000) (VObj []) VUndefined Hs eq_refl eq_refl eq_refl).
Defined.

Lemma unreadable_expiry_never_refreshes_witness :
  outcome (getStoredTokens (mkWorld (Some Sample.text_without_expiry) 9000000))
  = Ret Sample.record_without_expiry
  /\ "at-1" <> ""
  /\ Headers.clean "at-1" = true
  /\ get_prop Sample.record_without_expiry "expires" = Ret VUndefined
  /\ converts_to_NaN VUndefined = true
  /\ fetches (events (claude_code_proxy Sample.granting Sample.managed_request
                        (mkWorld (Some Sample.text_without_expiry) 9000000))) = []
  /\ proxied (events (claude_code_proxy Sample.granting Sample.managed_request
                        (mkWorld (Some Sample.text_without_expiry) 9000000)))
     = [Sample.forwarded].
Proof.
  assert (Hs : outcome (getStoredTokens (mkWorld (Some Sample.text_without_expiry) 9000000))
               = Ret Sample.record_without_expiry) by (vm_compute; reflexivity).
  assert (Na : "at-1" <> "") by discriminate.
  assert (C : Headers.clean "at-1" = true) by reflexivity.
  split; [exact Hs|]. split; [exact Na|]. split; [exact C|].
  split; [reflexivity|]. split; [reflexivity|].
  exact (proj2 (unreadable_expiry_never_refreshes Sample.granting Sample.managed_request
                  (mkWorld (Some Sample.text_without_expiry) 9000000)
                  Sample.record_without_expiry VUndefined "at-1"
                  Hs eq_refl eq_refl Na C eq_refl eq_refl)).
Defined.

Lemma refresh_stores_then_forwards_witness :
  outcome (getStoredTokens (Sample.stored_world 6000)) = Ret Sample.stored_record
  /\ outcome (needs_refresh Sample.stored_record (Sample.stored_world 6000)) = Ret true
  /\ body Sample.granted = Some Sample.granted_text
  /\ JSON_parse Sample.granted_text = Ret Sample.granted_tokens
  /\ Headers.clean "at-2" = true
  /\ safe_integer 6005 = true
  /\ safe_integer (3600 * 1000) = true
  /\ safe_integer (6005 + 3600 * 1000) = true
  /\ outcome (getStoredTokens
                (world (claude_code_proxy Sample.granting Sample.managed_request
                          (Sample.stored_world 6000))))
     = Ret (tokenData (VStr "rt-2") (VStr "at-2") (VNum (Int 3606005))
              "2025-01-01T00:00:00.000Z").
Proof.
  assert (Hs : outcome (getStoredTokens (Sample.stored_world 6000))
               = Ret Sample.stored_record) by (vm_compute; reflexivity).
  assert (Hn : outcome (needs_refresh Sample.stored_record (Sample.stored_world 6000))
               = Ret true) by reflexivity.
  assert (Eb : body Sample.granted = Some Sample.granted_text)
    by (vm_compute; reflexivity).
  assert (Ep : JSON_parse Sample.granted_text = Ret Sample.granted_tokens)
    by (vm_compute; reflexivity).
  assert (C : Headers.clean "at-2" = true) by reflexivity.
  assert (S1 : safe_integer 6005 = true) by reflexivity.
  assert (S2 : safe_integer (3600 * 1000) = true) by reflexivity.
  assert (S3 : safe_integer (6005 + 3600 * 1000) = true) by reflexivity.
  split; [exact Hs|]. split; [exact Hn|]. split; [exact Eb|]. split; [exact Ep|].
  split; [exact C|]. split; [exact S1|]. split; [exact S2|]. split; [exact S3|].
  exact (proj1 (refresh_stores_then_forwards Sample.granting Sample.managed_request
                  (Sample.stored_world 6000)
                  [("refresh", VStr "rt-1"); ("access", VStr "at-1");
                   ("expires", VNum (Int 5000));
                   ("updated_at", VStr "2025-01-01T00:00:00.000Z")]
                  (VStr "rt-1") Sample.granted Sample.granted_text Sample.granted_tokens
                  "rt-2" "at-2" 3600 Hs Hn eq_refl eq_refl eq_refl Eb Ep
                  eq_refl eq_refl eq_refl C S1 S2 S3)).
Defined.


Lemma gate_tries_once_witness :
  writes (events (claude_code_proxy Sample.granting Sample.managed_request
                    (Sample.stored_world 6000))) <> []
  /\ fetches (events (claude_code_proxy Sample.granting Sample.managed_request
                        (Sample.stored_world 6000)))
     = [refresh_call (VStr "rt-1")]
  /\ writes (events (claude_code_proxy Sample.granting Sample.managed_request
                       (Sample.stored_world 4000))) = []
  /\ token_file (world (claude_code_proxy Sample.granting Sample.managed_request
                          (Sample.stored_world 4000)))
     = token_file (Sample.stored_world 4000).
Proof.
  assert (W : writes (events (claude_code_proxy Sample.granting Sample.managed_request
                                (Sample.stored_world 6000))) <> [])
    by (vm_compute; discriminate).
  assert (N : writes (events (claude_code_proxy Sample.granting Sample.managed_request
                                (Sample.stored_world 4000))) = [])
    by (vm_compute; reflexivity).
  assert (S : outcome (getStoredTokens (Sample.stored_world 6000))
              = Ret Sample.stored_record) by (vm_compute; reflexivity).
  destruct (gate_tries_once Sample.granting Sample.managed_request
              (Sample.stored_world 6000)) as (_ & _ & _ & After & _).
  destruct (gate_tries_once Sample.granting Sample.managed_request
              (Sample.stored_world 4000)) as (_ & _ & _ & _ & Keeps & _).
  split; [exact W|]. split; [|split; [exact N | exact (Keeps N)]].
  destruct (After W) as (auth & refresh_token & response & Ha & Hr & _ & _ & F).
  rewrite S in Ha. injection Ha as <-. injection Hr as <-. exact F.
Defined.

Lemma managed_call_shape_witness :
  pathname (url Sample.managed_request) = "/claude-code/proxy" ++ "/v1/messages"
  /\ Headers.clean "at-1" = true
  /\ c_url Sample.forwarded = "https://api.anthropic.com/v1/messages?beta=true"
  /\ dropped (toLowerCase "Content-Type") = false
  /\ Headers.get "Content-Type" (c_headers Sample.forwarded) = Some "application/json"
  /\ 10 < 60000
  /\ forward_managed Sample.granting Sample.managed_request (VStr "at-1")
       Sample.fresh_world
     = mkRun (Ret Sample.upstream_answer) (advance 10 Sample.fresh_world)
             [EvProxy Sample.forwarded].
Proof.
  assert (E : pathname (url Sample.managed_request)
              = "/claude-code/proxy" ++ "/v1/messages") by reflexivity.
  assert (D : dropped (toLowerCase "Content-Type") = false) by reflexivity.
  assert (L : 10 < 60000) by reflexivity.
  assert (C : Headers.clean "at-1" = true) by reflexivity.
  destruct (managed_call_shape Sample.granting Sample.managed_request "at-1"
              "/v1/messages" E C) as (U & _ & _ & H & R).
  split; [exact E|]. split; [exact C|]. split; [exact U|]. split; [exact D|].
  split; [exact (H "Content-Type" D ltac:(discriminate) ltac:(discriminate)
                   ltac:(discriminate))|].
  split; [exact L|].
  exact (R Sample.fresh_world 10 Sample.upstream_answer eq_refl L).
Defined.

Lemma sanitize_any_inbound_witness :
  dropped (toLowerCase "CF-Ray") = true
  /\ Headers.get "CF-Ray" (sanitize Sample.repeated_inbound Headers.empty) = None
  /\ dropped (toLowerCase "Set-Cookie") = false
  /\ Headers.get "Set-Cookie" (sanitize Sample.repeated_inbound Headers.empty)
     = Some "b=2"
  /\ Headers.get "Set-Cookie"
       (routed_headers Sample.granting Sample.groq Sample.repeated_inbound)
     = Some "b=2"
  /\ Headers.get "host"
       (routed_headers Sample.granting Sample.groq Sample.repeated_inbound)
     = Some "api.groq.com".
Proof.
  assert (D1 : dropped (toLowerCase "CF-Ray") = true) by reflexivity.
  assert (D2 : dropped (toLowerCase "Set-Cookie") = false) by reflexivity.
  destruct (sanitize_any_inbound Sample.granting Sample.groq Sample.repeated_inbound
              "CF-Ray") as (Gone & _ & _).
  destruct (sanitize_any_inbound Sample.granting Sample.groq Sample.repeated_inbound
              "Set-Cookie") as (_ & Kept & Host).
  split; [exact D1|]. split; [exact (proj1 (Gone D1))|]. split; [exact D2|].
  split; [exact (proj1 (Kept D2))|]. split; [exact (proj2 (Kept D2))|].
  exact Host.
Defined.

Lemma every_segment_reaches_its_target_witness :
  In Sample.groq proxies
  /\ hostname Sample.groq_url <> "gooai.chatkit.app"
  /\ pathname Sample.groq_url = segment_pattern Sample.groq ++ "v1/chat"
  /\ find_proxy proxies Sample.groq_url = Some Sample.groq
  /\ resolve proxies Sample.groq_url = Some "https://api.groq.com/v1/chat?stream=1".
Proof.
  assert (I : In Sample.groq proxies) by (right; left; reflexivity).
  assert (H : hostname Sample.groq_url <> "gooai.chatkit.app") by discriminate.
  assert (E : pathname Sample.groq_url = segment_pattern Sample.groq ++ "v1/chat")
    by reflexivity.
  split; [exact I|]. split; [exact H|]. split; [exact E|].
  exact (every_segment_reaches_its_target Sample.groq Sample.groq_url "v1/chat" I H E
           ltac:(discriminate)).
Defined.

Lemma alternate_host_selects_first_entry_witness :
  hostname Sample.groq_url_on_alternate_host = "gooai.chatkit.app"
  /\ absent "/generativelanguage/" (pathname Sample.groq_url_on_alternate_host)
  /\ find_proxy proxies Sample.groq_url_on_alternate_host = Some Sample.generativelanguage
  /\ resolve proxies Sample.groq_url_on_alternate_host
     = Some "https://generativelanguage.googleapis.com/groq/v1/chat"
  /\ resolve proxies Sample.alternate_models_url
     = Some "https://generativelanguage.googleapis.com/v1beta/models?key=1".
Proof.
  assert (A : absent "/generativelanguage/" (pathname Sample.groq_url_on_alternate_host)).
  { intros b a E. cbn [pathname Sample.groq_url_on_alternate_host] in E.
    do 14 (destruct b as [|? b]; [discriminate E|]). discriminate E. }
  destruct (alternate_host_selects_first_entry Sample.groq_url_on_alternate_host eq_refl)
    as (First & _ & Whole & _).
  destruct (alternate_host_selects_first_entry Sample.alternate_models_url eq_refl)
    as (_ & _ & _ & Under).
  split; [reflexivity|]. split; [exact A|]. split; [exact First|].
  split; [exact (Whole A)|].
  exact (Under "v1beta/models" eq_refl).
Defined.

Lemma segment_without_slash_is_not_routed_witness :
  In Sample.groq proxies
  /\ pathname (url Sample.bare_segment_request) = "/" ++ pathSegment Sample.groq
  /\ find_proxy proxies (url Sample.bare_segment_request) = None
  /\ middleware Sample.granting Sample.bare_segment_request Sample.fresh_world
     = mkRun (Ret None) Sample.fresh_world []
  /\ resolve proxies (url Sample.bare_openrouter_api_request)
     = Some "https://openrouter.ai/api/api?x=1".
Proof.
  assert (I : In Sample.groq proxies) by (right; left; reflexivity).
  assert (J : In (mkProxy "openrouter/api" "https://openrouter.ai/api" None) proxies)
    by (do 6 right; left; reflexivity).
  destruct (segment_without_slash_is_not_routed Sample.granting Sample.groq
              Sample.bare_segment_request Sample.fresh_world I
              ltac:(discriminate) eq_refl) as [Bare _].
  destruct (segment_without_slash_is_not_routed Sample.granting
              (mkProxy "openrouter/api" "https://openrouter.ai/api" None)
              Sample.bare_openrouter_api_request Sample.fresh_world J
              ltac:(discriminate) eq_refl) as [_ Taken].
  split; [exact I|]. split; [reflexivity|].
  split; [exact (proj1 (Bare ltac:(discriminate)))|].
  split; [exact (proj2 (Bare ltac:(discriminate)))|].
  exact (Taken eq_refl).
Defined.

Lemma routing_relays_what_proxy_gives_witness :
  find_proxy proxies (url Sample.groq_request) = Some Sample.groq
  /\ 10 < 60000
  /\ proxied (events (routing_middleware Sample.granting proxies Sample.groq_request
                        Sample.fresh_world))
     = [routed_call Sample.granting Sample.groq Sample.groq_request]
  /\ c_url (routed_call Sample.granting Sample.groq Sample.groq_request)
     = "https://api.groq.com/v1/chat?stream=1"
  /\ outcome (routing_middleware Sample.granting proxies Sample.groq_request
                Sample.fresh_world) = Ret (Some Sample.upstream_answer)
  /\ outcome (routing_middleware Sample.failing proxies Sample.groq_request
                Sample.fresh_world) = Throw (NetworkError "connection reset").
Proof.
  assert (F : find_proxy proxies (url Sample.groq_request) = Some Sample.groq)
    by reflexivity.
  assert (L : 10 < 60000) by reflexivity.
  destruct (routing_relays_what_proxy_gives Sample.granting proxies Sample.groq_request
              Sample.fresh_world Sample.groq F)
    as (Sent & _ & _ & _ & U & _ & _ & Answer & _).
  destruct (routing_relays_what_proxy_gives Sample.failing proxies Sample.groq_request
              Sample.fresh_world Sample.groq F)
    as (_ & _ & _ & _ & _ & _ & _ & _ & Failure).
  split; [exact F|]. split; [exact L|]. split; [exact Sent|]. split; [exact U|].
  split; [exact (proj1 (Answer 10 Sample.upstream_answer eq_refl L))|].
  exact (proj1 (Failure 10 (NetworkError "connection reset") eq_refl L)).
Defined.

Lemma missing_expires_in_refreshes_every_request_witness :
  JSON_parse Sample.granted_without_expiry_text = Ret Sample.granted_without_expiry
  /\ get_prop Sample.granted_without_expiry "expires_in" = Ret VUndefined
  /\ 0 < 1
  /\ outcome (exchange (Sample.provider (Ret Sample.without_expiry)) "abc" "ver"
                Sample.fresh_world) = Ret success
  /\ outcome (getStoredTokens
                (world (exchange (Sample.provider (Ret Sample.without_expiry)) "abc" "ver"
                          Sample.fresh_world)))
     = Ret (VObj [("refresh", VStr "rt-4"); ("access", VStr "at-4");
                  ("expires", VNull);
                  ("updated_at", VStr "2025-01-01T00:00:00.000Z")])
  /\ exists later,
       events (claude_code_proxy (Sample.provider (Ret Sample.without_expiry))
                 Sample.managed_request
                 (mkWorld (token_file
                             (world (exchange (Sample.provider (Ret Sample.without_expiry))
                                       "abc" "ver" Sample.fresh_world))) 1))
       = EvFetch (refresh_call (VStr "rt-4")) :: later
       /\ fetches later = [].
Proof.
  assert (Ep : JSON_parse Sample.granted_without_expiry_text
               = Ret Sample.granted_without_expiry) by (vm_compute; reflexivity).
  assert (L : 0 < 1) by reflexivity.
  destruct (missing_expires_in_refreshes_every_request
              (Sample.provider (Ret Sample.without_expiry)) "abc" "ver"
              Sample.fresh_world Sample.without_expiry
              Sample.granted_without_expiry_text Sample.granted_without_expiry
              "rt-4" "at-4" Sample.managed_request
              (mkWorld (token_file
                          (world (exchange (Sample.provider (Ret Sample.without_expiry))
                                    "abc" "ver" Sample.fresh_world))) 1)
              eq_refl eq_refl eq_refl Ep eq_refl eq_refl eq_refl)
    as (S & R & Later).
  split; [exact Ep|]. split; [reflexivity|]. split; [exact L|].
  split; [exact S|]. split; [exact R|].
  exact (Later eq_refl L).
Defined.

End FurtherWitnesses.
